(** * The React scheduler, work loop and fiber stack: a shallow embedding

    This development embeds three modules of the repository in Rocq and
    proves properties of them:

    - [Scheduler]: [packages/scheduler/src/forks/Scheduler.js], the cooperative
      task queue (timer heap, ready heap, deadline checks);
    - [WorkLoop]: [packages/react-reconciler/src/ReactFiberWorkLoop.old.js], the
      root coordinator (render entry points, error recovery, commit phase);
    - [FiberStack]: [packages/react-reconciler/src/ReactFiberStack.new.js], the
      stack of cursor values of the reconciler.

    JavaScript numbers that hold times are integers here (milliseconds, [Z]);
    objects that are shared by reference (tasks, fibers, roots) live in a store
    indexed by a handle, so that an assignment through one alias is seen through
    every other one. *)

From Stdlib Require Import ZArith List Bool Lia Arith String Permutation.
Import ListNotations.
Local Open Scope Z_scope.

(** ** Scheduler.js *)

Module Scheduler.

(** [SchedulerPriorities]: the five levels the switch statements name, and any
    other value a caller may pass. *)
Inductive PriorityLevel : Type :=
| ImmediatePriority
| UserBlockingPriority
| NormalPriority
| LowPriority
| IdlePriority
| OtherPriority (tag : Z).

(** The flags and intervals imported from [SchedulerFeatureFlags]. *)
Record FeatureFlags : Type := {
  enableSchedulerDebugging : bool;
  enableIsInputPending : bool;
  enableIsInputPendingContinuous : bool;
  frameYieldMs : Z;
  continuousYieldMs : Z;
  maxYieldMs : Z
}.

(** The values the comments of Scheduler.js give next to each import
    (frame interval 5, continuous input interval 50, maximum interval 300,
    [enableIsInputPending] false). *)
Definition defaultFlags : FeatureFlags :=
  {| enableSchedulerDebugging := false;
     enableIsInputPending := false;
     enableIsInputPendingContinuous := false;
     frameYieldMs := 5;
     continuousYieldMs := 50;
     maxYieldMs := 300 |}.

Definition maxSigned31BitInt : Z := 1073741823.

Definition IMMEDIATE_PRIORITY_TIMEOUT : Z := -1.
Definition USER_BLOCKING_PRIORITY_TIMEOUT : Z := 250.
Definition NORMAL_PRIORITY_TIMEOUT : Z := 5000.
Definition LOW_PRIORITY_TIMEOUT : Z := 10000.
Definition IDLE_PRIORITY_TIMEOUT : Z := maxSigned31BitInt.

(** The [options] argument of [unstable_scheduleCallback]: either not an
    object (or null), or an object whose [delay] is a number ([Some d]) or
    anything else ([None]). *)
Inductive Options : Type :=
| NoOptions
| OptionsObject (delay : option Z).

(** What a task's callback does when the work loop invokes it.  A callback is
    user code: it may call back into the scheduler and let time pass, and it
    returns another function (a continuation), something else, or throws. *)
Inductive Action (C : Type) : Type :=
| DoScheduleCallback (priorityLevel : PriorityLevel) (callback : option C) (options : Options)
| DoCancelCallback (task : nat)
| DoElapse (ms : Z)
| DoRequestPaint.

Inductive Completion (C : Type) : Type :=
| ReturnsFunction (continuation : C)
| ReturnsOther
| Throws (error : string).

#[local] Unset Elimination Schemes.
Inductive Callback : Type :=
| Fn (body : bool -> list (Action Callback) * Completion Callback).
#[local] Set Elimination Schemes.

Arguments DoScheduleCallback {C}.
Arguments DoCancelCallback {C}.
Arguments DoElapse {C}.
Arguments DoRequestPaint {C}.
Arguments ReturnsFunction {C}.
Arguments ReturnsOther {C}.
Arguments Throws {C}.

Definition body_of (c : Callback) : bool -> list (Action Callback) * Completion Callback :=
  match c with Fn b => b end.

(** A task object.  [callback] is [None] when the field holds null (or any
    value that is not a function). *)
Record Task : Type := mkTask {
  id : nat;
  callback : option Callback;
  priorityLevel : PriorityLevel;
  startTime : Z;
  expirationTime : Z;
  sortIndex : Z
}.

Definition set_callback (v : option Callback) (t : Task) : Task :=
  mkTask (id t) v (priorityLevel t) (startTime t) (expirationTime t) (sortIndex t).
Definition set_sortIndex (v : Z) (t : Task) : Task :=
  mkTask (id t) (callback t) (priorityLevel t) (startTime t) (expirationTime t) v.

(** The only function ever handed to [requestHostCallback]. *)
Inductive HostCallback : Type := FlushWork.

(** Module-level variables of Scheduler.js ([startTime] of line 595 is
    [sliceStartTime] here, since a task has a field of that name), the store of
    task objects, and the host: its clock, its pending input, the timeouts armed
    with [setTimeout] and the messages posted to wake [performWorkUntilDeadline].
    [invocations] records each callback invocation of the work loop with the
    flag it was given. *)
Record State : Type := mkState {
  tasks : nat -> Task;
  taskQueue : list nat;
  timerQueue : list nat;
  taskIdCounter : nat;
  isSchedulerPaused : bool;
  currentTask : option nat;
  currentPriorityLevel : PriorityLevel;
  isPerformingWork : bool;
  isHostCallbackScheduled : bool;
  isHostTimeoutScheduled : bool;
  isMessageLoopRunning : bool;
  scheduledHostCallback : option HostCallback;
  taskTimeoutID : Z;
  frameInterval : Z;
  sliceStartTime : Z;
  needsPaint : bool;
  clock : Z;
  discreteInputPending : bool;
  continuousInputPending : bool;
  hostTimeouts : list (Z * Z);
  nextTimeoutID : Z;
  postedMessages : nat;
  consoleErrors : nat;
  invocations : list (nat * bool)
}.

Definition set_tasks (v : nat -> Task) (s : State) : State :=
  mkState v (taskQueue s) (timerQueue s) (taskIdCounter s) (isSchedulerPaused s)
    (currentTask s) (currentPriorityLevel s) (isPerformingWork s) (isHostCallbackScheduled s)
    (isHostTimeoutScheduled s) (isMessageLoopRunning s) (scheduledHostCallback s)
    (taskTimeoutID s) (frameInterval s) (sliceStartTime s) (needsPaint s) (clock s)
    (discreteInputPending s) (continuousInputPending s) (hostTimeouts s) (nextTimeoutID s)
    (postedMessages s) (consoleErrors s) (invocations s).
Definition set_taskQueue (v : list nat) (s : State) : State :=
  mkState (tasks s) v (timerQueue s) (taskIdCounter s) (isSchedulerPaused s) (currentTask s)
    (currentPriorityLevel s) (isPerformingWork s) (isHostCallbackScheduled s)
    (isHostTimeoutScheduled s) (isMessageLoopRunning s) (scheduledHostCallback s)
    (taskTimeoutID s) (frameInterval s) (sliceStartTime s) (needsPaint s) (clock s)
    (discreteInputPending s) (continuousInputPending s) (hostTimeouts s) (nextTimeoutID s)
    (postedMessages s) (consoleErrors s) (invocations s).
Definition set_timerQueue (v : list nat) (s : State) : State :=
  mkState (tasks s) (taskQueue s) v (taskIdCounter s) (isSchedulerPaused s) (currentTask s)
    (currentPriorityLevel s) (isPerformingWork s) (isHostCallbackScheduled s)
    (isHostTimeoutScheduled s) (isMessageLoopRunning s) (scheduledHostCallback s)
    (taskTimeoutID s) (frameInterval s) (sliceStartTime s) (needsPaint s) (clock s)
    (discreteInputPending s) (continuousInputPending s) (hostTimeouts s) (nextTimeoutID s)
    (postedMessages s) (consoleErrors s) (invocations s).
Definition set_taskIdCounter (v : nat) (s : State) : State :=
  mkState (tasks s) (taskQueue s) (timerQueue s) v (isSchedulerPaused s) (currentTask s)
    (currentPriorityLevel s) (isPerformingWork s) (isHostCallbackScheduled s)
    (isHostTimeoutScheduled s) (isMessageLoopRunning s) (scheduledHostCallback s)
    (taskTimeoutID s) (frameInterval s) (sliceStartTime s) (needsPaint s) (clock s)
    (discreteInputPending s) (continuousInputPending s) (hostTimeouts s) (nextTimeoutID s)
    (postedMessages s) (consoleErrors s) (invocations s).
Definition set_isSchedulerPaused (v : bool) (s : State) : State :=
  mkState (tasks s) (taskQueue s) (timerQueue s) (taskIdCounter s) v (currentTask s)
    (currentPriorityLevel s) (isPerformingWork s) (isHostCallbackScheduled s)
    (isHostTimeoutScheduled s) (isMessageLoopRunning s) (scheduledHostCallback s)
    (taskTimeoutID s) (frameInterval s) (sliceStartTime s) (needsPaint s) (clock s)
    (discreteInputPending s) (continuousInputPending s) (hostTimeouts s) (nextTimeoutID s)
    (postedMessages s) (consoleErrors s) (invocations s).
Definition set_currentTask (v : option nat) (s : State) : State :=
  mkState (tasks s) (taskQueue s) (timerQueue s) (taskIdCounter s) (isSchedulerPaused s) v
    (currentPriorityLevel s) (isPerformingWork s) (isHostCallbackScheduled s)
    (isHostTimeoutScheduled s) (isMessageLoopRunning s) (scheduledHostCallback s)
    (taskTimeoutID s) (frameInterval s) (sliceStartTime s) (needsPaint s) (clock s)
    (discreteInputPending s) (continuousInputPending s) (hostTimeouts s) (nextTimeoutID s)
    (postedMessages s) (consoleErrors s) (invocations s).
Definition set_currentPriorityLevel (v : PriorityLevel) (s : State) : State :=
  mkState (tasks s) (taskQueue s) (timerQueue s) (taskIdCounter s) (isSchedulerPaused s)
    (currentTask s) v (isPerformingWork s) (isHostCallbackScheduled s)
    (isHostTimeoutScheduled s) (isMessageLoopRunning s) (scheduledHostCallback s)
    (taskTimeoutID s) (frameInterval s) (sliceStartTime s) (needsPaint s) (clock s)
    (discreteInputPending s) (continuousInputPending s) (hostTimeouts s) (nextTimeoutID s)
    (postedMessages s) (consoleErrors s) (invocations s).
Definition set_isPerformingWork (v : bool) (s : State) : State :=
  mkState (tasks s) (taskQueue s) (timerQueue s) (taskIdCounter s) (isSchedulerPaused s)
    (currentTask s) (currentPriorityLevel s) v (isHostCallbackScheduled s)
    (isHostTimeoutScheduled s) (isMessageLoopRunning s) (scheduledHostCallback s)
    (taskTimeoutID s) (frameInterval s) (sliceStartTime s) (needsPaint s) (clock s)
    (discreteInputPending s) (continuousInputPending s) (hostTimeouts s) (nextTimeoutID s)
    (postedMessages s) (consoleErrors s) (invocations s).
Definition set_isHostCallbackScheduled (v : bool) (s : State) : State :=
  mkState (tasks s) (taskQueue s) (timerQueue s) (taskIdCounter s) (isSchedulerPaused s)
    (currentTask s) (currentPriorityLevel s) (isPerformingWork s) v (isHostTimeoutScheduled s)
    (isMessageLoopRunning s) (scheduledHostCallback s) (taskTimeoutID s) (frameInterval s)
    (sliceStartTime s) (needsPaint s) (clock s) (discreteInputPending s)
    (continuousInputPending s) (hostTimeouts s) (nextTimeoutID s) (postedMessages s)
    (consoleErrors s) (invocations s).
Definition set_isHostTimeoutScheduled (v : bool) (s : State) : State :=
  mkState (tasks s) (taskQueue s) (timerQueue s) (taskIdCounter s) (isSchedulerPaused s)
    (currentTask s) (currentPriorityLevel s) (isPerformingWork s) (isHostCallbackScheduled s) v
    (isMessageLoopRunning s) (scheduledHostCallback s) (taskTimeoutID s) (frameInterval s)
    (sliceStartTime s) (needsPaint s) (clock s) (discreteInputPending s)
    (continuousInputPending s) (hostTimeouts s) (nextTimeoutID s) (postedMessages s)
    (consoleErrors s) (invocations s).
Definition set_isMessageLoopRunning (v : bool) (s : State) : State :=
  mkState (tasks s) (taskQueue s) (timerQueue s) (taskIdCounter s) (isSchedulerPaused s)
    (currentTask s) (currentPriorityLevel s) (isPerformingWork s) (isHostCallbackScheduled s)
    (isHostTimeoutScheduled s) v (scheduledHostCallback s) (taskTimeoutID s) (frameInterval s)
    (sliceStartTime s) (needsPaint s) (clock s) (discreteInputPending s)
    (continuousInputPending s) (hostTimeouts s) (nextTimeoutID s) (postedMessages s)
    (consoleErrors s) (invocations s).
Definition set_scheduledHostCallback (v : option HostCallback) (s : State) : State :=
  mkState (tasks s) (taskQueue s) (timerQueue s) (taskIdCounter s) (isSchedulerPaused s)
    (currentTask s) (currentPriorityLevel s) (isPerformingWork s) (isHostCallbackScheduled s)
    (isHostTimeoutScheduled s) (isMessageLoopRunning s) v (taskTimeoutID s) (frameInterval s)
    (sliceStartTime s) (needsPaint s) (clock s) (discreteInputPending s)
    (continuousInputPending s) (hostTimeouts s) (nextTimeoutID s) (postedMessages s)
    (consoleErrors s) (invocations s).
Definition set_taskTimeoutID (v : Z) (s : State) : State :=
  mkState (tasks s) (taskQueue s) (timerQueue s) (taskIdCounter s) (isSchedulerPaused s)
    (currentTask s) (currentPriorityLevel s) (isPerformingWork s) (isHostCallbackScheduled s)
    (isHostTimeoutScheduled s) (isMessageLoopRunning s) (scheduledHostCallback s) v
    (frameInterval s) (sliceStartTime s) (needsPaint s) (clock s) (discreteInputPending s)
    (continuousInputPending s) (hostTimeouts s) (nextTimeoutID s) (postedMessages s)
    (consoleErrors s) (invocations s).
Definition set_frameInterval (v : Z) (s : State) : State :=
  mkState (tasks s) (taskQueue s) (timerQueue s) (taskIdCounter s) (isSchedulerPaused s)
    (currentTask s) (currentPriorityLevel s) (isPerformingWork s) (isHostCallbackScheduled s)
    (isHostTimeoutScheduled s) (isMessageLoopRunning s) (scheduledHostCallback s)
    (taskTimeoutID s) v (sliceStartTime s) (needsPaint s) (clock s) (discreteInputPending s)
    (continuousInputPending s) (hostTimeouts s) (nextTimeoutID s) (postedMessages s)
    (consoleErrors s) (invocations s).
Definition set_sliceStartTime (v : Z) (s : State) : State :=
  mkState (tasks s) (taskQueue s) (timerQueue s) (taskIdCounter s) (isSchedulerPaused s)
    (currentTask s) (currentPriorityLevel s) (isPerformingWork s) (isHostCallbackScheduled s)
    (isHostTimeoutScheduled s) (isMessageLoopRunning s) (scheduledHostCallback s)
    (taskTimeoutID s) (frameInterval s) v (needsPaint s) (clock s) (discreteInputPending s)
    (continuousInputPending s) (hostTimeouts s) (nextTimeoutID s) (postedMessages s)
    (consoleErrors s) (invocations s).
Definition set_needsPaint (v : bool) (s : State) : State :=
  mkState (tasks s) (taskQueue s) (timerQueue s) (taskIdCounter s) (isSchedulerPaused s)
    (currentTask s) (currentPriorityLevel s) (isPerformingWork s) (isHostCallbackScheduled s)
    (isHostTimeoutScheduled s) (isMessageLoopRunning s) (scheduledHostCallback s)
    (taskTimeoutID s) (frameInterval s) (sliceStartTime s) v (clock s) (discreteInputPending s)
    (continuousInputPending s) (hostTimeouts s) (nextTimeoutID s) (postedMessages s)
    (consoleErrors s) (invocations s).
Definition set_clock (v : Z) (s : State) : State :=
  mkState (tasks s) (taskQueue s) (timerQueue s) (taskIdCounter s) (isSchedulerPaused s)
    (currentTask s) (currentPriorityLevel s) (isPerformingWork s) (isHostCallbackScheduled s)
    (isHostTimeoutScheduled s) (isMessageLoopRunning s) (scheduledHostCallback s)
    (taskTimeoutID s) (frameInterval s) (sliceStartTime s) (needsPaint s) v
    (discreteInputPending s) (continuousInputPending s) (hostTimeouts s) (nextTimeoutID s)
    (postedMessages s) (consoleErrors s) (invocations s).
Definition set_discreteInputPending (v : bool) (s : State) : State :=
  mkState (tasks s) (taskQueue s) (timerQueue s) (taskIdCounter s) (isSchedulerPaused s)
    (currentTask s) (currentPriorityLevel s) (isPerformingWork s) (isHostCallbackScheduled s)
    (isHostTimeoutScheduled s) (isMessageLoopRunning s) (scheduledHostCallback s)
    (taskTimeoutID s) (frameInterval s) (sliceStartTime s) (needsPaint s) (clock s) v
    (continuousInputPending s) (hostTimeouts s) (nextTimeoutID s) (postedMessages s)
    (consoleErrors s) (invocations s).
Definition set_continuousInputPending (v : bool) (s : State) : State :=
  mkState (tasks s) (taskQueue s) (timerQueue s) (taskIdCounter s) (isSchedulerPaused s)
    (currentTask s) (currentPriorityLevel s) (isPerformingWork s) (isHostCallbackScheduled s)
    (isHostTimeoutScheduled s) (isMessageLoopRunning s) (scheduledHostCallback s)
    (taskTimeoutID s) (frameInterval s) (sliceStartTime s) (needsPaint s) (clock s)
    (discreteInputPending s) v (hostTimeouts s) (nextTimeoutID s) (postedMessages s)
    (consoleErrors s) (invocations s).
Definition set_hostTimeouts (v : list (Z * Z)) (s : State) : State :=
  mkState (tasks s) (taskQueue s) (timerQueue s) (taskIdCounter s) (isSchedulerPaused s)
    (currentTask s) (currentPriorityLevel s) (isPerformingWork s) (isHostCallbackScheduled s)
    (isHostTimeoutScheduled s) (isMessageLoopRunning s) (scheduledHostCallback s)
    (taskTimeoutID s) (frameInterval s) (sliceStartTime s) (needsPaint s) (clock s)
    (discreteInputPending s) (continuousInputPending s) v (nextTimeoutID s) (postedMessages s)
    (consoleErrors s) (invocations s).
Definition set_nextTimeoutID (v : Z) (s : State) : State :=
  mkState (tasks s) (taskQueue s) (timerQueue s) (taskIdCounter s) (isSchedulerPaused s)
    (currentTask s) (currentPriorityLevel s) (isPerformingWork s) (isHostCallbackScheduled s)
    (isHostTimeoutScheduled s) (isMessageLoopRunning s) (scheduledHostCallback s)
    (taskTimeoutID s) (frameInterval s) (sliceStartTime s) (needsPaint s) (clock s)
    (discreteInputPending s) (continuousInputPending s) (hostTimeouts s) v (postedMessages s)
    (consoleErrors s) (invocations s).
Definition set_postedMessages (v : nat) (s : State) : State :=
  mkState (tasks s) (taskQueue s) (timerQueue s) (taskIdCounter s) (isSchedulerPaused s)
    (currentTask s) (currentPriorityLevel s) (isPerformingWork s) (isHostCallbackScheduled s)
    (isHostTimeoutScheduled s) (isMessageLoopRunning s) (scheduledHostCallback s)
    (taskTimeoutID s) (frameInterval s) (sliceStartTime s) (needsPaint s) (clock s)
    (discreteInputPending s) (continuousInputPending s) (hostTimeouts s) (nextTimeoutID s) v
    (consoleErrors s) (invocations s).
Definition set_consoleErrors (v : nat) (s : State) : State :=
  mkState (tasks s) (taskQueue s) (timerQueue s) (taskIdCounter s) (isSchedulerPaused s)
    (currentTask s) (currentPriorityLevel s) (isPerformingWork s) (isHostCallbackScheduled s)
    (isHostTimeoutScheduled s) (isMessageLoopRunning s) (scheduledHostCallback s)
    (taskTimeoutID s) (frameInterval s) (sliceStartTime s) (needsPaint s) (clock s)
    (discreteInputPending s) (continuousInputPending s) (hostTimeouts s) (nextTimeoutID s)
    (postedMessages s) v (invocations s).
Definition set_invocations (v : list (nat * bool)) (s : State) : State :=
  mkState (tasks s) (taskQueue s) (timerQueue s) (taskIdCounter s) (isSchedulerPaused s)
    (currentTask s) (currentPriorityLevel s) (isPerformingWork s) (isHostCallbackScheduled s)
    (isHostTimeoutScheduled s) (isMessageLoopRunning s) (scheduledHostCallback s)
    (taskTimeoutID s) (frameInterval s) (sliceStartTime s) (needsPaint s) (clock s)
    (discreteInputPending s) (continuousInputPending s) (hostTimeouts s) (nextTimeoutID s)
    (postedMessages s) (consoleErrors s) v.

Definition initialTask : Task :=
  mkTask 0 None NormalPriority 0 0 0.

Definition initialState (flags : FeatureFlags) : State :=
  mkState (fun _ => initialTask) [] [] 1 false None NormalPriority false false false false
    None (-1) (frameYieldMs flags) (-1) false 0 false false [] 0 0 0 [].

(** Store update: the task object behind handle [h] is replaced. *)
Definition upd {A : Type} (h : nat) (v : A) (m : nat -> A) : nat -> A :=
  fun k => if Nat.eqb k h then v else m k.

Definition modify_task (h : nat) (f : Task -> Task) (s : State) : State :=
  set_tasks (upd h (f (tasks s h)) (tasks s)) s.

(** *** SchedulerMinHeap *)

(** Modelled from the spec: SchedulerMinHeap.js ([push], [pop], [peek]) is not
    among the sources.  The spec (3, ScheduledTask) says each queue is a
    min-heap on the sort index; ties are broken by the task id, the counter
    Scheduler.js keeps to preserve insertion order.  A queue is the list of the
    handles it holds; [peek] is the least one, [pop] removes it. *)
Definition compare (m : nat -> Task) (a b : nat) : Z :=
  let diff := sortIndex (m a) - sortIndex (m b) in
  if diff =? 0 then Z.of_nat (id (m a)) - Z.of_nat (id (m b)) else diff.

Definition push (q : list nat) (node : nat) : list nat := q ++ [node].

Fixpoint peek (m : nat -> Task) (q : list nat) : option nat :=
  match q with
  | [] => None
  | x :: rest =>
      match peek m rest with
      | None => Some x
      | Some y => if compare m x y <? 0 then Some x else Some y
      end
  end.

Fixpoint remove_first (x : nat) (q : list nat) : list nat :=
  match q with
  | [] => []
  | y :: rest => if Nat.eqb y x then rest else y :: remove_first x rest
  end.

Definition pop (m : nat -> Task) (q : list nat) : list nat :=
  match peek m q with
  | None => q
  | Some x => remove_first x q
  end.

Definition same_task (a : option nat) (b : option nat) : bool :=
  match a, b with
  | Some x, Some y => Nat.eqb x y
  | None, None => true
  | _, _ => false
  end.

(** *** Host primitives *)

Definition getCurrentTime (s : State) : Z := clock s.

Definition schedulePerformWorkUntilDeadline (s : State) : State :=
  set_postedMessages (S (postedMessages s)) s.

Definition requestHostCallback (cb : HostCallback) (s : State) : State :=
  let s := set_scheduledHostCallback (Some cb) s in
  if negb (isMessageLoopRunning s) then
    schedulePerformWorkUntilDeadline (set_isMessageLoopRunning true s)
  else s.

(** [requestHostTimeout(handleTimeout, ms)]: [handleTimeout] is the only
    callback ever passed. *)
Definition requestHostTimeout (ms : Z) (s : State) : State :=
  let tid := nextTimeoutID s in
  let s := set_hostTimeouts (hostTimeouts s ++ [(tid, ms)]) s in
  let s := set_nextTimeoutID (tid + 1) s in
  set_taskTimeoutID tid s.

Definition cancelHostTimeout (s : State) : State :=
  let tid := taskTimeoutID s in
  let s := set_hostTimeouts (filter (fun e => negb (fst e =? tid)) (hostTimeouts s)) s in
  set_taskTimeoutID (-1) s.

Section WithFlags.

Variable flags : FeatureFlags.
(** Whether [navigator.scheduling.isInputPending] exists. *)
Variable hasIsInputPending : bool.

Definition continuousInputInterval : Z := continuousYieldMs flags.
Definition maxInterval : Z := maxYieldMs flags.

(** [isInputPending(options)] of the host, [includeContinuous] being the
    field of the options (absent: false). *)
Definition isInputPending (includeContinuous : bool) (s : State) : bool :=
  discreteInputPending s || (includeContinuous && continuousInputPending s).

(** *** advanceTimers *)

Definition advanceTimers_step (currentTime : Z) (s : State) : option State :=
  match peek (tasks s) (timerQueue s) with
  | None => None
  | Some timer =>
      match callback (tasks s timer) with
      | None => Some (set_timerQueue (pop (tasks s) (timerQueue s)) s)
      | Some _ =>
          if startTime (tasks s timer) <=? currentTime then
            let s := set_timerQueue (pop (tasks s) (timerQueue s)) s in
            let s := modify_task timer (fun t => set_sortIndex (expirationTime t) t) s in
            Some (set_taskQueue (push (taskQueue s) timer) s)
          else None
      end
  end.

(** The [while (timer !== null)] loop: every turn that does not return pops
    the timer queue, so its length bounds the number of turns. *)
Fixpoint advanceTimers_loop (turns : nat) (currentTime : Z) (s : State) : State :=
  match turns with
  | O => s
  | S turns' =>
      match advanceTimers_step currentTime s with
      | None => s
      | Some s' => advanceTimers_loop turns' currentTime s'
      end
  end.

Definition advanceTimers (currentTime : Z) (s : State) : State :=
  advanceTimers_loop (List.length (timerQueue s)) currentTime s.

Definition handleTimeout (currentTime : Z) (s : State) : State :=
  let s := set_isHostTimeoutScheduled false s in
  let s := advanceTimers currentTime s in
  if negb (isHostCallbackScheduled s) then
    match peek (tasks s) (taskQueue s) with
    | Some _ =>
        let s := set_isHostCallbackScheduled true s in
        requestHostCallback FlushWork s
    | None =>
        match peek (tasks s) (timerQueue s) with
        | Some firstTimer =>
            requestHostTimeout (startTime (tasks s firstTimer) - currentTime) s
        | None => s
        end
    end
  else s.

(** *** unstable_scheduleCallback *)

Definition timeoutOf (priorityLevel : PriorityLevel) : Z :=
  match priorityLevel with
  | ImmediatePriority => IMMEDIATE_PRIORITY_TIMEOUT
  | UserBlockingPriority => USER_BLOCKING_PRIORITY_TIMEOUT
  | IdlePriority => IDLE_PRIORITY_TIMEOUT
  | LowPriority => LOW_PRIORITY_TIMEOUT
  | NormalPriority => NORMAL_PRIORITY_TIMEOUT
  | OtherPriority _ => NORMAL_PRIORITY_TIMEOUT
  end.

(** Returns the handle of the new task object and the new state. *)
Definition unstable_scheduleCallback
    (priorityLevel : PriorityLevel) (cb : option Callback) (options : Options)
    (s : State) : nat * State :=
  let currentTime := getCurrentTime s in
  let startTime :=
    match options with
    | OptionsObject (Some delay) =>
        if 0 <? delay then currentTime + delay else currentTime
    | OptionsObject None => currentTime
    | NoOptions => currentTime
    end in
  let timeout := timeoutOf priorityLevel in
  let expirationTime := startTime + timeout in
  let newTask := taskIdCounter s in
  let s := set_taskIdCounter (S newTask) s in
  let s := set_tasks
             (upd newTask (mkTask newTask cb priorityLevel startTime expirationTime (-1))
                (tasks s)) s in
  if currentTime <? startTime then
    let s := modify_task newTask (set_sortIndex startTime) s in
    let s := set_timerQueue (push (timerQueue s) newTask) s in
    let s :=
      if same_task (peek (tasks s) (taskQueue s)) None
         && same_task (Some newTask) (peek (tasks s) (timerQueue s))
      then
        let s := if isHostTimeoutScheduled s then cancelHostTimeout s
                 else set_isHostTimeoutScheduled true s in
        requestHostTimeout (startTime - currentTime) s
      else s in
    (newTask, s)
  else
    let s := modify_task newTask (set_sortIndex expirationTime) s in
    let s := set_taskQueue (push (taskQueue s) newTask) s in
    let s :=
      if negb (isHostCallbackScheduled s) && negb (isPerformingWork s) then
        let s := set_isHostCallbackScheduled true s in
        requestHostCallback FlushWork s
      else s in
    (newTask, s).

Definition unstable_cancelCallback (task : nat) (s : State) : State :=
  modify_task task (set_callback None) s.

(** *** shouldYieldToHost and its settings *)

Definition shouldYieldToHost (s : State) : bool :=
  let timeElapsed := getCurrentTime s - sliceStartTime s in
  if timeElapsed <? frameInterval s then false
  else if enableIsInputPending flags then
    if needsPaint s then true
    else if timeElapsed <? continuousInputInterval then
      if hasIsInputPending then isInputPending false s else true
    else if timeElapsed <? maxInterval then
      if hasIsInputPending then isInputPending (enableIsInputPendingContinuous flags) s
      else true
    else true
  else true.

Definition requestPaint (s : State) : State :=
  if enableIsInputPending flags && hasIsInputPending then set_needsPaint true s else s.

(** [forceFrameRate(fps)], for an integer [fps]. *)
Definition forceFrameRate (fps : Z) (s : State) : State :=
  if (fps <? 0) || (125 <? fps) then set_consoleErrors (S (consoleErrors s)) s
  else if 0 <? fps then set_frameInterval (1000 / fps) s
  else set_frameInterval (frameYieldMs flags) s.

(** *** workLoop *)

(** Results of code that may throw; [OutOfFuel] marks a loop cut off by the
    bound on its number of turns. *)
Inductive Result (A : Type) : Type :=
| Normal (v : A)
| Exception (error : string)
| OutOfFuel.

Arguments Normal {A}.
Arguments Exception {A}.
Arguments OutOfFuel {A}.

(** The scheduler calls a callback makes while it runs. *)
Definition runAction (a : Action Callback) (s : State) : State :=
  match a with
  | DoScheduleCallback p cb o => snd (unstable_scheduleCallback p cb o s)
  | DoCancelCallback task => unstable_cancelCallback task s
  | DoElapse ms => set_clock (clock s + Z.max 0 ms) s
  | DoRequestPaint => requestPaint s
  end.

Definition runActions (l : list (Action Callback)) (s : State) : State :=
  fold_left (fun acc a => runAction a acc) l s.

(** Lines 271-281: the callback is taken out of the task and invoked with
    the flag [didUserCallbackTimeout]. *)
Definition invokeCallback (task : nat) (cb : Callback) (currentTime : Z) (s : State)
  : Completion Callback * State :=
  let s := modify_task task (set_callback None) s in
  let s := set_currentPriorityLevel (priorityLevel (tasks s task)) s in
  let didUserCallbackTimeout := expirationTime (tasks s task) <=? currentTime in
  let s := set_invocations (invocations s ++ [(task, didUserCallbackTimeout)]) s in
  let (actions, completion) := body_of cb didUserCallbackTimeout in
  (completion, runActions actions s).

Inductive Turn : Type :=
| Break
| Next (currentTime : Z)
| Raise (error : string).

(** One turn of the [while] loop of [workLoop], [task] being [currentTask]. *)
Definition workLoop_turn (hasTimeRemaining : bool) (currentTime : Z) (task : nat) (s : State)
  : Turn * State :=
  if (currentTime <? expirationTime (tasks s task))
     && (negb hasTimeRemaining || shouldYieldToHost s)
  then (Break, s)
  else
    match callback (tasks s task) with
    | Some cb =>
        match invokeCallback task cb currentTime s with
        | (Throws e, s) => (Raise e, s)
        | (ReturnsFunction continuationCallback, s) =>
            let currentTime := getCurrentTime s in
            let s := modify_task task (set_callback (Some continuationCallback)) s in
            let s := advanceTimers currentTime s in
            (Next currentTime, set_currentTask (peek (tasks s) (taskQueue s)) s)
        | (ReturnsOther, s) =>
            let currentTime := getCurrentTime s in
            let s :=
              if same_task (Some task) (peek (tasks s) (taskQueue s))
              then set_taskQueue (pop (tasks s) (taskQueue s)) s
              else s in
            let s := advanceTimers currentTime s in
            (Next currentTime, set_currentTask (peek (tasks s) (taskQueue s)) s)
        end
    | None =>
        let s := set_taskQueue (pop (tasks s) (taskQueue s)) s in
        (Next currentTime, set_currentTask (peek (tasks s) (taskQueue s)) s)
    end.

Fixpoint workLoop_loop (fuel : nat) (hasTimeRemaining : bool) (currentTime : Z) (s : State)
  : Result Z * State :=
  match fuel with
  | O => (OutOfFuel, s)
  | S fuel' =>
      match currentTask s with
      | Some task =>
          if negb (enableSchedulerDebugging flags && isSchedulerPaused s) then
            match workLoop_turn hasTimeRemaining currentTime task s with
            | (Break, s') => (Normal currentTime, s')
            | (Next currentTime', s') => workLoop_loop fuel' hasTimeRemaining currentTime' s'
            | (Raise e, s') => (Exception e, s')
            end
          else (Normal currentTime, s)
      | None => (Normal currentTime, s)
      end
  end.

Definition workLoop (fuel : nat) (hasTimeRemaining : bool) (initialTime : Z) (s : State)
  : Result bool * State :=
  let currentTime := initialTime in
  let s := advanceTimers currentTime s in
  let s := set_currentTask (peek (tasks s) (taskQueue s)) s in
  match workLoop_loop fuel hasTimeRemaining currentTime s with
  | (Normal currentTime, s) =>
      match currentTask s with
      | Some _ => (Normal true, s)
      | None =>
          match peek (tasks s) (timerQueue s) with
          | Some firstTimer =>
              (Normal false,
               requestHostTimeout (startTime (tasks s firstTimer) - currentTime) s)
          | None => (Normal false, s)
          end
      end
  | (Exception e, s) => (Exception e, s)
  | (OutOfFuel, s) => (OutOfFuel, s)
  end.

Definition flushWork (fuel : nat) (hasTimeRemaining : bool) (initialTime : Z) (s : State)
  : Result bool * State :=
  let s := set_isHostCallbackScheduled false s in
  let s :=
    if isHostTimeoutScheduled s
    then cancelHostTimeout (set_isHostTimeoutScheduled false s)
    else s in
  let s := set_isPerformingWork true s in
  let previousPriorityLevel := currentPriorityLevel s in
  let (r, s) := workLoop fuel hasTimeRemaining initialTime s in
  (* finally *)
  let s := set_currentTask None s in
  let s := set_currentPriorityLevel previousPriorityLevel s in
  let s := set_isPerformingWork false s in
  (r, s).

Definition performWorkUntilDeadline (fuel : nat) (s : State) : Result unit * State :=
  match scheduledHostCallback s with
  | Some FlushWork =>
      let currentTime := getCurrentTime s in
      let s := set_sliceStartTime currentTime s in
      let hasTimeRemaining := true in
      match flushWork fuel hasTimeRemaining currentTime s with
      | (Normal hasMoreWork, s) =>
          let s :=
            if hasMoreWork then schedulePerformWorkUntilDeadline s
            else set_scheduledHostCallback None (set_isMessageLoopRunning false s) in
          (Normal tt, set_needsPaint false s)
      | (Exception e, s) =>
          (* hasMoreWork keeps its initial value, true *)
          (Exception e, schedulePerformWorkUntilDeadline s)
      | (OutOfFuel, s) => (OutOfFuel, s)
      end
  | None =>
      let s := set_isMessageLoopRunning false s in
      (Normal tt, set_needsPaint false s)
  end.

(** *** Priority levels around user code *)

(** User code handed to the scheduler to be run at once: it may call the
    scheduler, and returns or throws. *)
Definition Handler (A : Type) : Type := State -> Result A * State.

Definition unstable_runWithPriority {A : Type} (priorityLevel : PriorityLevel)
    (eventHandler : Handler A) (s : State) : Result A * State :=
  let priorityLevel :=
    match priorityLevel with
    | ImmediatePriority | UserBlockingPriority | NormalPriority | LowPriority
    | IdlePriority => priorityLevel
    | OtherPriority _ => NormalPriority
    end in
  let previousPriorityLevel := currentPriorityLevel s in
  let s := set_currentPriorityLevel priorityLevel s in
  let (r, s) := eventHandler s in
  (* finally *)
  (r, set_currentPriorityLevel previousPriorityLevel s).

Definition unstable_next {A : Type} (eventHandler : Handler A) (s : State)
  : Result A * State :=
  let priorityLevel :=
    match currentPriorityLevel s with
    | ImmediatePriority | UserBlockingPriority | NormalPriority => NormalPriority
    | _ => currentPriorityLevel s
    end in
  let previousPriorityLevel := currentPriorityLevel s in
  let s := set_currentPriorityLevel priorityLevel s in
  let (r, s) := eventHandler s in
  (* finally *)
  (r, set_currentPriorityLevel previousPriorityLevel s).

(** The function [unstable_wrapCallback] returns, for a call in state [s]. *)
Definition unstable_wrapCallback {A : Type} (callback : Handler A) (s : State)
  : Handler A :=
  let parentPriorityLevel := currentPriorityLevel s in
  fun s' =>
    let previousPriorityLevel := currentPriorityLevel s' in
    let s' := set_currentPriorityLevel parentPriorityLevel s' in
    let (r, s') := callback s' in
    (* finally *)
    (r, set_currentPriorityLevel previousPriorityLevel s').

Definition unstable_getCurrentPriorityLevel (s : State) : PriorityLevel :=
  currentPriorityLevel s.

Definition unstable_pauseExecution (s : State) : State := set_isSchedulerPaused true s.

Definition unstable_continueExecution (s : State) : State :=
  let s := set_isSchedulerPaused false s in
  if negb (isHostCallbackScheduled s) && negb (isPerformingWork s) then
    requestHostCallback FlushWork (set_isHostCallbackScheduled true s)
  else s.

Definition unstable_getFirstCallbackNode (s : State) : option nat :=
  peek (tasks s) (taskQueue s).

(** *** Properties of [unstable_scheduleCallback] *)

Lemma upd_same {A : Type} (h : nat) (v : A) (m : nat -> A) : upd h v m h = v.
Proof. unfold upd. now rewrite Nat.eqb_refl. Qed.

Lemma upd_other {A : Type} (h k : nat) (v : A) (m : nat -> A) :
  k <> h -> upd h v m k = m k.
Proof. intros Hne. unfold upd. now apply Nat.eqb_neq in Hne as ->. Qed.

Definition startTimeOf (options : Options) (now : Z) : Z :=
  match options with
  | OptionsObject (Some delay) => if 0 <? delay then now + delay else now
  | _ => now
  end.

Lemma tasks_requestHostTimeout ms s : tasks (requestHostTimeout ms s) = tasks s.
Proof. reflexivity. Qed.

Lemma tasks_cancelHostTimeout s : tasks (cancelHostTimeout s) = tasks s.
Proof. reflexivity. Qed.

Lemma tasks_requestHostCallback cb s : tasks (requestHostCallback cb s) = tasks s.
Proof. unfold requestHostCallback. simpl. now destruct (isMessageLoopRunning s). Qed.

Lemma taskQueue_requestHostCallback cb s :
  taskQueue (requestHostCallback cb s) = taskQueue s.
Proof. unfold requestHostCallback. simpl. now destruct (isMessageLoopRunning s). Qed.

Lemma timerQueue_requestHostCallback cb s :
  timerQueue (requestHostCallback cb s) = timerQueue s.
Proof. unfold requestHostCallback. simpl. now destruct (isMessageLoopRunning s). Qed.

Lemma taskIdCounter_requestHostCallback cb s :
  taskIdCounter (requestHostCallback cb s) = taskIdCounter s.
Proof. unfold requestHostCallback. simpl. now destruct (isMessageLoopRunning s). Qed.

(** The new task object and the two queues after a call, in closed form. *)
Lemma scheduleCallback_result priorityLevel cb options s :
  let now := getCurrentTime s in
  let start := startTimeOf options now in
  let r := unstable_scheduleCallback priorityLevel cb options s in
  fst r = taskIdCounter s /\
  taskIdCounter (snd r) = S (taskIdCounter s) /\
  (forall k, tasks (snd r) k =
    upd (taskIdCounter s)
      (mkTask (taskIdCounter s) cb priorityLevel start (start + timeoutOf priorityLevel)
         (if now <? start then start else start + timeoutOf priorityLevel))
      (tasks s) k) /\
  taskQueue (snd r) =
    (if now <? start then taskQueue s else taskQueue s ++ [taskIdCounter s]) /\
  timerQueue (snd r) =
    (if now <? start then timerQueue s ++ [taskIdCounter s] else timerQueue s).
Proof.
  cbv zeta. unfold unstable_scheduleCallback.
  assert (Hst : match options with
                | OptionsObject (Some delay) =>
                    if 0 <? delay then getCurrentTime s + delay else getCurrentTime s
                | OptionsObject None => getCurrentTime s
                | NoOptions => getCurrentTime s
                end = startTimeOf options (getCurrentTime s)).
  { unfold startTimeOf. destruct options as [|[d|]]; reflexivity. }
  rewrite Hst. clear Hst.
  set (start := startTimeOf options (getCurrentTime s)).
  assert (Hupd : forall (t : Task) (f : Task -> Task) (m : nat -> Task) (h k : nat),
             upd h (f (upd h t m h)) (upd h t m) k = upd h (f t) m k).
  { intros t f m h k. unfold upd.
    rewrite Nat.eqb_refl. now destruct (Nat.eqb k h). }
  destruct (getCurrentTime s <? start) eqn:Hlt.
  - match goal with
    | |- context [if ?c then _ else _] => destruct c
    end; cbn [fst snd].
    + destruct (isHostTimeoutScheduled _); cbn; repeat split; try reflexivity;
        intros k; apply Hupd.
    + cbn. repeat split; try reflexivity. intros k; apply Hupd.
  - match goal with
    | |- context [if ?c then _ else _] => destruct c
    end; cbn [fst snd].
    + rewrite tasks_requestHostCallback, taskQueue_requestHostCallback,
        timerQueue_requestHostCallback, taskIdCounter_requestHostCallback.
      cbn. repeat split; try reflexivity. intros k; apply Hupd.
    + cbn. repeat split; try reflexivity. intros k; apply Hupd.
Qed.

(** C4.  For every call [unstable_scheduleCallback priorityLevel callback
    options]: the new task starts at [now + delay] when [options] is an object
    with a positive numeric [delay], and at [now] otherwise; it expires at its
    start time plus the timeout of its priority (-1 immediate, 250
    user-blocking, 5000 normal and any unknown level, 10000 low, 1073741823
    idle); when it starts after [now] it is pushed on the timer queue with its
    start time as sort index, otherwise on the task queue with its expiration
    time as sort index. *)
Theorem scheduleCallback_start_expiration_queue :
  forall (priorityLevel : PriorityLevel) (cb : option Callback) (options : Options)
         (s : State),
    let now := getCurrentTime s in
    let newTask := fst (unstable_scheduleCallback priorityLevel cb options s) in
    let s' := snd (unstable_scheduleCallback priorityLevel cb options s) in
    let t := tasks s' newTask in
    (forall delay, options = OptionsObject (Some delay) -> 0 < delay ->
       startTime t = now + delay) /\
    ((forall delay, options = OptionsObject (Some delay) -> delay <= 0) ->
       startTime t = now) /\
    expirationTime t =
      startTime t +
      match priorityLevel with
      | ImmediatePriority => -1
      | UserBlockingPriority => 250
      | NormalPriority => 5000
      | LowPriority => 10000
      | IdlePriority => 1073741823
      | OtherPriority _ => 5000
      end /\
    (now < startTime t ->
       sortIndex t = startTime t /\
       timerQueue s' = push (timerQueue s) newTask /\
       taskQueue s' = taskQueue s) /\
    (startTime t <= now ->
       sortIndex t = expirationTime t /\
       taskQueue s' = push (taskQueue s) newTask /\
       timerQueue s' = timerQueue s).
Proof.
  intros priorityLevel cb options s now newTask s' t.
  destruct (scheduleCallback_result priorityLevel cb options s)
    as (Hid & _ & Htasks & Htq & Htm).
  fold newTask in Hid. fold s' in Htasks, Htq, Htm. fold now in Htasks, Htq, Htm.
  assert (Ht : t = mkTask (taskIdCounter s) cb priorityLevel (startTimeOf options now)
                     (startTimeOf options now + timeoutOf priorityLevel)
                     (if now <? startTimeOf options now then startTimeOf options now
                      else startTimeOf options now + timeoutOf priorityLevel)).
  { unfold t. rewrite Htasks, Hid. apply upd_same. }
  rewrite Ht, Htq, Htm, Hid. cbn [startTime expirationTime sortIndex]. unfold push.
  split; [|split; [|split; [|split]]].
  - intros delay -> Hpos. cbn. apply Z.ltb_lt in Hpos. now rewrite Hpos.
  - intros Hno. unfold startTimeOf. destruct options as [|[d|]]; try reflexivity.
    specialize (Hno d eq_refl). destruct (0 <? d) eqn:Hd; [apply Z.ltb_lt in Hd; lia|easy].
  - destruct priorityLevel; reflexivity.
  - intros H. apply Z.ltb_lt in H. now rewrite H.
  - intros H. apply Z.ltb_ge in H. now rewrite H.
Qed.

(** *** Properties of [shouldYieldToHost] *)

(** C8, as amended.  [shouldYieldToHost] returns false while the time elapsed
    since the start of the slice is below the frame interval; from the frame
    interval on it returns true, except that with [enableIsInputPending] and
    an available [isInputPending] it returns, below the maximum interval,
    whether a paint was requested or input is pending; and from the maximum
    interval on it returns true provided the elapsed time is not below the
    frame interval. *)
Theorem shouldYieldToHost_budget :
  forall (s : State),
    continuousInputInterval <= maxInterval ->
    let timeElapsed := getCurrentTime s - sliceStartTime s in
    (timeElapsed < frameInterval s -> shouldYieldToHost s = false) /\
    (frameInterval s <= timeElapsed ->
       enableIsInputPending flags = false \/ hasIsInputPending = false ->
       shouldYieldToHost s = true) /\
    (frameInterval s <= timeElapsed -> timeElapsed < maxInterval ->
       enableIsInputPending flags = true -> hasIsInputPending = true ->
       shouldYieldToHost s =
         needsPaint s
         || isInputPending
              (if timeElapsed <? continuousInputInterval then false
               else enableIsInputPendingContinuous flags) s) /\
    (frameInterval s <= timeElapsed -> maxInterval <= timeElapsed ->
       shouldYieldToHost s = true).
Proof.
  intros s Hord timeElapsed. unfold shouldYieldToHost. fold timeElapsed.
  repeat split.
  - intros H. apply Z.ltb_lt in H. now rewrite H.
  - intros H [Hd | Hd]; apply Z.ltb_ge in H; rewrite H, ?Hd.
    + reflexivity.
    + destruct (enableIsInputPending flags); [|reflexivity].
      destruct (needsPaint s); [reflexivity|].
      destruct (timeElapsed <? continuousInputInterval); [reflexivity|].
      now destruct (timeElapsed <? maxInterval).
  - intros H Hmax He Hh. apply Z.ltb_ge in H. apply Z.ltb_lt in Hmax.
    rewrite H, He, Hh, Hmax.
    destruct (needsPaint s); [reflexivity|].
    now destruct (timeElapsed <? continuousInputInterval).
  - intros H Hmax. apply Z.ltb_ge in H. rewrite H.
    destruct (enableIsInputPending flags); [|reflexivity].
    destruct (needsPaint s); [reflexivity|].
    assert (Hc : (timeElapsed <? continuousInputInterval) = false)
      by (apply Z.ltb_ge; lia).
    assert (Hm : (timeElapsed <? maxInterval) = false) by (apply Z.ltb_ge; lia).
    now rewrite Hc, Hm.
Qed.

(** *** Properties of the work loop *)

(** Queues hold each handle once, and only handles already handed out. *)
Definition wf (s : State) : Prop :=
  NoDup (taskQueue s ++ timerQueue s) /\
  forall h, In h (taskQueue s ++ timerQueue s) -> (h < taskIdCounter s)%nat.

Lemma peek_In m q x : peek m q = Some x -> In x q.
Proof.
  revert x. induction q as [|y q IH]; intros x; cbn; [discriminate|].
  destruct (peek m q) as [z|].
  - destruct (compare m y z <? 0); intros [= <-]; auto.
  - intros [= <-]. auto.
Qed.

Lemma remove_first_In x y q : In y (remove_first x q) -> In y q.
Proof.
  induction q as [|z q IH]; cbn; [easy|].
  destruct (Nat.eqb z x); cbn; intuition.
Qed.

Lemma remove_first_other x y q : y <> x -> In y q -> In y (remove_first x q).
Proof.
  intros Hne. induction q as [|z q IH]; cbn; [easy|].
  destruct (Nat.eqb z x) eqn:E; cbn.
  - apply Nat.eqb_eq in E. subst z. intros [->|H]; [easy|exact H].
  - intros [->|H]; auto.
Qed.

Lemma remove_first_NoDup x q : NoDup q -> NoDup (remove_first x q) /\ ~ In x (remove_first x q).
Proof.
  induction 1 as [|z q Hz Hq IH]; cbn; [split; [constructor|easy]|].
  destruct (Nat.eqb z x) eqn:E.
  - apply Nat.eqb_eq in E. subst z. auto.
  - apply Nat.eqb_neq in E. destruct IH as [IH1 IH2]. split.
    + constructor; [|exact IH1]. intros Hin. apply Hz. eapply remove_first_In, Hin.
    + cbn. intros [->|Hin]; [now apply E|now apply IH2].
Qed.

Lemma pop_In m q y : In y (pop m q) -> In y q.
Proof.
  unfold pop. destruct (peek m q); [apply remove_first_In|easy].
Qed.

Lemma pop_peek_removed m q x : NoDup q -> peek m q = Some x -> ~ In x (pop m q).
Proof.
  intros Hnd Hp. unfold pop. rewrite Hp. now apply remove_first_NoDup.
Qed.

(** What one scheduler call of a callback can change. *)
Record extends (s s' : State) : Prop := {
  ext_counter : (taskIdCounter s <= taskIdCounter s')%nat;
  ext_taskQueue : forall h, In h (taskQueue s) -> In h (taskQueue s');
  ext_taskQueue_new :
    forall h, In h (taskQueue s') -> In h (taskQueue s) \/ (taskIdCounter s <= h)%nat;
  ext_timerQueue :
    forall h, In h (timerQueue s') -> In h (timerQueue s) \/ (taskIdCounter s <= h)%nat;
  ext_callback_null :
    forall h, (h < taskIdCounter s)%nat -> callback (tasks s h) = None ->
              callback (tasks s' h) = None;
  ext_expirationTime :
    forall h, (h < taskIdCounter s)%nat ->
              expirationTime (tasks s' h) = expirationTime (tasks s h);
  ext_invocations : invocations s' = invocations s;
  ext_wf : wf s -> wf s'
}.

Lemma extends_refl s : extends s s.
Proof. constructor; auto. Qed.

Lemma extends_trans s1 s2 s3 : extends s1 s2 -> extends s2 s3 -> extends s1 s3.
Proof.
  intros [c1 q1 n1 t1 k1 e1 i1 w1] [c2 q2 n2 t2 k2 e2 i2 w2]. constructor.
  - lia.
  - auto.
  - intros h Hh. destruct (n2 h Hh) as [H|H]; [apply n1 in H; intuition lia|right; lia].
  - intros h Hh. destruct (t2 h Hh) as [H|H]; [apply t1 in H; intuition lia|right; lia].
  - intros h Hlt Hn. apply k2; [lia|auto].
  - intros h Hlt. rewrite e2 by lia. auto.
  - congruence.
  - auto.
Qed.

Lemma NoDup_app_snoc (a b : list nat) (x : nat) :
  NoDup (a ++ b) -> ~ In x (a ++ b) -> NoDup ((a ++ [x]) ++ b) /\ NoDup (a ++ (b ++ [x])).
Proof.
  intros Hnd Hx. split.
  - rewrite <- app_assoc. cbn. apply NoDup_Add with (a := x) (l := a ++ b); [|constructor; auto].
    apply Add_app.
  - rewrite app_assoc. apply NoDup_Add with (a := x) (l := a ++ b).
    + replace (a ++ b) with ((a ++ b) ++ []) at 1 by apply app_nil_r. apply Add_app.
    + constructor; auto.
Qed.

Lemma scheduleCallback_extends p cb o s :
  extends s (snd (unstable_scheduleCallback p cb o s)).
Proof.
  destruct (scheduleCallback_result p cb o s) as (_ & Hc & Ht & Hq & Hm).
  cbv zeta in *.
  set (s' := snd (unstable_scheduleCallback p cb o s)) in *.
  set (c := getCurrentTime s <? startTimeOf o (getCurrentTime s)) in *.
  constructor.
  - lia.
  - intros h Hh. rewrite Hq. destruct c; [auto|]. apply in_or_app. auto.
  - intros h. rewrite Hq. destruct c; [auto|]. intros Hh.
    apply in_app_or in Hh as [Hh|[<-|[]]]; auto.
  - intros h. rewrite Hm. destruct c; [|auto]. intros Hh.
    apply in_app_or in Hh as [Hh|[<-|[]]]; auto.
  - intros h Hlt Hn. rewrite Ht, upd_other by lia. exact Hn.
  - intros h Hlt. rewrite Ht, upd_other by lia. reflexivity.
  - unfold s', unstable_scheduleCallback.
    repeat match goal with
           | |- context [if ?b then _ else _] => destruct b
           end; cbn; try reflexivity;
      unfold requestHostCallback; cbn;
      repeat match goal with
             | |- context [if ?b then _ else _] => destruct b
             end; reflexivity.
  - intros [Hnd Hlt]. unfold wf. rewrite Hq, Hm, Hc.
    assert (Hfresh : ~ In (taskIdCounter s) (taskQueue s ++ timerQueue s)).
    { intros Hin. apply Hlt in Hin. lia. }
    destruct (NoDup_app_snoc _ _ _ Hnd Hfresh) as [N1 N2].
    destruct c; split; auto.
    + intros h Hh. rewrite app_assoc in Hh.
      apply in_app_or in Hh as [Hh|[<-|[]]]; [apply Hlt in Hh|]; lia.
    + intros h Hh. rewrite <- app_assoc in Hh.
      apply in_app_or in Hh as [Hh|Hh]; [assert (In h (taskQueue s ++ timerQueue s)) by
        (apply in_or_app; auto)|].
      * apply Hlt in H. lia.
      * cbn in Hh. destruct Hh as [<-|Hh]; [lia|].
        assert (In h (taskQueue s ++ timerQueue s)) by (apply in_or_app; auto).
        apply Hlt in H. lia.
Qed.

Lemma runAction_extends a s : extends s (runAction a s).
Proof.
  destruct a as [p cb o|task|ms|]; cbn.
  - apply scheduleCallback_extends.
  - constructor; cbn; auto.
    + intros h _ Hn. unfold upd. destruct (Nat.eqb h task); [reflexivity|exact Hn].
    + intros h _. unfold upd. destruct (Nat.eqb h task) eqn:E; [|reflexivity].
      apply Nat.eqb_eq in E. now subst.
  - constructor; cbn; auto.
  - unfold requestPaint. destruct (_ && _); [constructor; cbn; auto|apply extends_refl].
Qed.

Lemma runActions_extends l s : extends s (runActions l s).
Proof.
  revert s. induction l as [|a l IH]; intros s; cbn; [apply extends_refl|].
  eapply extends_trans; [apply runAction_extends|apply IH].
Qed.

Lemma advanceTimers_step_spec currentTime s s' :
  advanceTimers_step currentTime s = Some s' ->
  exists timer,
    peek (tasks s) (timerQueue s) = Some timer /\
    timerQueue s' = pop (tasks s) (timerQueue s) /\
    (taskQueue s' = taskQueue s \/ taskQueue s' = taskQueue s ++ [timer]) /\
    (forall h, callback (tasks s' h) = callback (tasks s h)) /\
    invocations s' = invocations s.
Proof.
  unfold advanceTimers_step.
  destruct (peek (tasks s) (timerQueue s)) as [timer|] eqn:Hp; [|discriminate].
  destruct (callback (tasks s timer)) eqn:Hcb.
  - destruct (startTime (tasks s timer) <=? currentTime); [|discriminate].
    intros [= <-]. exists timer. cbn. repeat split; auto.
    intros h. unfold upd. destruct (Nat.eqb h timer) eqn:E; [|reflexivity].
    apply Nat.eqb_eq in E. now subst.
  - intros [= <-]. exists timer. cbn. repeat split; auto.
Qed.

Lemma advanceTimers_loop_spec turns currentTime s :
  let s' := advanceTimers_loop turns currentTime s in
  (forall h, In h (taskQueue s) -> In h (taskQueue s')) /\
  (forall h, In h (taskQueue s') -> In h (taskQueue s) \/ In h (timerQueue s)) /\
  (forall h, callback (tasks s' h) = callback (tasks s h)) /\
  invocations s' = invocations s.
Proof.
  revert s. induction turns as [|n IH]; intros s; cbn; [auto|].
  destruct (advanceTimers_step currentTime s) as [s1|] eqn:Hstep; [|auto].
  destruct (advanceTimers_step_spec _ _ _ Hstep) as (timer & Hp & Hm & Hq & Hc & Hi).
  destruct (IH s1) as (I1 & I2 & I3 & I4). cbv zeta in *.
  repeat split.
  - intros h Hh. apply I1. destruct Hq as [-> | ->]; [|apply in_or_app]; auto.
  - intros h Hh. apply I2 in Hh as [Hh|Hh].
    + destruct Hq as [Hq|Hq]; rewrite Hq in Hh; [auto|].
      apply in_app_or in Hh as [Hh|[<-|[]]]; [auto|]. right. now apply peek_In in Hp.
    + right. rewrite Hm in Hh. now apply pop_In in Hh.
  - intros h. now rewrite I3.
  - congruence.
Qed.

Lemma advanceTimers_spec currentTime s :
  let s' := advanceTimers currentTime s in
  (forall h, In h (taskQueue s) -> In h (taskQueue s')) /\
  (forall h, In h (taskQueue s') -> In h (taskQueue s) \/ In h (timerQueue s)) /\
  (forall h, callback (tasks s' h) = callback (tasks s h)) /\
  invocations s' = invocations s.
Proof. apply advanceTimers_loop_spec. Qed.

Lemma same_task_Some task p : same_task (Some task) p = true <-> p = Some task.
Proof.
  destruct p as [x|]; cbn; [|easy]. rewrite Nat.eqb_eq. split; [now intros ->|now intros [= ->]].
Qed.

Definition beforeCallback (task : nat) (currentTime : Z) (s : State) : State :=
  set_invocations
    (invocations s ++ [(task, expirationTime (tasks s task) <=? currentTime)])
    (set_currentPriorityLevel (priorityLevel (tasks s task))
       (modify_task task (set_callback None) s)).

Lemma invokeCallback_spec task cb currentTime s :
  invokeCallback task cb currentTime s =
  (snd (body_of cb (expirationTime (tasks s task) <=? currentTime)),
   runActions (fst (body_of cb (expirationTime (tasks s task) <=? currentTime)))
     (beforeCallback task currentTime s)).
Proof.
  unfold invokeCallback, beforeCallback.
  cbn [tasks modify_task set_tasks set_currentPriorityLevel].
  rewrite upd_same. cbn [expirationTime priorityLevel set_callback].
  now destruct (body_of cb _).
Qed.

(** C5, as amended.  In a turn of the work loop that invokes the callback of
    the current task: the callback is given a flag that is true exactly when
    the task's expiration time is at most the current time; when it returns a
    function, that function becomes the task's callback and the task stays in
    the task queue; when it returns anything else, the task is popped if it is
    still the first of the task queue, and otherwise it stays in the queue
    with a null callback, to be dropped when it reaches the top. *)
Theorem workLoop_turn_callback :
  forall (hasTimeRemaining : bool) (currentTime : Z) (task : nat) (cb : Callback)
         (s : State),
    wf s ->
    In task (taskQueue s) ->
    callback (tasks s task) = Some cb ->
    (currentTime <? expirationTime (tasks s task))
      && (negb hasTimeRemaining || shouldYieldToHost s) = false ->
    let didTimeout := expirationTime (tasks s task) <=? currentTime in
    let mid := snd (invokeCallback task cb currentTime s) in
    let s' := snd (workLoop_turn hasTimeRemaining currentTime task s) in
    invocations s' = invocations s ++ [(task, didTimeout)] /\
    (didTimeout = true <-> expirationTime (tasks s task) <= currentTime) /\
    (forall k, snd (body_of cb didTimeout) = ReturnsFunction k ->
       callback (tasks s' task) = Some k /\ In task (taskQueue s')) /\
    (snd (body_of cb didTimeout) = ReturnsOther ->
       (peek (tasks mid) (taskQueue mid) = Some task -> ~ In task (taskQueue s')) /\
       (peek (tasks mid) (taskQueue mid) <> Some task ->
          In task (taskQueue s') /\ callback (tasks s' task) = None)).
Proof.
  intros hasTimeRemaining currentTime task cb s Hwf Hin Hcb Hgo. cbv zeta.
  unfold workLoop_turn. rewrite Hgo, Hcb, invokeCallback_spec. cbn [fst snd].
  set (didTimeout := expirationTime (tasks s task) <=? currentTime).
  destruct (body_of cb didTimeout) as [actions completion] eqn:Hbody.
  cbn [fst snd].
  set (s0 := beforeCallback task currentTime s).
  set (mid := runActions actions s0).
  assert (Hext : extends s0 mid) by apply runActions_extends.
  assert (Hwf0 : wf s0) by exact Hwf.
  assert (Hlt : (task < taskIdCounter s0)%nat).
  { apply Hwf0. apply in_or_app. left. exact Hin. }
  assert (Hmid : In task (taskQueue mid)) by (apply (ext_taskQueue _ _ Hext); exact Hin).
  assert (Hwfm : wf mid) by (apply (ext_wf _ _ Hext); exact Hwf0).
  assert (Hinv : invocations mid = invocations s ++ [(task, didTimeout)]).
  { rewrite (ext_invocations _ _ Hext). reflexivity. }
  split; [|split; [apply Z.leb_le|split]].
  - destruct completion as [k| |e]; cbn [snd].
    + destruct (advanceTimers_spec (getCurrentTime mid)
                  (modify_task task (set_callback (Some k)) mid)) as (_ & _ & _ & Hi).
      unfold set_currentTask. cbn [invocations]. cbv zeta in Hi. rewrite Hi. exact Hinv.
    + match goal with
      | |- context [advanceTimers ?t ?x] =>
          destruct (advanceTimers_spec t x) as (_ & _ & _ & Hi)
      end.
      unfold set_currentTask. cbn [invocations]. cbv zeta in Hi. rewrite Hi.
      destruct (same_task _ _); exact Hinv.
    + exact Hinv.
  - intros k ->. cbn [snd].
    destruct (advanceTimers_spec (getCurrentTime mid)
                (modify_task task (set_callback (Some k)) mid)) as (Hq & _ & Hc & _).
    cbv zeta in Hq, Hc. unfold set_currentTask. cbn [tasks taskQueue]. split.
    + rewrite Hc. cbn. now rewrite upd_same.
    + apply Hq. exact Hmid.
  - intros ->. cbn [snd]. split.
    + intros Hp. apply same_task_Some in Hp as Hs. rewrite Hs.
      match goal with
      | |- context [advanceTimers ?t ?x] =>
          destruct (advanceTimers_spec t x) as (_ & Hq & _ & _)
      end.
      cbv zeta in Hq. unfold set_currentTask. cbn [tasks taskQueue].
      intros Hbad. apply Hq in Hbad. cbn in Hbad.
      destruct Hwfm as [Hnd _].
      destruct Hbad as [Hbad|Hbad].
      * revert Hbad. apply pop_peek_removed; [|exact Hp].
        now apply NoDup_app_remove_r in Hnd.
      * clear - Hnd Hmid Hbad. induction (taskQueue mid) as [|x q IH]; [easy|].
        cbn in Hnd. inversion Hnd as [|? ? Hx Hq]; subst.
        destruct Hmid as [->|Hmid]; [|now apply IH].
        apply Hx. apply in_or_app. now right.
    + intros Hp.
      assert (Hs : same_task (Some task) (peek (tasks mid) (taskQueue mid)) = false).
      { destruct (same_task _ _) eqn:E; [|reflexivity]. now apply same_task_Some in E. }
      rewrite Hs.
      destruct (advanceTimers_spec (getCurrentTime mid) mid) as (Hq & _ & Hc & _).
      cbv zeta in Hq, Hc. unfold set_currentTask. cbn [tasks taskQueue].
      split; [now apply Hq|].
      rewrite Hc. apply (ext_callback_null _ _ Hext); [exact Hlt|].
      unfold s0, beforeCallback. cbn. now rewrite upd_same.
Qed.

(** *** The queues stay well formed *)

Lemma remove_first_Permutation x q : In x q -> Permutation q (x :: remove_first x q).
Proof.
  induction q as [|y q IH]; cbn; [easy|].
  destruct (Nat.eqb y x) eqn:E.
  - apply Nat.eqb_eq in E. subst y. intros _. apply Permutation_refl.
  - apply Nat.eqb_neq in E. intros [->|Hin]; [easy|].
    eapply perm_trans; [apply perm_skip, IH, Hin|apply perm_swap].
Qed.

Lemma NoDup_remove_first_l x a b : NoDup (a ++ b) -> NoDup (remove_first x a ++ b).
Proof.
  induction a as [|y a IH]; cbn; [easy|].
  intros Hnd. inversion Hnd as [|? ? Hy Hrest]; subst.
  destruct (Nat.eqb y x); [exact Hrest|].
  cbn. constructor; [|auto].
  intros Hin. apply Hy. apply in_app_or in Hin as [Hin|Hin]; apply in_or_app;
    [left; eapply remove_first_In, Hin|now right].
Qed.

Lemma NoDup_remove_first_r x a b : NoDup (a ++ b) -> NoDup (a ++ remove_first x b).
Proof.
  intros Hnd. apply (Permutation_NoDup (Permutation_app_comm _ _)).
  apply NoDup_remove_first_l. apply (Permutation_NoDup (Permutation_app_comm _ _)), Hnd.
Qed.

Lemma NoDup_move x a b :
  NoDup (a ++ b) -> In x b -> NoDup ((a ++ [x]) ++ remove_first x b).
Proof.
  intros Hnd Hin. apply (Permutation_NoDup (l := a ++ b)); [|exact Hnd].
  rewrite <- app_assoc. apply Permutation_app_head. cbn.
  now apply remove_first_Permutation.
Qed.

Lemma wf_pop_taskQueue s :
  wf s -> wf (set_taskQueue (pop (tasks s) (taskQueue s)) s).
Proof.
  intros [Hnd Hb]. split; cbn [taskQueue timerQueue taskIdCounter set_taskQueue].
  - unfold pop. destruct (peek (tasks s) (taskQueue s)); [|exact Hnd].
    now apply NoDup_remove_first_l.
  - intros h Hin. apply Hb. apply in_app_or in Hin as [Hin|Hin]; apply in_or_app;
      [left; eapply pop_In, Hin|now right].
Qed.

Lemma advanceTimers_step_wf currentTime s s' :
  advanceTimers_step currentTime s = Some s' ->
  taskIdCounter s' = taskIdCounter s /\
  (List.length (timerQueue s') < List.length (timerQueue s))%nat /\
  (wf s -> wf s').
Proof.
  unfold advanceTimers_step.
  destruct (peek (tasks s) (timerQueue s)) as [timer|] eqn:Hp; [|discriminate].
  assert (Hin : In timer (timerQueue s)) by now apply peek_In in Hp.
  assert (Hlen : (List.length (pop (tasks s) (timerQueue s)) < List.length (timerQueue s))%nat).
  { unfold pop. rewrite Hp.
    pose proof (Permutation_length (remove_first_Permutation timer _ Hin)) as Hl.
    cbn in Hl. lia. }
  assert (Hpopwf : wf s ->
            NoDup (taskQueue s ++ pop (tasks s) (timerQueue s)) /\
            NoDup ((taskQueue s ++ [timer]) ++ pop (tasks s) (timerQueue s))).
  { intros [Hnd _]. unfold pop. rewrite Hp. split;
      [now apply NoDup_remove_first_r|now apply NoDup_move]. }
  destruct (callback (tasks s timer)).
  - destruct (startTime (tasks s timer) <=? currentTime); [|discriminate].
    intros [= <-]. cbn. split; [reflexivity|split; [exact Hlen|]].
    intros Hwf. destruct (Hpopwf Hwf) as [_ Hnd]. destruct Hwf as [_ Hb].
    split; cbn; [exact Hnd|].
    intros h Hh. apply Hb. apply in_app_or in Hh as [Hh|Hh]; apply in_or_app.
    + apply in_app_or in Hh as [Hh|[<-|[]]]; [now left|now right].
    + right. eapply pop_In, Hh.
  - intros [= <-]. cbn. split; [reflexivity|split; [exact Hlen|]].
    intros Hwf. destruct (Hpopwf Hwf) as [Hnd _]. destruct Hwf as [_ Hb].
    split; cbn; [exact Hnd|].
    intros h Hh. apply Hb. apply in_app_or in Hh as [Hh|Hh]; apply in_or_app;
      [now left|right; eapply pop_In, Hh].
Qed.

Lemma advanceTimers_loop_wf turns currentTime s :
  taskIdCounter (advanceTimers_loop turns currentTime s) = taskIdCounter s /\
  (wf s -> wf (advanceTimers_loop turns currentTime s)).
Proof.
  revert s. induction turns as [|n IH]; intros s; cbn; [auto|].
  destruct (advanceTimers_step currentTime s) as [s1|] eqn:Hstep; [|auto].
  destruct (advanceTimers_step_wf _ _ _ Hstep) as (Hc & _ & Hwf).
  destruct (IH s1) as [Hc1 Hwf1]. split; [congruence|auto].
Qed.

Lemma advanceTimers_wf currentTime s :
  taskIdCounter (advanceTimers currentTime s) = taskIdCounter s /\
  (wf s -> wf (advanceTimers currentTime s)).
Proof. apply advanceTimers_loop_wf. Qed.

(** *** Cancelled and throwing tasks *)

(** Between [s] and [s'] the task has kept a null callback and has not been
    invoked. *)
Definition quiet_for (task : nat) (s s' : State) : Prop :=
  callback (tasks s' task) = None /\
  forall b, In (task, b) (invocations s') -> In (task, b) (invocations s).

Lemma quiet_for_trans task s1 s2 s3 :
  quiet_for task s1 s2 -> quiet_for task s2 s3 -> quiet_for task s1 s3.
Proof. intros [H1 H2] [H3 H4]. split; [exact H3|auto]. Qed.

(** The state in which a run ended with an exception: the callback of a task
    threw; that task is still in the task queue, with a null callback. *)
Definition thrownBy (s' : State) : Prop :=
  exists task flag before,
    invocations s' = before ++ [(task, flag)] /\
    callback (tasks s' task) = None /\
    In task (taskQueue s').

Lemma workLoop_turn_inv hasTimeRemaining currentTime cur s :
  wf s -> In cur (taskQueue s) ->
  let r := workLoop_turn hasTimeRemaining currentTime cur s in
  wf (snd r) /\
  (taskIdCounter s <= taskIdCounter (snd r))%nat /\
  (forall task, (task < taskIdCounter s)%nat -> callback (tasks s task) = None ->
     quiet_for task s (snd r)) /\
  (forall t' c, fst r = Next t' -> currentTask (snd r) = Some c ->
     In c (taskQueue (snd r))) /\
  (forall e, fst r = Raise e -> thrownBy (snd r)).
Proof.
  intros Hwf Hin. cbv zeta. unfold workLoop_turn.
  destruct ((currentTime <? expirationTime (tasks s cur))
            && (negb hasTimeRemaining || shouldYieldToHost s)).
  { cbn [fst snd]. split; [exact Hwf|split; [lia|split; [|split]]].
    - intros task _ Hnull. split; auto.
    - discriminate.
    - discriminate. }
  assert (Hcur : (cur < taskIdCounter s)%nat).
  { apply Hwf. apply in_or_app. now left. }
  destruct (callback (tasks s cur)) as [cb|] eqn:Hcb.
  - rewrite invokeCallback_spec.
    set (didTimeout := expirationTime (tasks s cur) <=? currentTime).
    destruct (body_of cb didTimeout) as [actions completion]. cbn [fst snd].
    set (s0 := beforeCallback cur currentTime s).
    set (mid := runActions actions s0).
    assert (Hext : extends s0 mid) by apply runActions_extends.
    assert (Hwf0 : wf s0) by exact Hwf.
    assert (Hwfm : wf mid) by (apply (ext_wf _ _ Hext); exact Hwf0).
    assert (Hcnt : (taskIdCounter s <= taskIdCounter mid)%nat)
      by exact (ext_counter _ _ Hext).
    assert (Hinv : invocations mid = invocations s ++ [(cur, didTimeout)])
      by (rewrite (ext_invocations _ _ Hext); reflexivity).
    assert (Hmid : In cur (taskQueue mid)) by (apply (ext_taskQueue _ _ Hext); exact Hin).
    assert (Hnullcur : callback (tasks mid cur) = None).
    { apply (ext_callback_null _ _ Hext); [exact Hcur|].
      unfold s0, beforeCallback. cbn. now rewrite upd_same. }
    assert (Hquiet : forall task, (task < taskIdCounter s)%nat ->
                       callback (tasks s task) = None ->
                       task <> cur /\ quiet_for task s mid).
    { intros task Hlt Hnull.
      assert (Hne : task <> cur) by (intros ->; congruence).
      split; [exact Hne|]. split.
      - apply (ext_callback_null _ _ Hext); [exact Hlt|].
        unfold s0, beforeCallback. cbn. now rewrite upd_other.
      - intros b Hb. rewrite Hinv in Hb. apply in_app_or in Hb as [Hb|[Hb|[]]]; [exact Hb|].
        congruence. }
    destruct completion as [k| |e]; cbn [fst snd].
    + set (s1 := modify_task cur (set_callback (Some k)) mid).
      destruct (advanceTimers_spec (getCurrentTime mid) s1) as (_ & _ & Hc & Hi).
      destruct (advanceTimers_wf (getCurrentTime mid) s1) as (Hn & Hw).
      cbv zeta in Hc, Hi.
      split; [exact (Hw Hwfm)|].
      split; [cbn [taskIdCounter set_currentTask]; rewrite Hn; exact Hcnt|].
      split; [|split; [|discriminate]].
      * intros task Hlt Hnull. destruct (Hquiet task Hlt Hnull) as (Hne & Hq1 & Hq2).
        split; cbn [tasks invocations set_currentTask].
        -- rewrite Hc. unfold s1. cbn. now rewrite upd_other.
        -- rewrite Hi. exact Hq2.
      * intros t' c _ Hc'. cbn [currentTask taskQueue set_currentTask] in Hc' |- *.
        now apply peek_In in Hc'.
    + set (s1 := if same_task (Some cur) (peek (tasks mid) (taskQueue mid))
                 then set_taskQueue (pop (tasks mid) (taskQueue mid)) mid else mid).
      assert (Hwf1 : wf s1).
      { unfold s1. destruct (same_task _ _); [now apply wf_pop_taskQueue|exact Hwfm]. }
      assert (Ht1 : tasks s1 = tasks mid /\ invocations s1 = invocations mid /\
                    taskIdCounter s1 = taskIdCounter mid /\
                    getCurrentTime s1 = getCurrentTime mid).
      { unfold s1. now destruct (same_task _ _). }
      destruct Ht1 as (Ht1 & Hi1 & Hn1 & Hg1).
      change (advanceTimers (getCurrentTime mid) s1) with
        (advanceTimers (getCurrentTime mid) s1).
      destruct (advanceTimers_spec (getCurrentTime mid) s1) as (_ & _ & Hc & Hi).
      destruct (advanceTimers_wf (getCurrentTime mid) s1) as (Hn & Hw).
      cbv zeta in Hc, Hi.
      split; [exact (Hw Hwf1)|].
      split; [cbn [taskIdCounter set_currentTask]; rewrite Hn, Hn1; exact Hcnt|].
      split; [|split; [|discriminate]].
      * intros task Hlt Hnull. destruct (Hquiet task Hlt Hnull) as (Hne & Hq1 & Hq2).
        split; cbn [tasks invocations set_currentTask].
        -- rewrite Hc, Ht1. exact Hq1.
        -- rewrite Hi, Hi1. exact Hq2.
      * intros t' c _ Hc'. cbn [currentTask taskQueue set_currentTask] in Hc' |- *.
        now apply peek_In in Hc'.
    + split; [exact Hwfm|]. split; [exact Hcnt|]. split; [|split; [discriminate|]].
      * intros task Hlt Hnull. now destruct (Hquiet task Hlt Hnull).
      * intros e' _. exists cur, didTimeout, (invocations s). auto.
  - cbn [fst snd]. split; [now apply wf_pop_taskQueue|]. split; [cbn; lia|].
    split; [|split; [|discriminate]].
    + intros task _ Hnull. split; [exact Hnull|auto].
    + intros t' c _ Hc'. cbn [currentTask taskQueue set_currentTask] in Hc' |- *.
      now apply peek_In in Hc'.
Qed.

Lemma workLoop_loop_inv fuel hasTimeRemaining :
  forall currentTime s,
    wf s -> (forall c, currentTask s = Some c -> In c (taskQueue s)) ->
    let r := workLoop_loop fuel hasTimeRemaining currentTime s in
    wf (snd r) /\
    (taskIdCounter s <= taskIdCounter (snd r))%nat /\
    (forall task, (task < taskIdCounter s)%nat -> callback (tasks s task) = None ->
       quiet_for task s (snd r)) /\
    (forall e, fst r = Exception e -> thrownBy (snd r)).
Proof.
  induction fuel as [|fuel IH]; intros currentTime s Hwf Hcur; cbv zeta;
    cbn [workLoop_loop].
  - cbn. split; [exact Hwf|split; [lia|split; [|discriminate]]].
    intros task _ Hnull. split; auto.
  - destruct (currentTask s) as [cur|] eqn:Hc.
    2:{ cbn. split; [exact Hwf|split; [lia|split; [|discriminate]]].
        intros task _ Hnull. split; auto. }
    destruct (negb (enableSchedulerDebugging flags && isSchedulerPaused s)).
    2:{ cbn. split; [exact Hwf|split; [lia|split; [|discriminate]]].
        intros task _ Hnull. split; auto. }
    destruct (workLoop_turn_inv hasTimeRemaining currentTime cur s Hwf (Hcur cur eq_refl))
      as (Hwf1 & Hn1 & Hq1 & Hc1 & He1).
    destruct (workLoop_turn hasTimeRemaining currentTime cur s) as [[|t'|e] s1];
      cbn [fst snd] in *.
    + split; [exact Hwf1|split; [exact Hn1|split; [exact Hq1|discriminate]]].
    + destruct (IH t' s1 Hwf1 (fun c => Hc1 t' c eq_refl)) as (Hwf2 & Hn2 & Hq2 & He2).
      split; [exact Hwf2|split; [lia|split; [|exact He2]]].
      intros task Hlt Hnull. destruct (Hq1 task Hlt Hnull) as [Hnull1 Hinv1].
      eapply quiet_for_trans; [split; [exact Hnull1|exact Hinv1]|].
      apply Hq2; [lia|exact Hnull1].
    + split; [exact Hwf1|split; [exact Hn1|split; [exact Hq1|]]].
      intros e' _. now apply (He1 e).
Qed.

Lemma flushWork_inv fuel hasTimeRemaining initialTime s :
  wf s ->
  let r := flushWork fuel hasTimeRemaining initialTime s in
  wf (snd r) /\
  (forall task, (task < taskIdCounter s)%nat -> callback (tasks s task) = None ->
     quiet_for task s (snd r)) /\
  (forall e, fst r = Exception e -> thrownBy (snd r)) /\
  currentTask (snd r) = None /\
  isPerformingWork (snd r) = false /\
  currentPriorityLevel (snd r) = currentPriorityLevel s.
Proof.
  intros Hwf. cbv zeta. unfold flushWork.
  set (s0 := set_isPerformingWork true
               (if isHostTimeoutScheduled (set_isHostCallbackScheduled false s)
                then cancelHostTimeout
                       (set_isHostTimeoutScheduled false (set_isHostCallbackScheduled false s))
                else set_isHostCallbackScheduled false s)).
  assert (H0 : tasks s0 = tasks s /\ taskQueue s0 = taskQueue s /\
               timerQueue s0 = timerQueue s /\ taskIdCounter s0 = taskIdCounter s /\
               invocations s0 = invocations s /\
               currentPriorityLevel s0 = currentPriorityLevel s).
  { unfold s0. cbn. now destruct (isHostTimeoutScheduled s). }
  destruct H0 as (Ht0 & Hq0 & Hm0 & Hn0 & Hi0 & Hp0).
  assert (Hwf0 : wf s0) by (unfold wf; rewrite Hq0, Hm0, Hn0; exact Hwf).
  change (currentPriorityLevel
            (if isHostTimeoutScheduled (set_isHostCallbackScheduled false s)
             then cancelHostTimeout
                    (set_isHostTimeoutScheduled false (set_isHostCallbackScheduled false s))
             else set_isHostCallbackScheduled false s))
    with (currentPriorityLevel s0).
  unfold workLoop.
  set (s1 := set_currentTask
               (peek (tasks (advanceTimers initialTime s0))
                  (taskQueue (advanceTimers initialTime s0)))
               (advanceTimers initialTime s0)).
  destruct (advanceTimers_spec initialTime s0) as (_ & _ & Hc & Hi).
  destruct (advanceTimers_wf initialTime s0) as (Hn & Hw). cbv zeta in Hc, Hi.
  assert (Hwf1 : wf s1) by exact (Hw Hwf0).
  assert (Hcur1 : forall c, currentTask s1 = Some c -> In c (taskQueue s1)).
  { intros c Hc'. unfold s1 in *. cbn [currentTask taskQueue set_currentTask] in *.
    now apply peek_In in Hc'. }
  destruct (workLoop_loop_inv fuel hasTimeRemaining initialTime s1 Hwf1 Hcur1)
    as (Hwf2 & Hn2 & Hq2 & He2).
  assert (Hquiet : forall task, (task < taskIdCounter s)%nat ->
                     callback (tasks s task) = None ->
                     quiet_for task s (snd (workLoop_loop fuel hasTimeRemaining initialTime s1))).
  { intros task Hlt Hnull.
    destruct (Hq2 task) as [Ha Hb].
    - unfold s1. cbn [taskIdCounter set_currentTask]. rewrite Hn, Hn0. exact Hlt.
    - unfold s1. cbn [tasks set_currentTask]. rewrite Hc, Ht0. exact Hnull.
    - split; [exact Ha|]. intros b Hin. apply Hb in Hin.
      unfold s1 in Hin. cbn [invocations set_currentTask] in Hin.
      now rewrite Hi, Hi0 in Hin. }
  destruct (workLoop_loop fuel hasTimeRemaining initialTime s1) as [[t| e|] s2];
    cbn [fst snd] in *.
  - assert (Hfin : forall s3, tasks s3 = tasks s2 -> taskQueue s3 = taskQueue s2 ->
                     timerQueue s3 = timerQueue s2 -> taskIdCounter s3 = taskIdCounter s2 ->
                     invocations s3 = invocations s2 ->
                     wf s3 /\
                     (forall task, (task < taskIdCounter s)%nat ->
                        callback (tasks s task) = None -> quiet_for task s s3)).
    { intros s3 E1 E2 E3 E4 E5. split.
      - unfold wf. rewrite E2, E3, E4. exact Hwf2.
      - intros task Hlt Hnull. destruct (Hquiet task Hlt Hnull) as [Ha Hb].
        split; [now rewrite E1|now rewrite E5]. }
    destruct (currentTask s2).
    + cbn [fst snd]. destruct (Hfin s2) as [Ha Hb]; try reflexivity.
      split; [exact Ha|split; [exact Hb|split; [discriminate|auto]]].
    + destruct (peek (tasks s2) (timerQueue s2)) as [firstTimer|]; cbn [fst snd].
      * destruct (Hfin (requestHostTimeout
                          (startTime (tasks s2 firstTimer) - t) s2)) as [Ha Hb];
          try reflexivity.
        split; [exact Ha|split; [exact Hb|split; [discriminate|auto]]].
      * destruct (Hfin s2) as [Ha Hb]; try reflexivity.
        split; [exact Ha|split; [exact Hb|split; [discriminate|auto]]].
  - split; [exact Hwf2|split; [exact Hquiet|split; [|auto]]].
    intros e' _. exact (He2 e eq_refl).
  - split; [exact Hwf2|split; [exact Hquiet|split; [discriminate|auto]]].
Qed.

(** X4.  A task that has been cancelled is not invoked by any later run of
    [flushWork], and its callback stays null. *)
Theorem cancelled_task_is_never_invoked :
  forall (fuel : nat) (hasTimeRemaining : bool) (initialTime : Z) (task : nat) (s : State),
    wf s ->
    (task < taskIdCounter s)%nat ->
    let s' := snd (flushWork fuel hasTimeRemaining initialTime
                     (unstable_cancelCallback task s)) in
    callback (tasks s' task) = None /\
    forall flag, In (task, flag) (invocations s') -> In (task, flag) (invocations s).
Proof.
  intros fuel hasTimeRemaining initialTime task s Hwf Hlt.
  destruct (flushWork_inv fuel hasTimeRemaining initialTime (unstable_cancelCallback task s))
    as (_ & Hq & _); [exact Hwf|].
  apply (Hq task); [exact Hlt|].
  unfold unstable_cancelCallback. cbn. now rewrite upd_same.
Qed.

(** X5.  When the callback of a task throws, [performWorkUntilDeadline] lets the
    exception through after it has posted itself again; the scheduler is left
    idle, at the priority it had; the task is still in the queue, with a
    null callback, and no later run invokes it again. *)
Theorem throwing_task_is_not_retried :
  forall (fuel : nat) (s s' : State) (e : string),
    wf s ->
    performWorkUntilDeadline fuel s = (Exception e, s') ->
    (exists task flag before,
       invocations s' = before ++ [(task, flag)] /\
       callback (tasks s' task) = None /\
       In task (taskQueue s') /\
       forall fuel' hasTimeRemaining initialTime flag',
         In (task, flag')
           (invocations (snd (flushWork fuel' hasTimeRemaining initialTime s'))) ->
         In (task, flag') (invocations s')) /\
    currentTask s' = None /\
    isPerformingWork s' = false /\
    currentPriorityLevel s' = currentPriorityLevel s /\
    (0 < postedMessages s')%nat.
Proof.
  intros fuel s s' e Hwf. unfold performWorkUntilDeadline.
  destruct (scheduledHostCallback s) as [[]|]; [|discriminate].
  set (s0 := set_sliceStartTime (getCurrentTime s) s).
  assert (Hwf0 : wf s0) by exact Hwf.
  destruct (flushWork_inv fuel true (getCurrentTime s) s0 Hwf0)
    as (Hwf1 & _ & Hthrown & Hcur & Hperf & Hprio).
  destruct (flushWork fuel true (getCurrentTime s) s0) as [[hasMoreWork|e'|] sf];
    cbn [fst snd] in *; try discriminate.
  intros [= -> <-].
  destruct (Hthrown e eq_refl) as (task & flag & before & Hinv & Hnull & Hin).
  split; [|cbn; auto with arith].
  exists task, flag, before. cbn [invocations tasks taskQueue schedulePerformWorkUntilDeadline
                                   set_postedMessages].
  split; [exact Hinv|split; [exact Hnull|split; [exact Hin|]]].
  intros fuel' hasTimeRemaining initialTime flag'.
  assert (Hwf' : wf (schedulePerformWorkUntilDeadline sf)) by exact Hwf1.
  destruct (flushWork_inv fuel' hasTimeRemaining initialTime
              (schedulePerformWorkUntilDeadline sf) Hwf') as (_ & Hq & _).
  destruct (Hq task) as [_ Hno].
  - apply Hwf1. apply in_or_app. now left.
  - exact Hnull.
  - intros Hi. apply Hno in Hi. exact Hi.
Qed.

(** *** Timers *)

Lemma peek_None m q : peek m q = None <-> q = [].
Proof.
  destruct q as [|x q]; cbn; [easy|]. split; [|discriminate].
  destruct (peek m q); [destruct (compare m x n <? 0)|]; discriminate.
Qed.

(** What [advanceTimers] does to a task object: nothing, or the sort index
    becomes the expiration time. *)
Definition promoted (t : Task) : Task := set_sortIndex (expirationTime t) t.

Lemma advanceTimers_step_tasks currentTime s s' :
  advanceTimers_step currentTime s = Some s' ->
  exists timer,
    peek (tasks s) (timerQueue s) = Some timer /\
    ((taskQueue s' = taskQueue s /\ (forall h, tasks s' h = tasks s h)) \/
     (taskQueue s' = taskQueue s ++ [timer] /\
      startTime (tasks s timer) <= currentTime /\
      callback (tasks s timer) <> None /\
      tasks s' timer = promoted (tasks s timer) /\
      (forall h, h <> timer -> tasks s' h = tasks s h))).
Proof.
  unfold advanceTimers_step. intros H.
  destruct (peek (tasks s) (timerQueue s)) as [timer|] eqn:Hp; [|discriminate].
  exists timer. split; [reflexivity|].
  destruct (callback (tasks s timer)) eqn:Hcb.
  - destruct (startTime (tasks s timer) <=? currentTime) eqn:Hst; [|discriminate].
    injection H as <-. right. cbn. apply Z.leb_le in Hst.
    split; [reflexivity|split; [exact Hst|split; [discriminate|split]]].
    + now rewrite upd_same.
    + intros h Hne. now rewrite upd_other.
  - injection H as <-. left. cbn. auto.
Qed.

Lemma promoted_promoted t : promoted (promoted t) = promoted t.
Proof. reflexivity. Qed.

Lemma advanceTimers_loop_promotes currentTime turns :
  forall s,
    (List.length (timerQueue s) <= turns)%nat ->
    let s' := advanceTimers_loop turns currentTime s in
    (exists added,
       taskQueue s' = taskQueue s ++ added /\
       forall h, In h added ->
         In h (timerQueue s) /\
         startTime (tasks s h) <= currentTime /\
         callback (tasks s h) <> None /\
         tasks s' h = promoted (tasks s h)) /\
    (forall h, tasks s' h = tasks s h \/ tasks s' h = promoted (tasks s h)) /\
    (forall h, peek (tasks s') (timerQueue s') = Some h ->
       currentTime < startTime (tasks s' h) /\ callback (tasks s' h) <> None).
Proof.
  induction turns as [|n IH]; intros s Hlen; cbv zeta; cbn [advanceTimers_loop].
  - split; [exists []; split; [now rewrite app_nil_r|easy]|]. split; [auto|].
    intros h Hp. apply peek_In in Hp.
    destruct (timerQueue s); [destruct Hp|cbn in Hlen; lia].
  - destruct (advanceTimers_step currentTime s) as [s1|] eqn:Hstep.
    + destruct (advanceTimers_step_wf _ _ _ Hstep) as (_ & Hshorter & _).
      destruct (advanceTimers_step_spec _ _ _ Hstep) as (timer0 & Hp0 & Hpop & _).
      destruct (advanceTimers_step_tasks _ _ _ Hstep) as (timer & Hp & Hcase).
      assert (Hsub : forall h, In h (timerQueue s1) -> In h (timerQueue s)).
      { intros h Hh. rewrite Hpop in Hh. now apply pop_In in Hh. }
      destruct (IH s1) as ((added & Hq & Hadded) & Htasks & Htop); [lia|].
      cbv zeta in *.
      assert (Hstable : forall h, startTime (tasks s1 h) = startTime (tasks s h) /\
                                  callback (tasks s1 h) = callback (tasks s h) /\
                                  promoted (tasks s1 h) = promoted (tasks s h) /\
                                  (tasks s1 h = tasks s h \/
                                   tasks s1 h = promoted (tasks s h))).
      { intros h. destruct Hcase as [[_ Hsame]|(_ & _ & _ & Ht & Hother)].
        - rewrite Hsame. auto.
        - destruct (Nat.eq_dec h timer) as [->|Hne].
          + rewrite Ht. auto.
          + rewrite Hother by exact Hne. auto. }
      split; [|split; [|exact Htop]].
      * destruct Hcase as [[Hsameq _]|(Hnewq & Hst & Hcb & Ht & _)].
        -- exists added. rewrite Hq, Hsameq. split; [reflexivity|].
           intros h Hh. destruct (Hadded h Hh) as (Hin & Hs & Hc & Hpr).
           destruct (Hstable h) as (Es & Ec & Ep & _).
           rewrite Es, Ec in *. rewrite Ep in Hpr. auto.
        -- exists (timer :: added). rewrite Hq, Hnewq, <- app_assoc. split; [reflexivity|].
           intros h [<-|Hh].
           ++ split; [now apply peek_In in Hp|]. split; [exact Hst|split; [exact Hcb|]].
              destruct (Htasks timer) as [E|E]; rewrite E, Ht; reflexivity.
           ++ destruct (Hadded h Hh) as (Hin & Hs & Hc & Hpr).
              destruct (Hstable h) as (Es & Ec & Ep & _).
              rewrite Es, Ec in *. rewrite Ep in Hpr. auto.
      * intros h. destruct (Hstable h) as (_ & _ & Ep & [E|E]);
          destruct (Htasks h) as [E'|E']; rewrite E'; rewrite ?Ep, ?E; auto.
    + split; [exists []; split; [now rewrite app_nil_r|easy]|]. split; [auto|].
      intros h Hp. unfold advanceTimers_step in Hstep. rewrite Hp in Hstep.
      destruct (callback (tasks s h)); [|discriminate]. split; [|discriminate].
      destruct (startTime (tasks s h) <=? currentTime) eqn:Hst; [discriminate|].
      now apply Z.leb_gt in Hst.
Qed.


Lemma advanceTimers_loop_host turns currentTime s :
  isHostCallbackScheduled (advanceTimers_loop turns currentTime s)
  = isHostCallbackScheduled s /\
  isHostTimeoutScheduled (advanceTimers_loop turns currentTime s)
  = isHostTimeoutScheduled s /\
  hostTimeouts (advanceTimers_loop turns currentTime s) = hostTimeouts s.
Proof.
  revert s. induction turns as [|n IH]; intros s; cbn; [auto|].
  destruct (advanceTimers_step currentTime s) as [s1|] eqn:Hstep; [|auto].
  destruct (IH s1) as (H1 & H2 & H3). rewrite H1, H2, H3.
  unfold advanceTimers_step in Hstep.
  destruct (peek (tasks s) (timerQueue s)) as [timer|]; [|discriminate].
  destruct (callback (tasks s timer)).
  - destruct (startTime (tasks s timer) <=? currentTime); [|discriminate].
    injection Hstep as <-. auto.
  - injection Hstep as <-. auto.
Qed.

Lemma advanceTimers_host_and_top currentTime s :
  (isHostCallbackScheduled (advanceTimers currentTime s) = isHostCallbackScheduled s /\
   isHostTimeoutScheduled (advanceTimers currentTime s) = isHostTimeoutScheduled s /\
   hostTimeouts (advanceTimers currentTime s) = hostTimeouts s) /\
  (forall h, peek (tasks (advanceTimers currentTime s))
               (timerQueue (advanceTimers currentTime s)) = Some h ->
     currentTime < startTime (tasks (advanceTimers currentTime s) h) /\
     callback (tasks (advanceTimers currentTime s) h) <> None).
Proof.
  split; [apply advanceTimers_loop_host|].
  destruct (advanceTimers_loop_promotes currentTime (List.length (timerQueue s)) s
              (Nat.le_refl _)) as (_ & _ & Htop).
  exact Htop.
Qed.


(** *** The frame rate *)


(** *** The paused scheduler *)

Lemma advanceTimers_loop_paused turns currentTime s :
  isSchedulerPaused (advanceTimers_loop turns currentTime s) = isSchedulerPaused s.
Proof.
  revert s. induction turns as [|n IH]; intros s; cbn; [reflexivity|].
  destruct (advanceTimers_step currentTime s) as [s1|] eqn:Hstep; [|reflexivity].
  rewrite IH. unfold advanceTimers_step in Hstep.
  destruct (peek (tasks s) (timerQueue s)) as [timer|]; [|discriminate].
  destruct (callback (tasks s timer)).
  - destruct (startTime (tasks s timer) <=? currentTime); [|discriminate].
    now injection Hstep as <-.
  - now injection Hstep as <-.
Qed.


(** *** Priority levels around user code *)

(** The level [unstable_runWithPriority] runs the handler at. *)
Definition levelOf (priorityLevel : PriorityLevel) : PriorityLevel :=
  match priorityLevel with
  | OtherPriority _ => NormalPriority
  | _ => priorityLevel
  end.

(** X10.  A callback wrapped by [unstable_wrapCallback] inside
    [unstable_runWithPriority(priorityLevel, ...)] runs, whenever and wherever
    it is called later, at that priority level (at [NormalPriority] when the
    level is not one of the five), whatever the level is then; its result or
    exception is passed on, and the level of the caller is back in force
    after the call, whatever the callback did and also when it threw.
    [unstable_runWithPriority] itself leaves the level as it found it. *)
Theorem wrapped_callback_keeps_its_priority :
  forall (A : Type) (priorityLevel : PriorityLevel) (callback : Handler A) (s : State),
    let r := unstable_runWithPriority priorityLevel
               (fun s1 => (Normal (unstable_wrapCallback callback s1), s1)) s in
    unstable_getCurrentPriorityLevel (snd r) = unstable_getCurrentPriorityLevel s /\
    exists wrapped,
      fst r = Normal wrapped /\
      forall later : State,
        let entered := set_currentPriorityLevel (levelOf priorityLevel) later in
        unstable_getCurrentPriorityLevel entered = levelOf priorityLevel /\
        fst (wrapped later) = fst (callback entered) /\
        snd (wrapped later)
        = set_currentPriorityLevel (unstable_getCurrentPriorityLevel later)
            (snd (callback entered)).
Proof.
  intros A priorityLevel callback s. cbv zeta. unfold unstable_runWithPriority.
  cbn [fst snd]. split; [reflexivity|].
  eexists. split; [reflexivity|].
  intros later. split; [reflexivity|].
  unfold unstable_wrapCallback, unstable_getCurrentPriorityLevel.
  cbn [currentPriorityLevel set_currentPriorityLevel].
  replace (match priorityLevel with
           | ImmediatePriority | UserBlockingPriority | NormalPriority | LowPriority
           | IdlePriority => priorityLevel
           | OtherPriority _ => NormalPriority
           end) with (levelOf priorityLevel) by now destruct priorityLevel.
  destruct (callback (set_currentPriorityLevel (levelOf priorityLevel) later)) as [res st].
  split; reflexivity.
Qed.

(** *** The queues *)

Lemma wf_same_queues s s' :
  taskQueue s' = taskQueue s -> timerQueue s' = timerQueue s ->
  taskIdCounter s' = taskIdCounter s -> wf s -> wf s'.
Proof. intros E1 E2 E3. unfold wf. now rewrite E1, E2, E3. Qed.

Lemma wf_requestHostCallback cb s : wf s -> wf (requestHostCallback cb s).
Proof.
  apply wf_same_queues; unfold requestHostCallback; cbn;
    destruct (isMessageLoopRunning s); reflexivity.
Qed.

(** X11.  A task is queued once.  From a state in which no handle is twice in the
    task queue and the timer queue taken together, and every queued handle
    has been given out by the counter, scheduling, cancelling, advancing the
    timers, a timeout of the host, a flush and a message of the host lead to
    such a state again, whatever the callbacks do; the initial state is one. *)
Theorem each_task_is_queued_once :
  forall (s : State),
    wf s ->
    wf (initialState flags) /\
    (forall priorityLevel cb options,
       wf (snd (unstable_scheduleCallback priorityLevel cb options s))) /\
    (forall task, wf (unstable_cancelCallback task s)) /\
    (forall currentTime, wf (advanceTimers currentTime s)) /\
    (forall currentTime, wf (handleTimeout currentTime s)) /\
    (forall fuel hasTimeRemaining initialTime,
       wf (snd (flushWork fuel hasTimeRemaining initialTime s))) /\
    (forall fuel, wf (snd (performWorkUntilDeadline fuel s))).
Proof.
  intros s Hwf.
  assert (Hflush : forall fuel hasTimeRemaining initialTime s0,
             wf s0 -> wf (snd (flushWork fuel hasTimeRemaining initialTime s0))).
  { intros fuel h t s0 H0. exact (proj1 (flushWork_inv fuel h t s0 H0)). }
  split; [|split; [|split; [|split; [|split; [|split]]]]].
  - split; [constructor|intros h []].
  - intros p cb o. exact (ext_wf _ _ (scheduleCallback_extends p cb o s) Hwf).
  - intros task. revert Hwf. now apply wf_same_queues.
  - intros t. now apply advanceTimers_wf.
  - intros t. unfold handleTimeout.
    assert (H1 : wf (advanceTimers t (set_isHostTimeoutScheduled false s))).
    { apply advanceTimers_wf. revert Hwf. now apply wf_same_queues. }
    set (s1 := advanceTimers t (set_isHostTimeoutScheduled false s)) in *.
    destruct (negb (isHostCallbackScheduled s1)); [|exact H1].
    destruct (peek (tasks s1) (taskQueue s1)).
    + apply wf_requestHostCallback. revert H1. now apply wf_same_queues.
    + destruct (peek (tasks s1) (timerQueue s1)); [|exact H1].
      revert H1. now apply wf_same_queues.
  - intros fuel h t. now apply Hflush.
  - intros fuel. unfold performWorkUntilDeadline.
    destruct (scheduledHostCallback s) as [[]|].
    + assert (H1 : wf (set_sliceStartTime (getCurrentTime s) s))
        by (revert Hwf; now apply wf_same_queues).
      specialize (Hflush fuel true (getCurrentTime s) _ H1).
      destruct (flushWork fuel true (getCurrentTime s)
                  (set_sliceStartTime (getCurrentTime s) s)) as [[[]| |] s2];
        cbn [fst snd] in *; try exact Hflush;
        revert Hflush; now apply wf_same_queues.
    + cbn. revert Hwf. now apply wf_same_queues.
Qed.

End WithFlags.

(** *** Concrete runs *)

(** A callback that finishes at once. *)
Definition finishNow : Callback := Fn (fun _ => ([], ReturnsOther)).

(** A callback that schedules an immediate-priority task and finishes. *)
Definition spawner : Callback :=
  Fn (fun _ => ([DoScheduleCallback ImmediatePriority (Some finishNow) NoOptions],
                ReturnsOther)).

(** A callback that works for 3ms and asks to be continued until it has
    timed out. *)
Definition chunked : Callback :=
  Fn (fun didTimeout =>
        ([DoElapse 3], if didTimeout then ReturnsOther else ReturnsFunction finishNow)).

Definition fresh : State := initialState defaultFlags.

Definition withSpawner : State :=
  snd (unstable_scheduleCallback NormalPriority (Some spawner) NoOptions fresh).

Definition withChunked : State :=
  snd (unstable_scheduleCallback NormalPriority (Some chunked) NoOptions fresh).

Example schedule_normal_now :
  let r := unstable_scheduleCallback NormalPriority (Some finishNow) NoOptions fresh in
  fst r = 1%nat /\ taskQueue (snd r) = [1%nat] /\ timerQueue (snd r) = [] /\
  expirationTime (tasks (snd r) 1%nat) = 5000 /\ sortIndex (tasks (snd r) 1%nat) = 5000.
Proof. repeat split. Qed.

Example schedule_idle_delayed :
  let r := unstable_scheduleCallback IdlePriority (Some finishNow)
             (OptionsObject (Some 40)) fresh in
  taskQueue (snd r) = [] /\ timerQueue (snd r) = [1%nat] /\
  startTime (tasks (snd r) 1%nat) = 40 /\
  expirationTime (tasks (snd r) 1%nat) = 1073741863 /\
  sortIndex (tasks (snd r) 1%nat) = 40 /\
  hostTimeouts (snd r) = [(0, 40)].
Proof. repeat split. Qed.

(** The whole loop on [withSpawner]: the spawner runs, then the task it
    scheduled, and both are gone from the queue in the end. *)
Example workLoop_spawner_run :
  let r := performWorkUntilDeadline defaultFlags false 5 withSpawner in
  taskQueue (snd r) = [] /\ invocations (snd r) = [(1%nat, false); (2%nat, true)].
Proof. repeat split. Qed.

Lemma scheduleCallback_start_expiration_queue_witness :
  let r := unstable_scheduleCallback UserBlockingPriority (Some finishNow)
             (OptionsObject (Some 100)) fresh in
  startTime (tasks (snd r) (fst r)) = 100 /\
  expirationTime (tasks (snd r) (fst r)) = 350 /\
  sortIndex (tasks (snd r) (fst r)) = 100 /\
  timerQueue (snd r) = [fst r].
Proof.
  cbv zeta.
  destruct (scheduleCallback_start_expiration_queue UserBlockingPriority (Some finishNow)
              (OptionsObject (Some 100)) fresh) as (Hs & _ & He & Ht & _).
  specialize (Hs 100 eq_refl eq_refl).
  rewrite Hs in He, Ht.
  destruct (Ht eq_refl) as (Hi & Hq & _).
  repeat split; assumption.
Defined.

Definition inputAware : FeatureFlags :=
  {| enableSchedulerDebugging := false;
     enableIsInputPending := true;
     enableIsInputPendingContinuous := false;
     frameYieldMs := 5;
     continuousYieldMs := 50;
     maxYieldMs := 300 |}.

Lemma shouldYieldToHost_budget_witness :
  shouldYieldToHost inputAware true (set_clock 3 (set_sliceStartTime 0 fresh)) = false /\
  shouldYieldToHost inputAware true (set_clock 400 (set_sliceStartTime 0 fresh)) = true.
Proof.
  assert (Hord : continuousInputInterval inputAware <= maxInterval inputAware)
    by discriminate.
  pose proof (shouldYieldToHost_budget inputAware true
                (set_clock 3 (set_sliceStartTime 0 fresh)) Hord) as Hlow.
  pose proof (shouldYieldToHost_budget inputAware true
                (set_clock 400 (set_sliceStartTime 0 fresh)) Hord) as Hhigh.
  cbv zeta in Hlow, Hhigh.
  destruct Hlow as (Hlow & _). destruct Hhigh as (_ & _ & _ & Hhigh).
  split; [apply Hlow; reflexivity|apply Hhigh; discriminate].
Defined.

(** After [forceFrameRate 1] the frame interval is 1000ms; 500ms into a slice
    the elapsed time is past the maximum interval and still below the frame
    interval. *)
Definition slowFrames : State :=
  set_clock 500 (set_sliceStartTime 0 (forceFrameRate defaultFlags 1 fresh)).

(** C8 as stated fails: past 300ms of elapsed time [shouldYieldToHost] still
    returns false when the frame interval has been raised above 300ms. *)
Lemma shouldYieldToHost_ceiling_counterexample :
  ~ (forall s : State,
       300 <= getCurrentTime s - sliceStartTime s ->
       shouldYieldToHost defaultFlags false s = true).
Proof.
  intros H. specialize (H slowFrames). discriminate H. discriminate.
Qed.

Lemma wf_one_task p cb o : wf (snd (unstable_scheduleCallback p cb o fresh)).
Proof.
  apply (ext_wf _ _ (scheduleCallback_extends p cb o fresh)).
  split; [constructor|intros h []].
Qed.

Lemma workLoop_turn_callback_witness :
  let s' := snd (workLoop_turn defaultFlags false true 0 1%nat withChunked) in
  invocations s' = [(1%nat, false)] /\
  callback (tasks s' 1%nat) = Some finishNow /\ In 1%nat (taskQueue s').
Proof.
  cbv zeta.
  destruct (workLoop_turn_callback defaultFlags false true 0 1%nat chunked withChunked
              (wf_one_task _ _ _) (or_introl eq_refl) eq_refl eq_refl)
    as (Hi & _ & Hk & _).
  split; [exact Hi|exact (Hk finishNow eq_refl)].
Defined.

(** C5 as stated fails: a callback that returns a non-function after it has
    scheduled a more urgent task leaves its own task in the task queue. *)
Lemma workLoop_turn_pop_counterexample :
  ~ (forall (hasTimeRemaining : bool) (currentTime : Z) (task : nat) (cb : Callback)
            (s : State),
       wf s ->
       In task (taskQueue s) ->
       callback (tasks s task) = Some cb ->
       (currentTime <? expirationTime (tasks s task))
         && (negb hasTimeRemaining || shouldYieldToHost defaultFlags false s) = false ->
       snd (body_of cb (expirationTime (tasks s task) <=? currentTime)) = ReturnsOther ->
       ~ In task
           (taskQueue (snd (workLoop_turn defaultFlags false hasTimeRemaining currentTime
                              task s)))).
Proof.
  intros H.
  apply (H true 0 1%nat spawner withSpawner (wf_one_task _ _ _) (or_introl eq_refl)
           eq_refl eq_refl eq_refl).
  left. reflexivity.
Qed.

(** *** Concrete runs: cancelled, throwing and paused *)

(** A callback that throws. *)
Definition thrower : Callback := Fn (fun _ => ([], Throws "boom"%string)).

Definition withThrower : State :=
  snd (unstable_scheduleCallback NormalPriority (Some thrower) NoOptions fresh).

Lemma cancelled_task_is_never_invoked_witness :
  let s' := snd (flushWork defaultFlags false 5 true 0
                   (unstable_cancelCallback 1%nat withSpawner)) in
  callback (tasks s' 1%nat) = None /\ ~ In (1%nat, false) (invocations s').
Proof.
  cbv zeta.
  destruct (cancelled_task_is_never_invoked defaultFlags false 5 true 0 1%nat withSpawner
              (wf_one_task _ _ _) (Nat.lt_succ_diag_r 1)) as (Hnull & Hnever).
  split; [exact Hnull|].
  intros Hin. exact (Hnever false Hin).
Defined.

Lemma throwing_task_is_not_retried_witness :
  let r := performWorkUntilDeadline defaultFlags false 5 withThrower in
  fst r = @Exception unit "boom"%string /\
  invocations (snd r) = [(1%nat, false)] /\
  invocations (snd (flushWork defaultFlags false 5 true 0 (snd r))) = [(1%nat, false)] /\
  (0 < postedMessages (snd r))%nat.
Proof.
  cbv zeta.
  destruct (throwing_task_is_not_retried defaultFlags false 5 withThrower
              (snd (performWorkUntilDeadline defaultFlags false 5 withThrower))
              "boom"%string (wf_one_task _ _ _) eq_refl)
    as (_ & _ & _ & _ & Hposted).
  repeat split. exact Hposted.
Defined.

Definition debugging : FeatureFlags :=
  {| enableSchedulerDebugging := true;
     enableIsInputPending := false;
     enableIsInputPendingContinuous := false;
     frameYieldMs := 5;
     continuousYieldMs := 50;
     maxYieldMs := 300 |}.


(** At 60 frames per second a slice is 16ms long. *)
Example forceFrameRate_sixty :
  frameInterval (forceFrameRate defaultFlags 60 fresh) = 16 /\
  shouldYieldToHost defaultFlags false
    (set_clock 15 (set_sliceStartTime 0 (forceFrameRate defaultFlags 60 fresh))) = false /\
  shouldYieldToHost defaultFlags false
    (set_clock 16 (set_sliceStartTime 0 (forceFrameRate defaultFlags 60 fresh))) = true.
Proof. repeat split. Qed.

Lemma each_task_is_queued_once_witness :
  wf (unstable_cancelCallback 1%nat withSpawner) /\
  wf (snd (flushWork defaultFlags false 5 true 0 withSpawner)) /\
  wf (handleTimeout 10 withSpawner).
Proof.
  destruct (each_task_is_queued_once defaultFlags false withSpawner (wf_one_task _ _ _))
    as (_ & _ & Hcancel & _ & Htimeout & Hflush & _).
  split; [apply Hcancel|]. split; [apply Hflush|apply Htimeout].
Defined.

End Scheduler.

(** ** ReactFiberWorkLoop.old.js *)

Module WorkLoop.

(** *** Data *)

(** Lanes and fiber flags are bit sets held in integers. *)
Definition Lanes : Type := Z.
Definition Lane : Type := Z.
Definition Flags : Type := Z.

Definition NoLanes : Lanes := 0.
Definition NoLane : Lane := 0.
Definition NoFlags : Flags := 0.
Definition NoTimestamp : Z := -1.

(** Modelled from the spec: ReactFiberLane.old.js is not among the sources.
    The spec (3, Lanes; 4.1) gives the operations as set algebra on the bit
    set: union, subtraction, intersection test and subset test. *)
Definition mergeLanes (a b : Lanes) : Lanes := Z.lor a b.
Definition removeLanes (set subset : Lanes) : Lanes := Z.ldiff set subset.
Definition includesSomeLane (a b : Lanes) : bool := negb (Z.land a b =? NoLanes).
Definition isSubsetOfLanes (set subset : Lanes) : bool := Z.land set subset =? subset.

(** Handles of the objects that are shared by reference. *)
Definition FiberId : Type := nat.
Definition RootId : Type := nat.
Definition TimeoutHandle : Type := nat.
Definition StoreId : Type := nat.

(** A task of the Scheduler, or the [fakeActCallbackNode] object. *)
Inductive CallbackNode : Type :=
| FakeActCallbackNode
| SchedulerTask (task : nat).

Definition CallbackNode_eqb (a b : CallbackNode) : bool :=
  match a, b with
  | FakeActCallbackNode, FakeActCallbackNode => true
  | SchedulerTask x, SchedulerTask y => Nat.eqb x y
  | _, _ => false
  end.

(** A thrown value, or any other value React does not look into. *)
Definition JsValue : Type := string.

Record CapturedValue : Type := {
  value : JsValue;
  stack : JsValue;
  digest : JsValue
}.

Definition Transitions : Type := option (list nat).

Definition ExecutionContext : Type := Z.
Definition NoContext : ExecutionContext := 0.
Definition BatchedContext : ExecutionContext := 1.
Definition RenderContext : ExecutionContext := 2.
Definition CommitContext : ExecutionContext := 4.

Inductive RootExitStatus : Type :=
| RootInProgress
| RootFatalErrored
| RootErrored
| RootSuspended
| RootSuspendedWithDelay
| RootCompleted
| RootDidNotComplete.

Definition RootExitStatus_eqb (a b : RootExitStatus) : bool :=
  match a, b with
  | RootInProgress, RootInProgress
  | RootFatalErrored, RootFatalErrored
  | RootErrored, RootErrored
  | RootSuspended, RootSuspended
  | RootSuspendedWithDelay, RootSuspendedWithDelay
  | RootCompleted, RootCompleted
  | RootDidNotComplete, RootDidNotComplete => true
  | _, _ => false
  end.

Inductive RootTag : Type := LegacyRoot | ConcurrentRoot.

Definition FALLBACK_THROTTLE_MS : Z := 500.
Definition RENDER_TIMEOUT_MS : Z := 500.
Definition NESTED_UPDATE_LIMIT : Z := 50.
Definition NESTED_PASSIVE_UPDATE_LIMIT : Z := 50.

(** One entry of [updateQueue.stores]: the store that was read and the value
    that was rendered. *)
Record StoreCheck : Type := {
  getSnapshot : StoreId;
  renderedValue : JsValue
}.

(** The fields of a fiber the work loop reads or writes.  [stores] is
    [updateQueue.stores], [None] when the update queue or its [stores] field
    is null. *)
Record Fiber : Type := mkFiber {
  alternate : option FiberId;
  return_ : option FiberId;
  child : option FiberId;
  sibling : option FiberId;
  flags : Flags;
  subtreeFlags : Flags;
  lanes : Lanes;
  childLanes : Lanes;
  deletions : option (list FiberId);
  stores : option (list StoreCheck)
}.

Definition set_return_ (v : option FiberId) (f : Fiber) : Fiber :=
  mkFiber (alternate f) v (child f) (sibling f) (flags f) (subtreeFlags f) (lanes f)
    (childLanes f) (deletions f) (stores f).
Definition set_flags (v : Flags) (f : Fiber) : Fiber :=
  mkFiber (alternate f) (return_ f) (child f) (sibling f) v (subtreeFlags f) (lanes f)
    (childLanes f) (deletions f) (stores f).
Definition set_subtreeFlags (v : Flags) (f : Fiber) : Fiber :=
  mkFiber (alternate f) (return_ f) (child f) (sibling f) (flags f) v (lanes f)
    (childLanes f) (deletions f) (stores f).
Definition set_deletions (v : option (list FiberId)) (f : Fiber) : Fiber :=
  mkFiber (alternate f) (return_ f) (child f) (sibling f) (flags f) (subtreeFlags f)
    (lanes f) (childLanes f) v (stores f).

(** The fields of a fiber root the work loop reads or writes. *)
Record FiberRoot : Type := mkFiberRoot {
  tag : RootTag;
  current : FiberId;
  finishedWork : option FiberId;
  finishedLanes : Lanes;
  callbackNode : option CallbackNode;
  callbackPriority : Lane;
  timeoutHandle : option TimeoutHandle;
  pendingLanes : Lanes;
  suspendedLanes : Lanes
}.

Definition set_current (v : FiberId) (r : FiberRoot) : FiberRoot :=
  mkFiberRoot (tag r) v (finishedWork r) (finishedLanes r) (callbackNode r)
    (callbackPriority r) (timeoutHandle r) (pendingLanes r) (suspendedLanes r).
Definition set_finishedWork (v : option FiberId) (r : FiberRoot) : FiberRoot :=
  mkFiberRoot (tag r) (current r) v (finishedLanes r) (callbackNode r)
    (callbackPriority r) (timeoutHandle r) (pendingLanes r) (suspendedLanes r).
Definition set_finishedLanes (v : Lanes) (r : FiberRoot) : FiberRoot :=
  mkFiberRoot (tag r) (current r) (finishedWork r) v (callbackNode r)
    (callbackPriority r) (timeoutHandle r) (pendingLanes r) (suspendedLanes r).
Definition set_callbackNode (v : option CallbackNode) (r : FiberRoot) : FiberRoot :=
  mkFiberRoot (tag r) (current r) (finishedWork r) (finishedLanes r) v
    (callbackPriority r) (timeoutHandle r) (pendingLanes r) (suspendedLanes r).
Definition set_callbackPriority (v : Lane) (r : FiberRoot) : FiberRoot :=
  mkFiberRoot (tag r) (current r) (finishedWork r) (finishedLanes r) (callbackNode r)
    v (timeoutHandle r) (pendingLanes r) (suspendedLanes r).
Definition set_timeoutHandle (v : option TimeoutHandle) (r : FiberRoot) : FiberRoot :=
  mkFiberRoot (tag r) (current r) (finishedWork r) (finishedLanes r) (callbackNode r)
    (callbackPriority r) v (pendingLanes r) (suspendedLanes r).

(** The callbacks of the synchronous queue ([performSyncWorkOnRoot.bind(null,
    root)] is the only one the work loop pushes), and the functions it hands
    to the Scheduler and to the host's timers. *)
Inductive SyncCallback : Type :=
| PerformSyncWorkOnRoot (root : RootId).

Inductive ScheduledFn : Type :=
| FlushPassiveEffectsFn
| FlushSyncCallbacksFn
| FlushSyncCallbacksUnlessWorkingFn
| PerformConcurrentWorkOnRootFn (root : RootId)
| CommitRootFn (root : RootId) (recoverableErrors : option (list CapturedValue))
    (transitions : Transitions).

Inductive SchedulerPriority : Type :=
| ImmediateSchedulerPriority
| UserBlockingSchedulerPriority
| NormalSchedulerPriority
| IdleSchedulerPriority.

(** The flags of [shared/ReactFeatureFlags] and of the host configuration
    that the modelled branches test ([DEV] is [__DEV__]).  Profiling, debug
    tracing and DevTools calls are left out: they write no state that the
    work loop reads back. *)
Record Config : Type := {
  DEV : bool;
  enableCreateEventHandleAPI : bool;
  disableSchedulerTimeoutInWorkLoop : bool;
  enableTransitionTracing : bool;
  enableStrictEffects : bool;
  supportsMicrotasks : bool
}.

(** The module-level variables of ReactFiberWorkLoop.old.js, of
    ReactFiberSyncTaskQueue.old.js ([syncQueue], [includesLegacySyncCallbacks],
    [isFlushingSyncQueue]), of ReactEventPriorities ([currentUpdatePriority])
    and the two fields of ReactSharedInternals the work loop assigns
    ([ReactCurrentBatchConfig.transition], [ReactCurrentOwner.current]). *)
Inductive Var : Type :=
| executionContext
| workInProgressRoot
| workInProgress
| workInProgressRootRenderLanes
| renderLanes
| workInProgressRootExitStatus
| workInProgressRootFatalError
| workInProgressRootSkippedLanes
| workInProgressRootInterleavedUpdatedLanes
| workInProgressRootRenderPhaseUpdatedLanes
| workInProgressRootPingedLanes
| workInProgressRootConcurrentErrors
| workInProgressRootRecoverableErrors
| globalMostRecentFallbackTime
| workInProgressRootRenderTargetTime
| workInProgressTransitions
| hasUncaughtError
| firstUncaughtError
| legacyErrorBoundariesThatAlreadyFailed
| rootDoesHavePassiveEffects
| rootWithPendingPassiveEffects
| pendingPassiveEffectsLanes
| pendingPassiveEffectsRemainingLanes
| pendingPassiveTransitions
| nestedUpdateCount
| rootWithNestedUpdates
| isFlushingPassiveEffects
| didScheduleUpdateDuringPassiveEffects
| nestedPassiveUpdateCount
| rootWithPassiveNestedUpdates
| currentEventTime
| currentEventTransitionLane
| syncQueue
| includesLegacySyncCallbacks
| isFlushingSyncQueue
| currentUpdatePriority
| batchConfigTransition
| currentOwner.

Definition TypeOf (x : Var) : Type :=
  match x with
  | executionContext => ExecutionContext
  | workInProgressRoot => option RootId
  | workInProgress => option FiberId
  | workInProgressRootRenderLanes => Lanes
  | renderLanes => Lanes
  | workInProgressRootExitStatus => RootExitStatus
  | workInProgressRootFatalError => option JsValue
  | workInProgressRootSkippedLanes => Lanes
  | workInProgressRootInterleavedUpdatedLanes => Lanes
  | workInProgressRootRenderPhaseUpdatedLanes => Lanes
  | workInProgressRootPingedLanes => Lanes
  | workInProgressRootConcurrentErrors => option (list CapturedValue)
  | workInProgressRootRecoverableErrors => option (list CapturedValue)
  | globalMostRecentFallbackTime => Z
  | workInProgressRootRenderTargetTime => option Z
  | workInProgressTransitions => Transitions
  | hasUncaughtError => bool
  | firstUncaughtError => option JsValue
  | legacyErrorBoundariesThatAlreadyFailed => option (list nat)
  | rootDoesHavePassiveEffects => bool
  | rootWithPendingPassiveEffects => option RootId
  | pendingPassiveEffectsLanes => Lanes
  | pendingPassiveEffectsRemainingLanes => Lanes
  | pendingPassiveTransitions => Transitions
  | nestedUpdateCount => Z
  | rootWithNestedUpdates => option RootId
  | isFlushingPassiveEffects => bool
  | didScheduleUpdateDuringPassiveEffects => bool
  | nestedPassiveUpdateCount => Z
  | rootWithPassiveNestedUpdates => option RootId
  | currentEventTime => Z
  | currentEventTransitionLane => Lanes
  | syncQueue => option (list SyncCallback)
  | includesLegacySyncCallbacks => bool
  | isFlushingSyncQueue => bool
  | currentUpdatePriority => Lane
  | batchConfigTransition => option nat
  | currentOwner => option FiberId
  end.

(** The initial values the source gives them. *)
Definition initialVars : forall x, TypeOf x :=
  fun x =>
    match x return TypeOf x with
    | executionContext => NoContext
    | workInProgressRoot => None
    | workInProgress => None
    | workInProgressRootRenderLanes => NoLanes
    | renderLanes => NoLanes
    | workInProgressRootExitStatus => RootInProgress
    | workInProgressRootFatalError => None
    | workInProgressRootSkippedLanes => NoLanes
    | workInProgressRootInterleavedUpdatedLanes => NoLanes
    | workInProgressRootRenderPhaseUpdatedLanes => NoLanes
    | workInProgressRootPingedLanes => NoLanes
    | workInProgressRootConcurrentErrors => None
    | workInProgressRootRecoverableErrors => None
    | globalMostRecentFallbackTime => 0
    | workInProgressRootRenderTargetTime => None
    | workInProgressTransitions => None
    | hasUncaughtError => false
    | firstUncaughtError => None
    | legacyErrorBoundariesThatAlreadyFailed => None
    | rootDoesHavePassiveEffects => false
    | rootWithPendingPassiveEffects => None
    | pendingPassiveEffectsLanes => NoLanes
    | pendingPassiveEffectsRemainingLanes => NoLanes
    | pendingPassiveTransitions => None
    | nestedUpdateCount => 0
    | rootWithNestedUpdates => None
    | isFlushingPassiveEffects => false
    | didScheduleUpdateDuringPassiveEffects => false
    | nestedPassiveUpdateCount => 0
    | rootWithPassiveNestedUpdates => None
    | currentEventTime => NoTimestamp
    | currentEventTransitionLane => NoLanes
    | syncQueue => None
    | includesLegacySyncCallbacks => false
    | isFlushingSyncQueue => false
    | currentUpdatePriority => NoLane
    | batchConfigTransition => None
    | currentOwner => None
    end.

Definition Var_eq_dec (x y : Var) : {x = y} + {x <> y}.
Proof. decide equality. Defined.

(** The calls that leave the modelled files: each names the function called
    and its arguments, and is indexed by the type of what it returns. *)
Inductive Ext : Type -> Type :=
(* ReactFiberLane *)
| MarkRootFinished (root : RootId) (remainingLanes : Lanes) : Ext unit
| MarkRootSuspended_dontCallThisOneDirectly (root : RootId) (suspendedLanes : Lanes)
    : Ext unit
| MarkRootPinged (root : RootId) (pingedLanes : Lanes) (eventTime : Z) : Ext unit
| MarkStarvedLanesAsExpired (root : RootId) (currentTime : Z) : Ext unit
| GetTransitionsForLanes (root : RootId) (l : Lanes) : Ext Transitions
(* ReactFiberBeginWork, ReactFiberCompleteWork, ReactFiberUnwindWork, ReactFiberThrow *)
| BeginWork (cur : option FiberId) (unitOfWork : FiberId) (l : Lanes)
    : Ext (option FiberId)
| CompleteWork (cur : option FiberId) (completedWork : FiberId) (l : Lanes)
    : Ext (option FiberId)
| UnwindWork (cur : option FiberId) (completedWork : FiberId) (l : Lanes)
    : Ext (option FiberId)
| UnwindInterruptedWork (cur : option FiberId) (interruptedWork : FiberId) (l : Lanes)
    : Ext unit
| ThrowException (root : RootId) (returnFiber : option FiberId) (sourceFiber : FiberId)
    (thrown : JsValue) (l : Lanes) : Ext unit
(* ReactFiber, ReactFiberConcurrentUpdates, ReactFiberNewContext, ReactFiberHooks *)
| CreateWorkInProgress (cur : FiberId) : Ext FiberId
| FinishQueueingConcurrentUpdates : Ext unit
| ResetContextDependencies : Ext unit
| ResetHooksAfterThrow : Ext unit
| PushDispatcher : Ext unit
| PopDispatcher : Ext unit
| DiscardPendingWarnings : Ext unit
| ErrorHydratingContainer (root : RootId) : Ext unit
(* ReactFiberHostConfig and Scheduler *)
| CancelTimeout (handle : TimeoutHandle) : Ext unit
| ScheduleTimeout (fn : ScheduledFn) (ms : Z) : Ext TimeoutHandle
| ResetAfterCommit (root : RootId) : Ext unit
| AfterActiveInstanceBlur : Ext unit
| RequestPaint : Ext unit
| Scheduler_scheduleCallback (priorityLevel : SchedulerPriority) (fn : ScheduledFn)
    : Ext CallbackNode
| Scheduler_cancelCallback (node : CallbackNode) : Ext unit
| ScheduleMicrotask (fn : ScheduledFn) : Ext unit
| ActQueuePush (fn : ScheduledFn) : Ext unit
| ActDidScheduleLegacyUpdate : Ext unit
| SchedulePendingTransitionCallbacks (root : RootId) : Ext unit
(* ReactFiberCommitWork *)
| CommitBeforeMutationEffects (root : RootId) (firstChild : FiberId) : Ext bool
| CommitMutationEffects (root : RootId) (finished : FiberId) (committedLanes : Lanes)
    : Ext unit
| CommitLayoutEffects (finished : FiberId) (root : RootId) (committedLanes : Lanes)
    : Ext unit
| CommitPassiveUnmountEffects (finished : FiberId) : Ext unit
| CommitPassiveMountEffects (root : RootId) (finished : FiberId) (l : Lanes)
    (transitions : Transitions) : Ext unit
| CommitDoubleInvokeEffectsInDEV (fiber : FiberId) (hasPassiveEffects : bool) : Ext unit
| ReleaseRootPooledCache (root : RootId) (remainingLanes : Lanes) : Ext unit
(* callbacks of the application *)
| OnRecoverableError (root : RootId) (error : JsValue) (componentStack : JsValue)
    (dgst : JsValue) : Ext unit
| CallGetSnapshot (store : StoreId) : Ext JsValue
| ConsoleError (message : string) : Ext unit.

(** What is observed of a run: the calls that left the module, in order, and
    the marks the model puts at the entry of the render and commit functions
    and at each assignment of [root.current]. *)
Inductive Event : Type :=
| Called {A : Type} (c : Ext A)
| EnterRenderRootSync (root : RootId) (l : Lanes)
| EnterRenderRootConcurrent (root : RootId) (l : Lanes)
| EnterCommitRoot (root : RootId) (recoverableErrors : option (list CapturedValue))
| AssignCurrent (root : RootId) (finished : FiberId).

(** Results: a value, a thrown value, or a loop cut off by its bound. *)
Inductive Res (A : Type) : Type :=
| Ret (a : A)
| Thrown (e : JsValue)
| NoFuel.

Arguments Ret {A}.
Arguments Thrown {A}.
Arguments NoFuel {A}.

Section WithEnvironment.

(** Whatever the rest of React and the host keep. *)
Variable W : Type.

Record State : Type := mkState {
  vars : forall x, TypeOf x;
  roots : RootId -> FiberRoot;
  fibers : FiberId -> Fiber;
  env : W
}.

Definition rd (x : Var) (s : State) : TypeOf x := vars s x.

Definition wr (x : Var) (v : TypeOf x) (s : State) : State :=
  mkState
    (fun y =>
       match Var_eq_dec x y with
       | left e => eq_rect x TypeOf v y e
       | right _ => vars s y
       end)
    (roots s) (fibers s) (env s).

Definition upd {A : Type} (h : nat) (v : A) (m : nat -> A) : nat -> A :=
  fun k => if Nat.eqb k h then v else m k.

Definition wrRoot (root : RootId) (f : FiberRoot -> FiberRoot) (s : State) : State :=
  mkState (vars s) (upd root (f (roots s root)) (roots s)) (fibers s) (env s).

Definition wrFiber (fiber : FiberId) (f : Fiber -> Fiber) (s : State) : State :=
  mkState (vars s) (roots s) (upd fiber (f (fibers s fiber)) (fibers s)) (env s).

Definition set_env (w : W) (s : State) : State :=
  mkState (vars s) (roots s) (fibers s) w.

(** The environment: how each outside call answers and what it does to the
    state, what the read-only helpers of the other modules return, and the
    constants the work loop imports.  Nothing is assumed of it. *)
Record Environment : Type := {
  world : forall A, Ext A -> State -> Res A * State;
  (* ReactFiberLane *)
  SyncLane : Lane;
  getNextLanes : RootId -> Lanes -> State -> Lanes;
  getHighestPriorityLane : Lanes -> Lane;
  includesNonIdleWork : Lanes -> bool;
  includesOnlyRetries : Lanes -> bool;
  includesOnlyTransitions : Lanes -> bool;
  includesBlockingLane : RootId -> Lanes -> bool;
  includesExpiredLane : RootId -> Lanes -> State -> bool;
  getLanesToRetrySynchronouslyOnError : RootId -> State -> Lanes;
  getMostRecentEventTime : RootId -> Lanes -> State -> Z;
  (* ReactEventPriorities *)
  DiscreteEventPriority : Lane;
  ContinuousEventPriority : Lane;
  DefaultEventPriority : Lane;
  IdleEventPriority : Lane;
  lowerEventPriority : Lane -> Lane -> Lane;
  lanesToEventPriority : Lanes -> Lane;
  (* ReactFiberFlags *)
  Incomplete : Flags;
  StoreConsistency : Flags;
  HostEffectMask : Flags;
  ForceClientRender : Flags;
  BeforeMutationMask : Flags;
  MutationMask : Flags;
  LayoutMask : Flags;
  PassiveMask : Flags;
  (* the rest *)
  isRootDehydrated : RootId -> State -> bool;
  getConcurrentlyUpdatedLanes : State -> Lanes;
  now : State -> Z;
  shouldYield : State -> bool;
  actQueueIsNull : State -> bool
}.

Variable cfg : Config.
Variable E : Environment.

(** *** Computations *)

Record Outcome (A : Type) : Type := mkOutcome {
  res : Res A;
  final : State;
  trace : list Event
}.

Arguments mkOutcome {A}.
Arguments res {A}.
Arguments final {A}.
Arguments trace {A}.

Definition M (A : Type) : Type := State -> Outcome A.

Definition ret {A : Type} (a : A) : M A := fun s => mkOutcome (Ret a) s [].

Definition bind {A B : Type} (m : M A) (k : A -> M B) : M B :=
  fun s =>
    let o := m s in
    match res o with
    | Ret a =>
        let o' := k a (final o) in
        mkOutcome (res o') (final o') (trace o ++ trace o')
    | Thrown e => mkOutcome (Thrown e) (final o) (trace o)
    | NoFuel => mkOutcome NoFuel (final o) (trace o)
    end.

Definition throw {A : Type} (e : JsValue) : M A := fun s => mkOutcome (Thrown e) s [].
Definition noFuel {A : Type} : M A := fun s => mkOutcome NoFuel s [].
Definition get : M State := fun s => mkOutcome (Ret s) s [].
Definition modify (f : State -> State) : M unit := fun s => mkOutcome (Ret tt) (f s) [].
Definition mark (e : Event) : M unit := fun s => mkOutcome (Ret tt) s [e].

(** A call that leaves the module: the environment answers, the call is
    recorded. *)
Definition call {A : Type} (c : Ext A) : M A :=
  fun s => let (r, s') := world E A c s in mkOutcome r s' [Called c].

(** [try { m } catch (e) { h e }] *)
Definition tryCatch {A : Type} (m : M A) (h : JsValue -> M A) : M A :=
  fun s =>
    let o := m s in
    match res o with
    | Thrown e =>
        let o' := h e (final o) in
        mkOutcome (res o') (final o') (trace o ++ trace o')
    | _ => o
    end.

(** [try { m } finally { fin }]: [fin] runs after a return and after a
    throw, and what it throws replaces the outcome of [m]. *)
Definition tryFinally {A : Type} (m : M A) (fin : M unit) : M A :=
  fun s =>
    let o := m s in
    match res o with
    | NoFuel => o
    | r =>
        let o' := fin (final o) in
        match res o' with
        | Ret _ => mkOutcome r (final o') (trace o ++ trace o')
        | Thrown e => mkOutcome (Thrown e) (final o') (trace o ++ trace o')
        | NoFuel => mkOutcome NoFuel (final o') (trace o ++ trace o')
        end
    end.

Definition when (b : bool) (m : M unit) : M unit := if b then m else ret tt.

Notation "x <- m ;; k" := (bind m (fun x => k))
  (at level 61, m at next level, right associativity).
Notation "m ;; k" := (bind m (fun _ => k))
  (at level 61, right associativity).

Definition setVar (x : Var) (v : TypeOf x) : M unit := modify (wr x v).

Definition same_id (a b : option nat) : bool :=
  match a, b with
  | Some x, Some y => Nat.eqb x y
  | None, None => true
  | _, _ => false
  end.

(** *** The render phase *)

Definition markRootSuspended (root : RootId) (suspended : Lanes) : M unit :=
  s <- get ;;
  let suspended := removeLanes suspended (rd workInProgressRootPingedLanes s) in
  let suspended :=
    removeLanes suspended (rd workInProgressRootInterleavedUpdatedLanes s) in
  call (MarkRootSuspended_dontCallThisOneDirectly root suspended).

(** The [while (interruptedWork !== null)] loop of [prepareFreshStack]. *)
Fixpoint unwindInterrupted (fuel : nat) (interruptedWork : option FiberId) : M unit :=
  match interruptedWork with
  | None => ret tt
  | Some w =>
      match fuel with
      | O => noFuel
      | S fuel' =>
          s <- get ;;
          call (UnwindInterruptedWork (alternate (fibers s w)) w
                  (rd workInProgressRootRenderLanes s)) ;;
          s <- get ;;
          unwindInterrupted fuel' (return_ (fibers s w))
      end
  end.

Definition prepareFreshStack (fuel : nat) (root : RootId) (l : Lanes) : M FiberId :=
  modify (wrRoot root (fun r => set_finishedLanes NoLanes (set_finishedWork None r))) ;;
  s <- get ;;
  match timeoutHandle (roots s root) with
  | Some handle =>
      modify (wrRoot root (set_timeoutHandle None)) ;;
      call (CancelTimeout handle)
  | None => ret tt
  end ;;
  s <- get ;;
  match rd workInProgress s with
  | Some wip => unwindInterrupted fuel (return_ (fibers s wip))
  | None => ret tt
  end ;;
  setVar workInProgressRoot (Some root) ;;
  s <- get ;;
  rootWorkInProgress <- call (CreateWorkInProgress (current (roots s root))) ;;
  setVar workInProgress (Some rootWorkInProgress) ;;
  setVar renderLanes l ;;
  setVar workInProgressRootRenderLanes l ;;
  setVar workInProgressRootExitStatus RootInProgress ;;
  setVar workInProgressRootFatalError None ;;
  setVar workInProgressRootSkippedLanes NoLanes ;;
  setVar workInProgressRootInterleavedUpdatedLanes NoLanes ;;
  setVar workInProgressRootRenderPhaseUpdatedLanes NoLanes ;;
  setVar workInProgressRootPingedLanes NoLanes ;;
  setVar workInProgressRootConcurrentErrors None ;;
  setVar workInProgressRootRecoverableErrors None ;;
  call FinishQueueingConcurrentUpdates ;;
  when (DEV cfg) (call DiscardPendingWarnings) ;;
  ret rootWorkInProgress.

Definition markCommitTimeOfFallback : M unit :=
  s <- get ;; setVar globalMostRecentFallbackTime (now E s).

Definition markSkippedUpdateLanes (lane : Lanes) : M unit :=
  s <- get ;;
  setVar workInProgressRootSkippedLanes
    (mergeLanes lane (rd workInProgressRootSkippedLanes s)).

Definition renderDidSuspend : M unit :=
  s <- get ;;
  when (RootExitStatus_eqb (rd workInProgressRootExitStatus s) RootInProgress)
    (setVar workInProgressRootExitStatus RootSuspended).

Definition renderDidSuspendDelayIfPossible : M unit :=
  s <- get ;;
  when (RootExitStatus_eqb (rd workInProgressRootExitStatus s) RootInProgress
        || RootExitStatus_eqb (rd workInProgressRootExitStatus s) RootSuspended
        || RootExitStatus_eqb (rd workInProgressRootExitStatus s) RootErrored)
    (setVar workInProgressRootExitStatus RootSuspendedWithDelay) ;;
  s <- get ;;
  match rd workInProgressRoot s with
  | Some root =>
      when (includesNonIdleWork E (rd workInProgressRootSkippedLanes s)
            || includesNonIdleWork E (rd workInProgressRootInterleavedUpdatedLanes s))
        (markRootSuspended root (rd workInProgressRootRenderLanes s))
  | None => ret tt
  end.

Definition renderDidError (error : CapturedValue) : M unit :=
  s <- get ;;
  when (negb (RootExitStatus_eqb (rd workInProgressRootExitStatus s)
                RootSuspendedWithDelay))
    (setVar workInProgressRootExitStatus RootErrored) ;;
  s <- get ;;
  match rd workInProgressRootConcurrentErrors s with
  | None => setVar workInProgressRootConcurrentErrors (Some [error])
  | Some errors => setVar workInProgressRootConcurrentErrors (Some (errors ++ [error]))
  end.

Definition renderHasNotSuspendedYet (s : State) : bool :=
  RootExitStatus_eqb (rd workInProgressRootExitStatus s) RootInProgress.

(** The [do ... while (completedWork !== null)] loop of [completeUnitOfWork],
    with the statements that follow it. *)
Fixpoint completeUnitOfWork_loop (fuel : nat) (completedWork : FiberId) : M unit :=
  match fuel with
  | O => noFuel
  | S fuel' =>
      s <- get ;;
      let cur := alternate (fibers s completedWork) in
      let returnFiber := return_ (fibers s completedWork) in
      goOn <-
        (if Z.land (flags (fibers s completedWork)) (Incomplete E) =? NoFlags then
           next <- call (CompleteWork cur completedWork (rd renderLanes s)) ;;
           match next with
           | Some n => setVar workInProgress (Some n) ;; ret false
           | None => ret true
           end
         else
           next <- call (UnwindWork cur completedWork (rd renderLanes s)) ;;
           match next with
           | Some n =>
               modify (wrFiber n (fun f => set_flags (Z.land (flags f) (HostEffectMask E)) f)) ;;
               setVar workInProgress (Some n) ;;
               ret false
           | None =>
               match returnFiber with
               | Some r =>
                   modify (wrFiber r (fun f =>
                     set_deletions None
                       (set_subtreeFlags NoFlags
                          (set_flags (Z.lor (flags f) (Incomplete E)) f)))) ;;
                   ret true
               | None =>
                   setVar workInProgressRootExitStatus RootDidNotComplete ;;
                   setVar workInProgress None ;;
                   ret false
               end
           end) ;;
      if goOn then
        s <- get ;;
        match sibling (fibers s completedWork) with
        | Some siblingFiber => setVar workInProgress (Some siblingFiber)
        | None =>
            setVar workInProgress returnFiber ;;
            match returnFiber with
            | Some r => completeUnitOfWork_loop fuel' r
            | None =>
                s <- get ;;
                when (RootExitStatus_eqb (rd workInProgressRootExitStatus s) RootInProgress)
                  (setVar workInProgressRootExitStatus RootCompleted)
            end
        end
      else ret tt
  end.

Definition completeUnitOfWork (fuel : nat) (unitOfWork : FiberId) : M unit :=
  completeUnitOfWork_loop fuel unitOfWork.

Definition performUnitOfWork (fuel : nat) (unitOfWork : FiberId) : M unit :=
  s <- get ;;
  let cur := alternate (fibers s unitOfWork) in
  next <- call (BeginWork cur unitOfWork (rd renderLanes s)) ;;
  match next with
  | None => completeUnitOfWork fuel unitOfWork
  | Some n => setVar workInProgress (Some n)
  end ;;
  setVar currentOwner None.

(** [handleError]: one turn of its [do ... while (true)] per unit of fuel. *)
Fixpoint handleError (bound fuel : nat) (root : RootId) (thrownValue : JsValue) : M unit :=
  match fuel with
  | O => noFuel
  | S fuel' =>
      s <- get ;;
      let erroredWork := rd workInProgress s in
      tryCatch
        (call ResetContextDependencies ;;
         call ResetHooksAfterThrow ;;
         setVar currentOwner None ;;
         s <- get ;;
         match erroredWork with
         | Some ew =>
             match return_ (fibers s ew) with
             | Some _ =>
                 call (ThrowException root (return_ (fibers s ew)) ew thrownValue
                         (rd workInProgressRootRenderLanes s)) ;;
                 completeUnitOfWork bound ew
             | None =>
                 setVar workInProgressRootExitStatus RootFatalErrored ;;
                 setVar workInProgressRootFatalError (Some thrownValue) ;;
                 setVar workInProgress None
             end
         | None =>
             setVar workInProgressRootExitStatus RootFatalErrored ;;
             setVar workInProgressRootFatalError (Some thrownValue) ;;
             setVar workInProgress None
         end)
        (fun yetAnotherThrownValue =>
           s <- get ;;
           match erroredWork with
           | Some ew =>
               when (same_id (rd workInProgress s) (Some ew))
                 (setVar workInProgress (return_ (fibers s ew)))
           | None => ret tt
           end ;;
           handleError bound fuel' root yetAnotherThrownValue)
  end.

Fixpoint workLoopSync_loop (bound fuel : nat) : M unit :=
  s <- get ;;
  match rd workInProgress s with
  | None => ret tt
  | Some w =>
      match fuel with
      | O => noFuel
      | S fuel' => performUnitOfWork bound w ;; workLoopSync_loop bound fuel'
      end
  end.

Definition workLoopSync (fuel : nat) : M unit := workLoopSync_loop fuel fuel.

Fixpoint workLoopConcurrent_loop (bound fuel : nat) : M unit :=
  s <- get ;;
  match rd workInProgress s with
  | None => ret tt
  | Some w =>
      if shouldYield E s then ret tt
      else
        match fuel with
        | O => noFuel
        | S fuel' => performUnitOfWork bound w ;; workLoopConcurrent_loop bound fuel'
        end
  end.

Definition workLoopConcurrent (fuel : nat) : M unit := workLoopConcurrent_loop fuel fuel.

(** The [do { try { workLoop(); break; } catch ... } while (true)] loops. *)
Fixpoint renderLoop (workLoop : M unit) (bound fuel : nat) (root : RootId) : M unit :=
  match fuel with
  | O => noFuel
  | S fuel' =>
      tryCatch workLoop
        (fun thrownValue =>
           handleError bound bound root thrownValue ;;
           renderLoop workLoop bound fuel' root)
  end.

Definition resetRenderTimer : M unit :=
  s <- get ;;
  setVar workInProgressRootRenderTargetTime (Some (now E s + RENDER_TIMEOUT_MS)).

(** The test of lines 1839 and 1938: the root or the lanes have changed, the
    existing stack is thrown out. *)
Definition needsFreshStack (root : RootId) (l : Lanes) (s : State) : bool :=
  negb (same_id (rd workInProgressRoot s) (Some root))
  || negb (rd workInProgressRootRenderLanes s =? l).

Definition renderRootSync (fuel : nat) (root : RootId) (l : Lanes) : M RootExitStatus :=
  mark (EnterRenderRootSync root l) ;;
  s <- get ;;
  let prevExecutionContext := rd executionContext s in
  setVar executionContext (Z.lor prevExecutionContext RenderContext) ;;
  call PushDispatcher ;;
  s <- get ;;
  when (needsFreshStack root l s)
    (transitions <- call (GetTransitionsForLanes root l) ;;
     setVar workInProgressTransitions transitions ;;
     prepareFreshStack fuel root l ;;
     ret tt) ;;
  renderLoop (workLoopSync fuel) fuel fuel root ;;
  call ResetContextDependencies ;;
  setVar executionContext prevExecutionContext ;;
  call PopDispatcher ;;
  s <- get ;;
  match rd workInProgress s with
  | Some _ =>
      throw ("Cannot commit an incomplete root. This error is likely caused by a "
             ++ "bug in React. Please file an issue.")%string
  | None =>
      setVar workInProgressRoot None ;;
      setVar workInProgressRootRenderLanes NoLanes ;;
      s <- get ;;
      ret (rd workInProgressRootExitStatus s)
  end.

Definition renderRootConcurrent (fuel : nat) (root : RootId) (l : Lanes)
  : M RootExitStatus :=
  mark (EnterRenderRootConcurrent root l) ;;
  s <- get ;;
  let prevExecutionContext := rd executionContext s in
  setVar executionContext (Z.lor prevExecutionContext RenderContext) ;;
  call PushDispatcher ;;
  s <- get ;;
  when (needsFreshStack root l s)
    (transitions <- call (GetTransitionsForLanes root l) ;;
     setVar workInProgressTransitions transitions ;;
     resetRenderTimer ;;
     prepareFreshStack fuel root l ;;
     ret tt) ;;
  renderLoop (workLoopConcurrent fuel) fuel fuel root ;;
  call ResetContextDependencies ;;
  call PopDispatcher ;;
  setVar executionContext prevExecutionContext ;;
  s <- get ;;
  match rd workInProgress s with
  | Some _ => ret RootInProgress
  | None =>
      setVar workInProgressRoot None ;;
      setVar workInProgressRootRenderLanes NoLanes ;;
      s <- get ;;
      ret (rd workInProgressRootExitStatus s)
  end.

(** *** Scheduling helpers *)

Definition requestEventTime : M Z :=
  s <- get ;;
  if negb (Z.land (rd executionContext s) (Z.lor RenderContext CommitContext) =? NoContext)
  then ret (now E s)
  else if negb (rd currentEventTime s =? NoTimestamp) then ret (rd currentEventTime s)
  else
    setVar currentEventTime (now E s) ;;
    ret (now E s).

Definition scheduleCallback (priorityLevel : SchedulerPriority) (fn : ScheduledFn)
  : M CallbackNode :=
  s <- get ;;
  if DEV cfg && negb (actQueueIsNull E s) then
    call (ActQueuePush fn) ;; ret FakeActCallbackNode
  else call (Scheduler_scheduleCallback priorityLevel fn).

Definition cancelCallback (node : CallbackNode) : M unit :=
  if DEV cfg && CallbackNode_eqb node FakeActCallbackNode then ret tt
  else call (Scheduler_cancelCallback node).

Definition shouldForceFlushFallbacksInDEV (s : State) : bool :=
  DEV cfg && negb (actQueueIsNull E s).

(** ReactFiberSyncTaskQueue *)
Definition scheduleSyncCallback (callback : SyncCallback) : M unit :=
  s <- get ;;
  match rd syncQueue s with
  | None => setVar syncQueue (Some [callback])
  | Some queue => setVar syncQueue (Some (queue ++ [callback]))
  end.

Definition scheduleLegacySyncCallback (callback : SyncCallback) : M unit :=
  setVar includesLegacySyncCallbacks true ;;
  scheduleSyncCallback callback.

Definition isSome {A : Type} (o : option A) : bool :=
  match o with Some _ => true | None => false end.

Definition same_node (a b : option CallbackNode) : bool :=
  match a, b with
  | Some x, Some y => CallbackNode_eqb x y
  | None, None => true
  | _, _ => false
  end.

Definition ensureRootIsScheduled (root : RootId) (currentTime : Z) : M unit :=
  s <- get ;;
  let existingCallbackNode := callbackNode (roots s root) in
  call (MarkStarvedLanesAsExpired root currentTime) ;;
  s <- get ;;
  let nextLanes :=
    getNextLanes E root
      (if same_id (Some root) (rd workInProgressRoot s)
       then rd workInProgressRootRenderLanes s else NoLanes) s in
  if nextLanes =? NoLanes then
    match existingCallbackNode with
    | Some node => cancelCallback node
    | None => ret tt
    end ;;
    modify (wrRoot root (fun r => set_callbackPriority NoLane (set_callbackNode None r)))
  else
    let newCallbackPriority := getHighestPriorityLane E nextLanes in
    s <- get ;;
    let existingCallbackPriority := callbackPriority (roots s root) in
    if (existingCallbackPriority =? newCallbackPriority)
       && negb (DEV cfg && negb (actQueueIsNull E s)
                && negb (same_node existingCallbackNode (Some FakeActCallbackNode)))
    then
      when (DEV cfg
            && same_node existingCallbackNode None
            && negb (existingCallbackPriority =? SyncLane E))
        (call (ConsoleError
                 ("Expected scheduled callback to exist. This error is likely caused by a "
                  ++ "bug in React. Please file an issue.")%string))
    else
      match existingCallbackNode with
      | Some node => cancelCallback node
      | None => ret tt
      end ;;
      newCallbackNode <-
        (if newCallbackPriority =? SyncLane E then
           s <- get ;;
           match tag (roots s root) with
           | LegacyRoot =>
               when (DEV cfg) (call ActDidScheduleLegacyUpdate) ;;
               scheduleLegacySyncCallback (PerformSyncWorkOnRoot root)
           | ConcurrentRoot => scheduleSyncCallback (PerformSyncWorkOnRoot root)
           end ;;
           s <- get ;;
           (if supportsMicrotasks cfg then
              if DEV cfg && negb (actQueueIsNull E s)
              then call (ActQueuePush FlushSyncCallbacksFn)
              else call (ScheduleMicrotask FlushSyncCallbacksUnlessWorkingFn)
            else
              scheduleCallback ImmediateSchedulerPriority FlushSyncCallbacksFn ;; ret tt) ;;
           ret None
         else
           let schedulerPriorityLevel :=
             let p := lanesToEventPriority E nextLanes in
             if p =? DiscreteEventPriority E then ImmediateSchedulerPriority
             else if p =? ContinuousEventPriority E then UserBlockingSchedulerPriority
             else if p =? DefaultEventPriority E then NormalSchedulerPriority
             else if p =? IdleEventPriority E then IdleSchedulerPriority
             else NormalSchedulerPriority in
           node <- scheduleCallback schedulerPriorityLevel
                     (PerformConcurrentWorkOnRootFn root) ;;
           ret (Some node)) ;;
      modify (wrRoot root (fun r =>
        set_callbackNode newCallbackNode (set_callbackPriority newCallbackPriority r))).

Definition maximumUpdateDepthError : JsValue :=
  ("Maximum update depth exceeded. This can happen when a component "
   ++ "repeatedly calls setState inside componentWillUpdate or "
   ++ "componentDidUpdate. React limits the number of nested updates to "
   ++ "prevent infinite loops.")%string.

Definition passiveUpdateDepthWarning : string :=
  ("Maximum update depth exceeded. This can happen when a component "
   ++ "calls setState inside useEffect, but useEffect either doesn't "
   ++ "have a dependency array, or one of the dependencies changes on "
   ++ "every render.")%string.

Definition throwIfInfiniteUpdateLoopDetected : M unit :=
  s <- get ;;
  if NESTED_UPDATE_LIMIT <? rd nestedUpdateCount s then
    setVar nestedUpdateCount 0 ;;
    setVar nestedPassiveUpdateCount 0 ;;
    setVar rootWithNestedUpdates None ;;
    setVar rootWithPassiveNestedUpdates None ;;
    throw maximumUpdateDepthError
  else
    when (DEV cfg && (NESTED_PASSIVE_UPDATE_LIMIT <? rd nestedPassiveUpdateCount s))
      (setVar nestedPassiveUpdateCount 0 ;;
       setVar rootWithPassiveNestedUpdates None ;;
       call (ConsoleError passiveUpdateDepthWarning)).

(** *** The commit phase and the entry points

    [performSyncWorkOnRoot] is reached again from inside a commit, through the
    callbacks of the synchronous queue.  The functions below take that
    re-entrant call as [performSyncWorkOnRoot_rec]; the knot is tied after
    the section, on the bound of the recursion. *)
Section Reentrant.

Variable performSyncWorkOnRoot_rec : RootId -> M unit.

(** The [for] loop of [flushSyncCallbacks] with the [catch] block of its
    [try].  [queue] is an alias of [syncQueue]: the callbacks pushed while the
    loop runs are reached by it. *)
Fixpoint flushSyncCallbacks_loop (fuel i : nat) : M unit :=
  s <- get ;;
  match rd syncQueue s with
  | None => ret tt
  | Some queue =>
      match nth_error queue i with
      | None => ret tt
      | Some (PerformSyncWorkOnRoot root) =>
          match fuel with
          | O => noFuel
          | S fuel' =>
              tryCatch (performSyncWorkOnRoot_rec root)
                (fun error =>
                   s <- get ;;
                   match rd syncQueue s with
                   | Some q => setVar syncQueue (Some (skipn (i + 1) q))
                   | None => ret tt
                   end ;;
                   call (Scheduler_scheduleCallback ImmediateSchedulerPriority
                           FlushSyncCallbacksFn) ;;
                   throw error) ;;
              flushSyncCallbacks_loop fuel' (S i)
          end
      end
  end.

Definition flushSyncCallbacks (fuel : nat) : M unit :=
  s <- get ;;
  if negb (rd isFlushingSyncQueue s) && isSome (rd syncQueue s) then
    setVar isFlushingSyncQueue true ;;
    s <- get ;;
    let previousUpdatePriority := rd currentUpdatePriority s in
    tryFinally
      (setVar currentUpdatePriority (DiscreteEventPriority E) ;;
       flushSyncCallbacks_loop fuel 0 ;;
       setVar syncQueue None ;;
       setVar includesLegacySyncCallbacks false)
      (setVar currentUpdatePriority previousUpdatePriority ;;
       setVar isFlushingSyncQueue false)
  else ret tt.

Definition flushSyncCallbacksOnlyInLegacyMode (fuel : nat) : M unit :=
  s <- get ;;
  when (rd includesLegacySyncCallbacks s) (flushSyncCallbacks fuel).

Definition flushPassiveEffectsImpl (fuel : nat) : M bool :=
  s <- get ;;
  match rd rootWithPendingPassiveEffects s with
  | None => ret false
  | Some root =>
      let transitions := rd pendingPassiveTransitions s in
      setVar pendingPassiveTransitions None ;;
      let l := rd pendingPassiveEffectsLanes s in
      setVar rootWithPendingPassiveEffects None ;;
      setVar pendingPassiveEffectsLanes NoLanes ;;
      s <- get ;;
      if negb (Z.land (rd executionContext s) (Z.lor RenderContext CommitContext)
               =? NoContext)
      then throw "Cannot flush passive effects while already rendering."%string
      else
        when (DEV cfg)
          (setVar isFlushingPassiveEffects true ;;
           setVar didScheduleUpdateDuringPassiveEffects false) ;;
        s <- get ;;
        let prevExecutionContext := rd executionContext s in
        setVar executionContext (Z.lor prevExecutionContext CommitContext) ;;
        s <- get ;;
        call (CommitPassiveUnmountEffects (current (roots s root))) ;;
        s <- get ;;
        call (CommitPassiveMountEffects root (current (roots s root)) l transitions) ;;
        s <- get ;;
        when (DEV cfg && enableStrictEffects cfg)
          (call (CommitDoubleInvokeEffectsInDEV (current (roots s root)) true)) ;;
        setVar executionContext prevExecutionContext ;;
        flushSyncCallbacks fuel ;;
        when (enableTransitionTracing cfg) (call (SchedulePendingTransitionCallbacks root)) ;;
        when (DEV cfg)
          (s <- get ;;
           (if rd didScheduleUpdateDuringPassiveEffects s then
              if same_id (Some root) (rd rootWithPassiveNestedUpdates s) then
                setVar nestedPassiveUpdateCount (rd nestedPassiveUpdateCount s + 1)
              else
                setVar nestedPassiveUpdateCount 0 ;;
                setVar rootWithPassiveNestedUpdates (Some root)
            else setVar nestedPassiveUpdateCount 0) ;;
           setVar isFlushingPassiveEffects false ;;
           setVar didScheduleUpdateDuringPassiveEffects false) ;;
        ret true
  end.

Definition flushPassiveEffects (fuel : nat) : M bool :=
  s <- get ;;
  match rd rootWithPendingPassiveEffects s with
  | Some root =>
      let remainingLanes := rd pendingPassiveEffectsRemainingLanes s in
      setVar pendingPassiveEffectsRemainingLanes NoLanes ;;
      let renderPriority := lanesToEventPriority E (rd pendingPassiveEffectsLanes s) in
      let priority := lowerEventPriority E (DefaultEventPriority E) renderPriority in
      let prevTransition := rd batchConfigTransition s in
      let previousPriority := rd currentUpdatePriority s in
      tryFinally
        (setVar batchConfigTransition None ;;
         setVar currentUpdatePriority priority ;;
         flushPassiveEffectsImpl fuel)
        (setVar currentUpdatePriority previousPriority ;;
         setVar batchConfigTransition prevTransition ;;
         call (ReleaseRootPooledCache root remainingLanes))
  | None => ret false
  end.

(** The [do { flushPassiveEffects(); } while (rootWithPendingPassiveEffects
    !== null)] loop that opens [commitRootImpl]. *)
Fixpoint flushPendingPassiveEffects (fuel : nat) (bound : nat) : M unit :=
  match fuel with
  | O => noFuel
  | S fuel' =>
      flushPassiveEffects bound ;;
      s <- get ;;
      match rd rootWithPendingPassiveEffects s with
      | Some _ => flushPendingPassiveEffects fuel' bound
      | None => ret tt
      end
  end.

Definition hasFlags (f mask : Flags) : bool := negb (Z.land f mask =? NoFlags).

Definition effectsMask : Flags :=
  Z.lor (Z.lor (Z.lor (BeforeMutationMask E) (MutationMask E)) (LayoutMask E))
    (PassiveMask E).

(** Lines 2379-2493 of [commitRootImpl]: the three passes over the finished
    tree, with the assignment of [root.current] between the mutation pass
    and the layout pass; without effects, the assignment alone. *)
Definition commitRootImpl_passes (root : RootId) (finished : FiberId) (l : Lanes)
  : M unit :=
  s <- get ;;
  let subtreeHasEffects := hasFlags (subtreeFlags (fibers s finished)) effectsMask in
  let rootHasEffect := hasFlags (flags (fibers s finished)) effectsMask in
  if subtreeHasEffects || rootHasEffect then
    let prevTransition := rd batchConfigTransition s in
    setVar batchConfigTransition None ;;
    s <- get ;;
    let previousPriority := rd currentUpdatePriority s in
    setVar currentUpdatePriority (DiscreteEventPriority E) ;;
    s <- get ;;
    let prevExecutionContext := rd executionContext s in
    setVar executionContext (Z.lor prevExecutionContext CommitContext) ;;
    setVar currentOwner None ;;
    shouldFireAfterActiveInstanceBlur <- call (CommitBeforeMutationEffects root finished) ;;
    call (CommitMutationEffects root finished l) ;;
    when (enableCreateEventHandleAPI cfg)
      (when shouldFireAfterActiveInstanceBlur (call AfterActiveInstanceBlur)) ;;
    call (ResetAfterCommit root) ;;
    modify (wrRoot root (set_current finished)) ;;
    mark (AssignCurrent root finished) ;;
    call (CommitLayoutEffects finished root l) ;;
    call RequestPaint ;;
    setVar executionContext prevExecutionContext ;;
    setVar currentUpdatePriority previousPriority ;;
    setVar batchConfigTransition prevTransition
  else
    modify (wrRoot root (set_current finished)) ;;
    mark (AssignCurrent root finished).

(** Lines 2538-2548: the recoverable errors are handed to the root's
    [onRecoverableError], in order. *)
Fixpoint reportRecoverableErrors (root : RootId) (errors : list CapturedValue) : M unit :=
  match errors with
  | [] => ret tt
  | recoverableError :: rest =>
      call (OnRecoverableError root (value recoverableError) (stack recoverableError)
              (digest recoverableError)) ;;
      reportRecoverableErrors root rest
  end.

(** Lines 2570-2587: the count of commits that leave synchronous work on
    the root they commit. *)
Definition countNestedUpdate (root : RootId) (remainingLanes : Lanes)
    (count : Z) (tracked : option RootId) : Z * option RootId :=
  if includesSomeLane remainingLanes (SyncLane E) then
    if same_id (Some root) tracked then (count + 1, tracked)
    else (0, Some root)
  else (0, tracked).

Definition commitRootImpl_nestedUpdates (root : RootId) : M unit :=
  s <- get ;;
  let remainingLanes := pendingLanes (roots s root) in
  let r := countNestedUpdate root remainingLanes (rd nestedUpdateCount s)
             (rd rootWithNestedUpdates s) in
  setVar nestedUpdateCount (fst r) ;;
  setVar rootWithNestedUpdates (snd r).

(** Lines 2495-2595: what [commitRootImpl] does after the passes. *)
Definition commitRootImpl_epilogue (fuel : nat) (root : RootId) (l remainingLanes : Lanes)
    (recoverableErrors : option (list CapturedValue)) : M unit :=
  s <- get ;;
  (if rd rootDoesHavePassiveEffects s then
     setVar rootDoesHavePassiveEffects false ;;
     setVar rootWithPendingPassiveEffects (Some root) ;;
     setVar pendingPassiveEffectsLanes l
   else call (ReleaseRootPooledCache root remainingLanes)) ;;
  s <- get ;;
  when (pendingLanes (roots s root) =? NoLanes)
    (setVar legacyErrorBoundariesThatAlreadyFailed None) ;;
  s <- get ;;
  ensureRootIsScheduled root (now E s) ;;
  match recoverableErrors with
  | Some errors => reportRecoverableErrors root errors
  | None => ret tt
  end ;;
  s <- get ;;
  (if rd hasUncaughtError s then
     setVar hasUncaughtError false ;;
     let error := rd firstUncaughtError s in
     setVar firstUncaughtError None ;;
     throw (match error with Some e => e | None => "null"%string end)
   else ret tt) ;;
  s <- get ;;
  when (includesSomeLane (rd pendingPassiveEffectsLanes s) (SyncLane E)
        && match tag (roots s root) with LegacyRoot => false | ConcurrentRoot => true end)
    (flushPassiveEffects fuel ;; ret tt) ;;
  commitRootImpl_nestedUpdates root ;;
  flushSyncCallbacks fuel.

(** Lines 2297-2359: the lanes that remain are computed and the root marked
    finished; the passive effects are scheduled if there are any.  Returns
    [remainingLanes]. *)
Definition commitRootImpl_prepare (root : RootId) (finished : FiberId)
    (transitions : Transitions) : M Lanes :=
  modify (wrRoot root (fun r => set_callbackPriority NoLane (set_callbackNode None r))) ;;
  s <- get ;;
  let remainingLanes :=
    mergeLanes (lanes (fibers s finished)) (childLanes (fibers s finished)) in
  let concurrentlyUpdatedLanes := getConcurrentlyUpdatedLanes E s in
  let remainingLanes := mergeLanes remainingLanes concurrentlyUpdatedLanes in
  call (MarkRootFinished root remainingLanes) ;;
  s <- get ;;
  when (same_id (Some root) (rd workInProgressRoot s))
    (setVar workInProgressRoot None ;;
     setVar workInProgress None ;;
     setVar workInProgressRootRenderLanes NoLanes) ;;
  s <- get ;;
  when (hasFlags (subtreeFlags (fibers s finished)) (PassiveMask E)
        || hasFlags (flags (fibers s finished)) (PassiveMask E))
    (when (negb (rd rootDoesHavePassiveEffects s))
       (setVar rootDoesHavePassiveEffects true ;;
        setVar pendingPassiveEffectsRemainingLanes remainingLanes ;;
        setVar pendingPassiveTransitions transitions ;;
        scheduleCallback NormalSchedulerPriority FlushPassiveEffectsFn ;;
        ret tt)) ;;
  ret remainingLanes.

Definition sameTreeError : JsValue :=
  ("Cannot commit the same tree as before. This error is likely caused by "
   ++ "a bug in React. Please file an issue.")%string.

Definition commitRootImpl (fuel : nat) (root : RootId)
    (recoverableErrors : option (list CapturedValue)) (transitions : Transitions)
    (renderPriorityLevel : Lane) : M unit :=
  flushPendingPassiveEffects fuel fuel ;;
  s <- get ;;
  let l := finishedLanes (roots s root) in
  match finishedWork (roots s root) with
  | None => ret tt
  | Some finished =>
      modify (wrRoot root (fun r => set_finishedLanes NoLanes (set_finishedWork None r))) ;;
      s <- get ;;
      if Nat.eqb finished (current (roots s root)) then throw sameTreeError
      else
        remainingLanes <- commitRootImpl_prepare root finished transitions ;;
        commitRootImpl_passes root finished l ;;
        commitRootImpl_epilogue fuel root l remainingLanes recoverableErrors
  end.

Definition commitRoot (fuel : nat) (root : RootId)
    (recoverableErrors : option (list CapturedValue)) (transitions : Transitions)
  : M unit :=
  mark (EnterCommitRoot root recoverableErrors) ;;
  s <- get ;;
  let previousUpdateLanePriority := rd currentUpdatePriority s in
  let prevTransition := rd batchConfigTransition s in
  tryFinally
    (setVar batchConfigTransition None ;;
     setVar currentUpdatePriority (DiscreteEventPriority E) ;;
     commitRootImpl fuel root recoverableErrors transitions previousUpdateLanePriority)
    (setVar batchConfigTransition prevTransition ;;
     setVar currentUpdatePriority previousUpdateLanePriority).

(** *** Entry points *)

Definition jnd (timeElapsed : Z) : Z :=
  if timeElapsed <? 120 then 120
  else if timeElapsed <? 480 then 480
  else if timeElapsed <? 1080 then 1080
  else if timeElapsed <? 1920 then 1920
  else if timeElapsed <? 3000 then 3000
  else if timeElapsed <? 4320 then 4320
  else - ((- timeElapsed) / 1960) * 1960.

Definition queueRecoverableErrors (errors : list CapturedValue) : M unit :=
  s <- get ;;
  match rd workInProgressRootRecoverableErrors s with
  | None => setVar workInProgressRootRecoverableErrors (Some errors)
  | Some queued => setVar workInProgressRootRecoverableErrors (Some (queued ++ errors))
  end.

Definition recoverFromConcurrentError (fuel : nat) (root : RootId)
    (errorRetryLanes : Lanes) : M RootExitStatus :=
  s <- get ;;
  let errorsFromFirstAttempt := rd workInProgressRootConcurrentErrors s in
  when (isRootDehydrated E root s)
    (rootWorkInProgress <- prepareFreshStack fuel root errorRetryLanes ;;
     modify (wrFiber rootWorkInProgress
               (fun f => set_flags (Z.lor (flags f) (ForceClientRender E)) f)) ;;
     when (DEV cfg) (call (ErrorHydratingContainer root))) ;;
  exitStatus <- renderRootSync fuel root errorRetryLanes ;;
  (if negb (RootExitStatus_eqb exitStatus RootErrored) then
     s <- get ;;
     let errorsFromSecondAttempt := rd workInProgressRootRecoverableErrors s in
     setVar workInProgressRootRecoverableErrors errorsFromFirstAttempt ;;
     match errorsFromSecondAttempt with
     | Some errors => queueRecoverableErrors errors
     | None => ret tt
     end
   else ret tt) ;;
  ret exitStatus.

(** The checks of one fiber in [isRenderConsistentWithExternalStores]:
    false as soon as a store no longer has the rendered value, or its
    [getSnapshot] throws. *)
Fixpoint storesAreConsistent (checks : list StoreCheck) : M bool :=
  match checks with
  | [] => ret true
  | check :: rest =>
      same <- tryCatch
                (snapshot <- call (CallGetSnapshot (getSnapshot check)) ;;
                 ret (String.eqb snapshot (renderedValue check)))
                (fun _ => ret false) ;;
      if same then storesAreConsistent rest else ret false
  end.

(** The inner [while (node.sibling === null)] loop: [None] when the function
    returns true from inside it, the node reached otherwise. *)
Fixpoint climbToSibling (fuel : nat) (finished node : FiberId) : M (option FiberId) :=
  s <- get ;;
  match sibling (fibers s node) with
  | Some _ => ret (Some node)
  | None =>
      match return_ (fibers s node) with
      | None => ret None
      | Some parent =>
          if Nat.eqb parent finished then ret None
          else
            match fuel with
            | O => noFuel
            | S fuel' => climbToSibling fuel' finished parent
            end
      end
  end.

Fixpoint isRenderConsistent_loop (fuel : nat) (finished node : FiberId) : M bool :=
  match fuel with
  | O => noFuel
  | S fuel' =>
      s <- get ;;
      consistent <-
        (if hasFlags (flags (fibers s node)) (StoreConsistency E) then
           match stores (fibers s node) with
           | Some checks => storesAreConsistent checks
           | None => ret true
           end
         else ret true) ;;
      if negb consistent then ret false
      else
        s <- get ;;
        match
          (if hasFlags (subtreeFlags (fibers s node)) (StoreConsistency E)
           then child (fibers s node) else None)
        with
        | Some c =>
            modify (wrFiber c (set_return_ (Some node))) ;;
            isRenderConsistent_loop fuel' finished c
        | None =>
            if Nat.eqb node finished then ret true
            else
              reached <- climbToSibling fuel finished node ;;
              match reached with
              | None => ret true
              | Some n =>
                  s <- get ;;
                  match sibling (fibers s n) with
                  | Some sib =>
                      modify (wrFiber sib (set_return_ (return_ (fibers s n)))) ;;
                      isRenderConsistent_loop fuel' finished sib
                  | None => ret true
                  end
              end
        end
  end.

Definition isRenderConsistentWithExternalStores (fuel : nat) (finished : FiberId)
  : M bool :=
  isRenderConsistent_loop fuel finished finished.

Definition finishConcurrentRender (fuel : nat) (root : RootId)
    (exitStatus : RootExitStatus) (l : Lanes) : M unit :=
  match exitStatus with
  | RootInProgress | RootFatalErrored =>
      throw "Root did not complete. This is a bug in React."%string
  | RootErrored =>
      s <- get ;;
      commitRoot fuel root (rd workInProgressRootRecoverableErrors s)
        (rd workInProgressTransitions s)
  | RootSuspended =>
      markRootSuspended root l ;;
      s <- get ;;
      if includesOnlyRetries E l && negb (shouldForceFlushFallbacksInDEV s) then
        let msUntilTimeout :=
          rd globalMostRecentFallbackTime s + FALLBACK_THROTTLE_MS - now E s in
        if 10 <? msUntilTimeout then
          let nextLanes := getNextLanes E root NoLanes s in
          if negb (nextLanes =? NoLanes) then ret tt
          else
            let suspended := suspendedLanes (roots s root) in
            if negb (isSubsetOfLanes suspended l) then
              eventTime <- requestEventTime ;;
              call (MarkRootPinged root suspended eventTime)
            else
              s <- get ;;
              handle <- call (ScheduleTimeout
                                (CommitRootFn root (rd workInProgressRootRecoverableErrors s)
                                   (rd workInProgressTransitions s))
                                msUntilTimeout) ;;
              modify (wrRoot root (set_timeoutHandle (Some handle)))
        else
          commitRoot fuel root (rd workInProgressRootRecoverableErrors s)
            (rd workInProgressTransitions s)
      else
        commitRoot fuel root (rd workInProgressRootRecoverableErrors s)
          (rd workInProgressTransitions s)
  | RootSuspendedWithDelay =>
      markRootSuspended root l ;;
      if includesOnlyTransitions E l then ret tt
      else
        s <- get ;;
        let timeElapsedMs := now E s - getMostRecentEventTime E root l s in
        let msUntilTimeout := jnd timeElapsedMs - timeElapsedMs in
        if negb (shouldForceFlushFallbacksInDEV s) && (10 <? msUntilTimeout) then
          handle <- call (ScheduleTimeout
                            (CommitRootFn root (rd workInProgressRootRecoverableErrors s)
                               (rd workInProgressTransitions s))
                            msUntilTimeout) ;;
          modify (wrRoot root (set_timeoutHandle (Some handle)))
        else
          commitRoot fuel root (rd workInProgressRootRecoverableErrors s)
            (rd workInProgressTransitions s)
  | RootCompleted =>
      s <- get ;;
      commitRoot fuel root (rd workInProgressRootRecoverableErrors s)
        (rd workInProgressTransitions s)
  | RootDidNotComplete => throw "Unknown root exit status."%string
  end.

(** Lines 1038-1044 (and 1088-1094, 1398-1404): a fatal error is rethrown to
    the caller, after the stack is reset. *)
Definition throwFatalError {A : Type} (fuel : nat) (root : RootId) (l : Lanes) : M A :=
  s <- get ;;
  let fatalError := rd workInProgressRootFatalError s in
  prepareFreshStack fuel root NoLanes ;;
  markRootSuspended root l ;;
  s <- get ;;
  ensureRootIsScheduled root (now E s) ;;
  throw (match fatalError with Some e => e | None => "null"%string end).

(** Lines 1026-1036 (and 1078-1086, 1385-1395): an errored render is tried
    once more, synchronously, when there are lanes to retry.  Returns the
    lanes and the exit status the caller goes on with. *)
Definition retryErroredRender (fuel : nat) (root : RootId) (l : Lanes)
    (exitStatus : RootExitStatus) : M (Lanes * RootExitStatus) :=
  if RootExitStatus_eqb exitStatus RootErrored then
    s <- get ;;
    let errorRetryLanes := getLanesToRetrySynchronouslyOnError E root s in
    if negb (errorRetryLanes =? NoLanes) then
      exitStatus <- recoverFromConcurrentError fuel root errorRetryLanes ;;
      ret (errorRetryLanes, exitStatus)
    else ret (l, exitStatus)
  else ret (l, exitStatus).

(** Lines 1057-1101: the render completed; check the external stores after
    a concurrent render, then commit or wait. *)
Definition finishCompletedRender (fuel : nat) (root : RootId) (l : Lanes)
    (exitStatus : RootExitStatus) : M unit :=
  let renderWasConcurrent := negb (includesBlockingLane E root l) in
  s <- get ;;
  let finished := alternate (fibers s (current (roots s root))) in
  consistent <-
    (if renderWasConcurrent then
       match finished with
       | Some f => isRenderConsistentWithExternalStores fuel f
       | None => throw "TypeError: Cannot read properties of null"%string
       end
     else ret true) ;;
  r <-
    (if negb consistent then
       exitStatus <- renderRootSync fuel root l ;;
       r <- retryErroredRender fuel root l exitStatus ;;
       (if RootExitStatus_eqb (snd r) RootFatalErrored
        then throwFatalError fuel root (fst r)
        else ret r)
     else ret (l, exitStatus)) ;;
  modify (wrRoot root (fun rt =>
    set_finishedLanes (fst r) (set_finishedWork finished rt))) ;;
  finishConcurrentRender fuel root (snd r) (fst r).

(** Lines 1105-1112: the root is scheduled again, and the task continues if
    it is still the one scheduled for the root. *)
Definition performConcurrentWorkOnRoot_return (root : RootId)
    (originalCallbackNode : option CallbackNode) : M (option ScheduledFn) :=
  s <- get ;;
  ensureRootIsScheduled root (now E s) ;;
  s <- get ;;
  if same_node (callbackNode (roots s root)) originalCallbackNode
  then ret (Some (PerformConcurrentWorkOnRootFn root))
  else ret None.

(** Lines 1024-1112: what [performConcurrentWorkOnRoot] does with the exit
    status of the render. *)
Definition performConcurrentWorkOnRoot_exit (fuel : nat) (root : RootId)
    (originalCallbackNode : option CallbackNode) (l : Lanes)
    (exitStatus : RootExitStatus) : M (option ScheduledFn) :=
  (if negb (RootExitStatus_eqb exitStatus RootInProgress) then
     r <- retryErroredRender fuel root l exitStatus ;;
     if RootExitStatus_eqb (snd r) RootFatalErrored then throwFatalError fuel root (fst r)
     else if RootExitStatus_eqb (snd r) RootDidNotComplete
     then markRootSuspended root (fst r)
     else finishCompletedRender fuel root (fst r) (snd r)
   else ret tt) ;;
  performConcurrentWorkOnRoot_return root originalCallbackNode.

Definition performConcurrentWorkOnRoot (fuel : nat) (root : RootId) (didTimeout : bool)
  : M (option ScheduledFn) :=
  setVar currentEventTime NoTimestamp ;;
  setVar currentEventTransitionLane NoLanes ;;
  s <- get ;;
  if negb (Z.land (rd executionContext s) (Z.lor RenderContext CommitContext) =? NoContext)
  then throw "Should not already be working."%string
  else
    let originalCallbackNode := callbackNode (roots s root) in
    didFlushPassiveEffects <- flushPassiveEffects fuel ;;
    s <- get ;;
    if didFlushPassiveEffects
       && negb (same_node (callbackNode (roots s root)) originalCallbackNode)
    then ret None
    else
      let l :=
        getNextLanes E root
          (if same_id (Some root) (rd workInProgressRoot s)
           then rd workInProgressRootRenderLanes s else NoLanes) s in
      if l =? NoLanes then ret None
      else
        let shouldTimeSlice :=
          negb (includesBlockingLane E root l)
          && negb (includesExpiredLane E root l s)
          && (disableSchedulerTimeoutInWorkLoop cfg || negb didTimeout) in
        exitStatus <-
          (if shouldTimeSlice then renderRootConcurrent fuel root l
           else renderRootSync fuel root l) ;;
        performConcurrentWorkOnRoot_exit fuel root originalCallbackNode l exitStatus.

(** [performSyncWorkOnRoot], its re-entrant calls being
    [performSyncWorkOnRoot_rec]. *)
Definition performSyncWorkOnRoot_body (fuel : nat) (root : RootId) : M unit :=
  s <- get ;;
  if negb (Z.land (rd executionContext s) (Z.lor RenderContext CommitContext) =? NoContext)
  then throw "Should not already be working."%string
  else
    flushPassiveEffects fuel ;;
    s <- get ;;
    let l := getNextLanes E root NoLanes s in
    if negb (includesSomeLane l (SyncLane E)) then
      ensureRootIsScheduled root (now E s)
    else
      exitStatus <- renderRootSync fuel root l ;;
      s <- get ;;
      r <-
        (match tag (roots s root) with
         | LegacyRoot => ret (l, exitStatus)
         | ConcurrentRoot => retryErroredRender fuel root l exitStatus
         end) ;;
      if RootExitStatus_eqb (snd r) RootFatalErrored then throwFatalError fuel root (fst r)
      else if RootExitStatus_eqb (snd r) RootDidNotComplete
      then throw "Root did not complete. This is a bug in React."%string
      else
        s <- get ;;
        let finished := alternate (fibers s (current (roots s root))) in
        modify (wrRoot root (fun rt =>
          set_finishedLanes (fst r) (set_finishedWork finished rt))) ;;
        s <- get ;;
        commitRoot fuel root (rd workInProgressRootRecoverableErrors s)
          (rd workInProgressTransitions s) ;;
        s <- get ;;
        ensureRootIsScheduled root (now E s).

(** *** Batching and flushing

    The functions that run code of the caller at a given priority; [fn] is
    that code. *)

Definition deferredUpdates {A : Type} (fn : M A) : M A :=
  s <- get ;;
  let previousPriority := rd currentUpdatePriority s in
  let prevTransition := rd batchConfigTransition s in
  tryFinally
    (setVar batchConfigTransition None ;;
     setVar currentUpdatePriority (DefaultEventPriority E) ;;
     fn)
    (setVar currentUpdatePriority previousPriority ;;
     setVar batchConfigTransition prevTransition).

Definition discreteUpdates {A : Type} (fn : M A) : M A :=
  s <- get ;;
  let previousPriority := rd currentUpdatePriority s in
  let prevTransition := rd batchConfigTransition s in
  tryFinally
    (setVar batchConfigTransition None ;;
     setVar currentUpdatePriority (DiscreteEventPriority E) ;;
     fn)
    (setVar currentUpdatePriority previousPriority ;;
     setVar batchConfigTransition prevTransition ;;
     s <- get ;;
     when (rd executionContext s =? NoContext) resetRenderTimer).

(** [flushSync(fn)]; [fn] may be missing, and [undefined] is then returned. *)
Definition flushSync {A : Type} (fuel : nat) (fn : option (M A)) : M (option A) :=
  s <- get ;;
  when (match rd rootWithPendingPassiveEffects s with
        | Some root =>
            match tag (roots s root) with
            | LegacyRoot =>
                Z.land (rd executionContext s) (Z.lor RenderContext CommitContext)
                =? NoContext
            | ConcurrentRoot => false
            end
        | None => false
        end)
    (flushPassiveEffects fuel ;; ret tt) ;;
  s <- get ;;
  let prevExecutionContext := rd executionContext s in
  setVar executionContext (Z.lor prevExecutionContext BatchedContext) ;;
  s <- get ;;
  let prevTransition := rd batchConfigTransition s in
  let previousPriority := rd currentUpdatePriority s in
  tryFinally
    (setVar batchConfigTransition None ;;
     setVar currentUpdatePriority (DiscreteEventPriority E) ;;
     match fn with
     | Some f => a <- f ;; ret (Some a)
     | None => ret None
     end)
    (setVar currentUpdatePriority previousPriority ;;
     setVar batchConfigTransition prevTransition ;;
     setVar executionContext prevExecutionContext ;;
     s <- get ;;
     when (Z.land (rd executionContext s) (Z.lor RenderContext CommitContext) =? NoContext)
       (flushSyncCallbacks fuel)).

Definition flushControlled {A : Type} (fuel : nat) (fn : M A) : M unit :=
  s <- get ;;
  let prevExecutionContext := rd executionContext s in
  setVar executionContext (Z.lor prevExecutionContext BatchedContext) ;;
  s <- get ;;
  let prevTransition := rd batchConfigTransition s in
  let previousPriority := rd currentUpdatePriority s in
  tryFinally
    (setVar batchConfigTransition None ;;
     setVar currentUpdatePriority (DiscreteEventPriority E) ;;
     fn ;;
     ret tt)
    (setVar currentUpdatePriority previousPriority ;;
     setVar batchConfigTransition prevTransition ;;
     setVar executionContext prevExecutionContext ;;
     s <- get ;;
     when (rd executionContext s =? NoContext)
       (resetRenderTimer ;; flushSyncCallbacks fuel)).

(** *** Reasoning about computations *)

Definition prepend {A : Type} (t : list Event) (o : Outcome A) : Outcome A :=
  mkOutcome (res o) (final o) (t ++ trace o).

Lemma prepend_nil {A : Type} (o : Outcome A) : prepend [] o = o.
Proof. now destruct o. Qed.

Lemma prepend_prepend {A : Type} (t u : list Event) (o : Outcome A) :
  prepend t (prepend u o) = prepend (t ++ u) o.
Proof. unfold prepend. cbn. now rewrite app_assoc. Qed.

Lemma res_prepend {A : Type} (t : list Event) (o : Outcome A) : res (prepend t o) = res o.
Proof. reflexivity. Qed.

Lemma final_prepend {A : Type} (t : list Event) (o : Outcome A) :
  final (prepend t o) = final o.
Proof. reflexivity. Qed.

Lemma trace_prepend {A : Type} (t : list Event) (o : Outcome A) :
  trace (prepend t o) = t ++ trace o.
Proof. reflexivity. Qed.

Lemma run_bind {A B : Type} (m : M A) (k : A -> M B) (s : State) :
  bind m k s =
  match res (m s) with
  | Ret a => prepend (trace (m s)) (k a (final (m s)))
  | Thrown e => mkOutcome (Thrown e) (final (m s)) (trace (m s))
  | NoFuel => mkOutcome NoFuel (final (m s)) (trace (m s))
  end.
Proof. reflexivity. Qed.

Lemma bind_ret {A B : Type} (a : A) (k : A -> M B) (s : State) :
  bind (ret a) k s = k a s.
Proof. rewrite run_bind. cbn. apply prepend_nil. Qed.

Lemma bind_get {B : Type} (k : State -> M B) (s : State) : bind get k s = k s s.
Proof. rewrite run_bind. cbn. apply prepend_nil. Qed.

Lemma bind_modify {B : Type} (f : State -> State) (k : unit -> M B) (s : State) :
  bind (modify f) k s = k tt (f s).
Proof. rewrite run_bind. cbn. apply prepend_nil. Qed.

Lemma bind_setVar {B : Type} (x : Var) (v : TypeOf x) (k : unit -> M B) (s : State) :
  bind (setVar x v) k s = k tt (wr x v s).
Proof. apply bind_modify. Qed.

Lemma bind_mark {B : Type} (e : Event) (k : unit -> M B) (s : State) :
  bind (mark e) k s = prepend [e] (k tt s).
Proof. reflexivity. Qed.

Lemma bind_throw {A B : Type} (e : JsValue) (k : A -> M B) (s : State) :
  bind (throw e) k s = throw e s.
Proof. reflexivity. Qed.

Lemma bind_noFuel {A B : Type} (k : A -> M B) (s : State) :
  bind noFuel k s = noFuel s.
Proof. reflexivity. Qed.

Lemma run_call {A : Type} (c : Ext A) (s : State) :
  call c s = mkOutcome (fst (world E A c s)) (snd (world E A c s)) [Called c].
Proof. unfold call. now destruct (world E A c s). Qed.

Lemma bind_call {A B : Type} (c : Ext A) (k : A -> M B) (s : State) :
  bind (call c) k s =
  match fst (world E A c s) with
  | Ret a => prepend [Called c] (k a (snd (world E A c s)))
  | Thrown e => mkOutcome (Thrown e) (snd (world E A c s)) [Called c]
  | NoFuel => mkOutcome NoFuel (snd (world E A c s)) [Called c]
  end.
Proof. rewrite run_bind, run_call. reflexivity. Qed.

Lemma bind_bind {A B C : Type} (m : M A) (k : A -> M B) (h : B -> M C) (s : State) :
  bind (bind m k) h s = bind m (fun a => bind (k a) h) s.
Proof.
  rewrite !run_bind. destruct (res (m s)) as [a| |]; try reflexivity.
  cbn [res final trace prepend]. rewrite run_bind.
  destruct (res (k a (final (m s)))); cbn; try reflexivity.
  unfold prepend. cbn. now rewrite app_assoc.
Qed.

Lemma bind_when_true {B : Type} (m : M unit) (k : unit -> M B) (s : State) :
  bind (when true m) k s = bind m k s.
Proof. reflexivity. Qed.

Lemma bind_when_false {B : Type} (m : M unit) (k : unit -> M B) (s : State) :
  bind (when false m) k s = k tt s.
Proof. apply bind_ret. Qed.

(** A run that returns went through both halves of a [bind]. *)
Lemma bind_returns {A B : Type} (m : M A) (k : A -> M B) (s : State) (b : B) :
  res (bind m k s) = Ret b ->
  exists a, res (m s) = Ret a /\
            res (k a (final (m s))) = Ret b /\
            final (bind m k s) = final (k a (final (m s))) /\
            trace (bind m k s) = trace (m s) ++ trace (k a (final (m s))).
Proof.
  rewrite run_bind. destruct (res (m s)) as [a| |]; cbn; try discriminate.
  intros H. exists a. auto.
Qed.

(** The trace of the first half is a prefix of the trace of a [bind]. *)
Lemma bind_trace_prefix {A B : Type} (m : M A) (k : A -> M B) (s : State) :
  exists rest, trace (bind m k s) = trace (m s) ++ rest.
Proof.
  rewrite run_bind. destruct (res (m s)) as [a| |]; cbn.
  - eexists. reflexivity.
  - exists []. now rewrite app_nil_r.
  - exists []. now rewrite app_nil_r.
Qed.

Lemma rd_wr_same (x : Var) (v : TypeOf x) (s : State) : rd x (wr x v s) = v.
Proof.
  unfold rd, wr. cbn. destruct (Var_eq_dec x x) as [e|n]; [|contradiction].
  now rewrite <- (Eqdep_dec.eq_rect_eq_dec Var_eq_dec).
Qed.

Lemma rd_wr_other (x y : Var) (v : TypeOf x) (s : State) :
  x <> y -> rd y (wr x v s) = rd y s.
Proof.
  intros Hne. unfold rd, wr. cbn. destruct (Var_eq_dec x y) as [e|n]; [contradiction|easy].
Qed.

Lemma upd_at {A : Type} (h : nat) (v : A) (m : nat -> A) : upd h v m h = v.
Proof. unfold upd. now rewrite Nat.eqb_refl. Qed.

Lemma upd_away {A : Type} (h k : nat) (v : A) (m : nat -> A) :
  k <> h -> upd h v m k = m k.
Proof. intros Hne. unfold upd. now apply Nat.eqb_neq in Hne as ->. Qed.

Lemma same_id_true (a b : option nat) : same_id a b = true <-> a = b.
Proof.
  destruct a as [x|], b as [y|]; cbn; try easy.
  rewrite Nat.eqb_eq. split; [now intros ->|now intros [= ->]].
Qed.

Ltac step :=
  first
    [ rewrite bind_bind
    | rewrite bind_get
    | rewrite bind_setVar
    | rewrite bind_modify
    | rewrite bind_mark
    | rewrite bind_ret
    | rewrite bind_throw
    | rewrite bind_when_true
    | rewrite bind_when_false ].

Ltac steps := repeat step.

(** The answer of the environment to a call, by cases. *)
Ltac answer :=
  rewrite bind_call;
  match goal with
  | |- context [world E ?A ?c ?s] =>
      let r := fresh "r" in
      let s' := fresh "s" in
      destruct (world E A c s) as [[r|r|] s']; cbn [fst snd]
  end.

(** *** The passes of the commit phase *)

(** The events of a commit with effects, [blur] telling whether
    [afterActiveInstanceBlur] is called. *)
Definition passesTrace (root : RootId) (finished : FiberId) (l : Lanes) (blur : bool)
  : list Event :=
  [Called (CommitBeforeMutationEffects root finished);
   Called (CommitMutationEffects root finished l)]
  ++ (if blur then [Called AfterActiveInstanceBlur] else [])
  ++ [Called (ResetAfterCommit root);
      AssignCurrent root finished;
      Called (CommitLayoutEffects finished root l);
      Called RequestPaint].


Lemma bind_returns_In_left {A B : Type} (m : M A) (k : A -> M B) (s : State) (b : B)
    (e : Event) :
  res (bind m k s) = Ret b -> In e (trace (m s)) -> In e (trace (bind m k s)).
Proof.
  intros Hr Hin. destruct (bind_returns _ _ _ _ Hr) as (a & _ & _ & _ & ->).
  apply in_or_app. now left.
Qed.

Lemma passes_publish (root : RootId) (finished : FiberId) (l : Lanes) (s : State) :
  res (commitRootImpl_passes root finished l s) = Ret tt ->
  In (AssignCurrent root finished) (trace (commitRootImpl_passes root finished l s)).
Proof.
  unfold commitRootImpl_passes. rewrite bind_get.
  destruct (hasFlags (subtreeFlags (fibers s finished)) effectsMask
            || hasFlags (flags (fibers s finished)) effectsMask).
  - steps.
    answer; [|discriminate..].
    answer; [|discriminate..].
    assert (Hw : forall B (k : unit -> M B) st,
               bind (when (enableCreateEventHandleAPI cfg)
                       (when r (call AfterActiveInstanceBlur))) k st =
               bind (if enableCreateEventHandleAPI cfg && r
                     then call AfterActiveInstanceBlur else ret tt) k st).
    { intros B k st. destruct (enableCreateEventHandleAPI cfg), r; reflexivity. }
    rewrite Hw. clear Hw.
    destruct (enableCreateEventHandleAPI cfg && r)%bool.
    + answer; [|discriminate..].
      answer; [|discriminate..].
      steps.
      answer; [|discriminate..].
      answer; [|discriminate..].
      steps. intros _. cbn. auto 12.
    + steps.
      answer; [|discriminate..].
      steps.
      answer; [|discriminate..].
      answer; [|discriminate..].
      steps. intros _. cbn. auto 12.
  - steps. intros _. cbn. auto.
Qed.


(** *** The count of nested updates *)

(** The counter and the tracked root after a sequence of commits on [root],
    [ls] being the lanes each commit leaves pending on it. *)
Definition afterCommits (root : RootId) (ls : list Lanes) (count : Z)
    (tracked : option RootId) : Z * option RootId :=
  fold_left (fun acc l => countNestedUpdate root l (fst acc) (snd acc)) ls (count, tracked).

Lemma afterCommits_tracked (root : RootId) (ls : list Lanes) (count : Z) :
  (forall l, In l ls -> includesSomeLane l (SyncLane E) = true) ->
  afterCommits root ls count (Some root) = (count + Z.of_nat (List.length ls), Some root).
Proof.
  unfold afterCommits. revert count.
  induction ls as [|l ls IH]; intros count Hsync; cbn [fold_left List.length].
  - f_equal. cbn. lia.
  - unfold countNestedUpdate at 2. cbn [fst snd].
    rewrite (Hsync l (or_introl eq_refl)).
    assert (Hid : same_id (Some root) (Some root) = true) by now apply same_id_true.
    rewrite Hid. rewrite IH by (intros; apply Hsync; now right).
    f_equal. lia.
Qed.

Lemma afterCommits_fresh (root : RootId) (l : Lanes) (ls : list Lanes) (count : Z)
    (tracked : option RootId) :
  tracked <> Some root ->
  (forall l', In l' (l :: ls) -> includesSomeLane l' (SyncLane E) = true) ->
  afterCommits root (l :: ls) count tracked = (Z.of_nat (List.length ls), Some root).
Proof.
  intros Hne Hsync. unfold afterCommits. cbn [fold_left].
  unfold countNestedUpdate at 2. cbn [fst snd].
  rewrite (Hsync l (or_introl eq_refl)).
  destruct (same_id (Some root) tracked) eqn:Hid.
  - apply same_id_true in Hid. congruence.
  - apply afterCommits_tracked. intros; apply Hsync; now right.
Qed.


(** *** Suspended renders *)

Lemma markRootSuspended_run (root : RootId) (l : Lanes) (s : State) :
  markRootSuspended root l s =
  call (MarkRootSuspended_dontCallThisOneDirectly root
          (removeLanes (removeLanes l (rd workInProgressRootPingedLanes s))
             (rd workInProgressRootInterleavedUpdatedLanes s))) s.
Proof. unfold markRootSuspended. now rewrite bind_get. Qed.


(** *** Computations that only call out *)

Definition isCall (e : Event) : Prop :=
  match e with
  | Called _ => True
  | _ => False
  end.

(** [Quiet m]: a run of [m] enters no render, enters no commit and assigns
    no [root.current]; its events are calls to the environment. *)
Definition Quiet {A : Type} (m : M A) : Prop :=
  forall s, Forall isCall (trace (m s)).

Lemma Quiet_ret {A : Type} (a : A) : Quiet (ret a).
Proof. intros s. constructor. Qed.

Lemma Quiet_get : Quiet get.
Proof. intros s. constructor. Qed.

Lemma Quiet_modify (f : State -> State) : Quiet (modify f).
Proof. intros s. constructor. Qed.

Lemma Quiet_setVar (x : Var) (v : TypeOf x) : Quiet (setVar x v).
Proof. intros s. constructor. Qed.

Lemma Quiet_throw {A : Type} (e : JsValue) : Quiet (@throw A e).
Proof. intros s. constructor. Qed.

Lemma Quiet_noFuel {A : Type} : Quiet (@noFuel A).
Proof. intros s. constructor. Qed.

Lemma Quiet_call {A : Type} (c : Ext A) : Quiet (call c).
Proof. intros s. rewrite run_call. cbn. repeat constructor. Qed.

Lemma Quiet_bind {A B : Type} (m : M A) (k : A -> M B) :
  Quiet m -> (forall a, Quiet (k a)) -> Quiet (bind m k).
Proof.
  intros Hm Hk s. rewrite run_bind.
  destruct (res (m s)) as [a| |]; cbn; [|apply Hm..].
  apply Forall_app. split; [apply Hm|apply Hk].
Qed.

Lemma Quiet_tryCatch {A : Type} (m : M A) (h : JsValue -> M A) :
  Quiet m -> (forall e, Quiet (h e)) -> Quiet (tryCatch m h).
Proof.
  intros Hm Hh s. unfold tryCatch.
  destruct (res (m s)) as [a|e|] eqn:Hr; cbn; [apply Hm| |apply Hm].
  apply Forall_app. split; [apply Hm|apply Hh].
Qed.

Lemma Quiet_when (b : bool) (m : M unit) : Quiet m -> Quiet (when b m).
Proof. intros Hm. destruct b; [exact Hm|apply Quiet_ret]. Qed.

Create HintDb quiet.

Ltac quiet :=
  repeat
    first
      [ solve [auto with quiet]
      | apply Quiet_ret
      | apply Quiet_get
      | apply Quiet_setVar
      | apply Quiet_modify
      | apply Quiet_throw
      | apply Quiet_noFuel
      | apply Quiet_call
      | apply Quiet_when
      | apply Quiet_bind; [|intros ?]
      | apply Quiet_tryCatch; [|intros ?]
      | assumption
      | match goal with
        | |- Quiet (if ?b then _ else _) => destruct b
        | |- Quiet (match ?x with _ => _ end) => destruct x
        | |- Quiet (let _ := _ in _) => cbv zeta
        end ].

Lemma Quiet_markRootSuspended root l : Quiet (markRootSuspended root l).
Proof. unfold markRootSuspended. quiet. Qed.
#[local] Hint Resolve Quiet_markRootSuspended : quiet.

Lemma Quiet_unwindInterrupted fuel w : Quiet (unwindInterrupted fuel w).
Proof.
  revert w. induction fuel as [|fuel IH]; intros [w|]; cbn; quiet.
Qed.
#[local] Hint Resolve Quiet_unwindInterrupted : quiet.

Lemma Quiet_prepareFreshStack fuel root l : Quiet (prepareFreshStack fuel root l).
Proof. unfold prepareFreshStack. quiet. Qed.
#[local] Hint Resolve Quiet_prepareFreshStack : quiet.

Lemma Quiet_scheduleCallback p fn : Quiet (scheduleCallback p fn).
Proof. unfold scheduleCallback. quiet. Qed.
#[local] Hint Resolve Quiet_scheduleCallback : quiet.

Lemma Quiet_cancelCallback node : Quiet (cancelCallback node).
Proof. unfold cancelCallback. quiet. Qed.
#[local] Hint Resolve Quiet_cancelCallback : quiet.

Lemma Quiet_scheduleSyncCallback cb : Quiet (scheduleSyncCallback cb).
Proof. unfold scheduleSyncCallback. quiet. Qed.
#[local] Hint Resolve Quiet_scheduleSyncCallback : quiet.

Lemma Quiet_ensureRootIsScheduled root t : Quiet (ensureRootIsScheduled root t).
Proof.
  unfold ensureRootIsScheduled, scheduleLegacySyncCallback. quiet.
Qed.
#[local] Hint Resolve Quiet_ensureRootIsScheduled : quiet.

Lemma Quiet_completeUnitOfWork fuel w : Quiet (completeUnitOfWork fuel w).
Proof.
  unfold completeUnitOfWork. revert w.
  induction fuel as [|fuel IH]; intros w; cbn; quiet.
Qed.
#[local] Hint Resolve Quiet_completeUnitOfWork : quiet.

Lemma Quiet_performUnitOfWork fuel w : Quiet (performUnitOfWork fuel w).
Proof. unfold performUnitOfWork. quiet. Qed.
#[local] Hint Resolve Quiet_performUnitOfWork : quiet.

Lemma Quiet_handleError bound fuel root v : Quiet (handleError bound fuel root v).
Proof.
  revert v. induction fuel as [|fuel IH]; intros v; cbn; quiet.
Qed.
#[local] Hint Resolve Quiet_handleError : quiet.

Lemma Quiet_workLoopSync fuel : Quiet (workLoopSync fuel).
Proof.
  unfold workLoopSync. generalize fuel at 1. intros bound.
  induction fuel as [|fuel IH]; cbn; quiet.
Qed.
#[local] Hint Resolve Quiet_workLoopSync : quiet.

Lemma Quiet_workLoopConcurrent fuel : Quiet (workLoopConcurrent fuel).
Proof.
  unfold workLoopConcurrent. generalize fuel at 1. intros bound.
  induction fuel as [|fuel IH]; cbn; quiet.
Qed.
#[local] Hint Resolve Quiet_workLoopConcurrent : quiet.

Lemma Quiet_renderLoop workLoop bound fuel root :
  Quiet workLoop -> Quiet (renderLoop workLoop bound fuel root).
Proof.
  intros Hw. induction fuel as [|fuel IH]; cbn; quiet.
Qed.
#[local] Hint Resolve Quiet_renderLoop : quiet.

(** *** Errors that no fiber handles *)

Lemma bind_never_left {A B : Type} (m : M A) (k : A -> M B) (s : State) :
  (forall a, res (m s) <> Ret a) ->
  bind m k s =
  mkOutcome (match res (m s) with Thrown e => Thrown e | _ => NoFuel end)
    (final (m s)) (trace (m s)).
Proof.
  intros Hm. rewrite run_bind. destruct (res (m s)) as [a| |]; try reflexivity.
  now destruct (Hm a).
Qed.

Lemma bind_never_right {A B : Type} (m : M A) (k : A -> M B) (s : State) :
  (forall a s' b, res (k a s') <> Ret b) -> forall b, res (bind m k s) <> Ret b.
Proof.
  intros Hk b. rewrite run_bind. destruct (res (m s)) as [a| |]; cbn; try discriminate.
  apply Hk.
Qed.

Lemma throwFatalError_never_returns {A : Type} fuel root l s (a : A) :
  res (@throwFatalError A fuel root l s) <> Ret a.
Proof.
  unfold throwFatalError. rewrite bind_get.
  apply bind_never_right. intros _ s1 b1.
  apply bind_never_right. intros _ s2 b2.
  rewrite bind_get.
  apply bind_never_right. intros _ s3 b3. discriminate.
Qed.

Lemma Quiet_throwFatalError {A : Type} fuel root l : Quiet (@throwFatalError A fuel root l).
Proof. unfold throwFatalError. quiet. Qed.

Definition fatalValue (s : State) : JsValue :=
  match rd workInProgressRootFatalError s with
  | Some e => e
  | None => "null"%string
  end.

Lemma bind_run_returned {A B : Type} (m : M A) (k : A -> M B) (s : State) (a : A) :
  res (m s) = Ret a -> bind m k s = prepend (trace (m s)) (k a (final (m s))).
Proof. intros Hr. rewrite run_bind. now rewrite Hr. Qed.

Lemma throwFatalError_run {A : Type} fuel root l s :
  let o2 := (prepareFreshStack fuel root NoLanes ;;
             markRootSuspended root l ;;
             s' <- get ;;
             ensureRootIsScheduled root (now E s')) s in
  res o2 = Ret tt ->
  @throwFatalError A fuel root l s = mkOutcome (Thrown (fatalValue s)) (final o2) (trace o2).
Proof.
  cbv zeta. intros Hret. unfold throwFatalError. rewrite bind_get.
  destruct (bind_returns _ _ _ _ Hret) as (w & Hp & Hret1 & Hf1 & Ht1).
  destruct (bind_returns _ _ _ _ Hret1) as ([] & Hm & Hret2 & Hf2 & Ht2).
  rewrite bind_get in Hret2, Hf2, Ht2.
  rewrite Hf1, Ht1, Hf2, Ht2.
  rewrite (bind_run_returned _ _ _ _ Hp), (bind_run_returned _ _ _ _ Hm), bind_get.
  rewrite (bind_run_returned _ _ _ _ Hret2).
  unfold prepend, throw, fatalValue. cbn [res final trace]. now rewrite app_nil_r.
Qed.

Lemma exit_fatal fuel root cb l s :
  performConcurrentWorkOnRoot_exit fuel root cb l RootFatalErrored s =
  bind (throwFatalError fuel root l)
    (fun _ : unit => performConcurrentWorkOnRoot_return root cb) s.
Proof.
  unfold performConcurrentWorkOnRoot_exit, retryErroredRender. cbn [RootExitStatus_eqb negb].
  now rewrite bind_bind, bind_ret.
Qed.

Lemma exit_didNotComplete fuel root cb l s :
  performConcurrentWorkOnRoot_exit fuel root cb l RootDidNotComplete s =
  bind (markRootSuspended root l)
    (fun _ : unit => performConcurrentWorkOnRoot_return root cb) s.
Proof.
  unfold performConcurrentWorkOnRoot_exit, retryErroredRender. cbn [RootExitStatus_eqb negb].
  now rewrite bind_bind, bind_ret.
Qed.

Lemma Quiet_performConcurrentWorkOnRoot_return root cb :
  Quiet (performConcurrentWorkOnRoot_return root cb).
Proof. unfold performConcurrentWorkOnRoot_return. quiet. Qed.


(** *** The external stores *)

Lemma Quiet_storesAreConsistent checks : Quiet (storesAreConsistent checks).
Proof. induction checks as [|c rest IH]; cbn; quiet. Qed.
#[local] Hint Resolve Quiet_storesAreConsistent : quiet.

Lemma Quiet_climbToSibling fuel finished node : Quiet (climbToSibling fuel finished node).
Proof.
  revert node. induction fuel as [|fuel IH]; intros node; cbn; quiet.
Qed.
#[local] Hint Resolve Quiet_climbToSibling : quiet.

Lemma Quiet_isRenderConsistent_loop fuel finished node :
  Quiet (isRenderConsistent_loop fuel finished node).
Proof.
  revert node. induction fuel as [|fuel IH]; intros node; cbn; quiet.
Qed.
#[local] Hint Resolve Quiet_isRenderConsistent_loop : quiet.

Lemma Quiet_isRenderConsistentWithExternalStores fuel finished :
  Quiet (isRenderConsistentWithExternalStores fuel finished).
Proof. unfold isRenderConsistentWithExternalStores. quiet. Qed.
#[local] Hint Resolve Quiet_isRenderConsistentWithExternalStores : quiet.

(** A synchronous render is entered once, and then only calls out. *)
Lemma renderRootSync_trace fuel root l s :
  exists calls,
    trace (renderRootSync fuel root l s) = EnterRenderRootSync root l :: calls /\
    Forall isCall calls.
Proof.
  unfold renderRootSync. rewrite bind_mark. unfold prepend. cbn [trace app].
  eexists. split; [reflexivity|].
  match goal with
  | |- Forall isCall (trace (?m s)) => assert (Hq : Quiet m) by quiet; apply Hq
  end.
Qed.

(** When the stores of a fiber are found consistent, each [getSnapshot] has
    returned the value that was rendered. *)
Lemma storesAreConsistent_sound checks :
  forall s, res (storesAreConsistent checks s) = Ret true ->
  forall c, In c checks ->
  exists s0,
    fst (world E _ (CallGetSnapshot (getSnapshot c)) s0) = Ret (renderedValue c).
Proof.
  induction checks as [|c0 rest IH]; intros s Hres c Hin; [destruct Hin|].
  cbn [storesAreConsistent] in Hres.
  destruct (bind_returns _ _ _ _ Hres) as (same & Hsame & Hrest & _).
  destruct same; [|discriminate Hrest].
  destruct Hin as [<- | Hin]; [|exact (IH _ Hrest c Hin)].
  exists s. unfold tryCatch in Hsame. rewrite bind_call in Hsame.
  destruct (fst (world E _ (CallGetSnapshot (getSnapshot c0)) s)) as [v|e|];
    cbn in Hsame; try discriminate Hsame.
  injection Hsame as Heq. apply String.eqb_eq in Heq. now subst v.
Qed.

(** The statuses of a render that completed. *)
Definition completed (status : RootExitStatus) : Prop :=
  status = RootCompleted \/ status = RootSuspended \/ status = RootSuspendedWithDelay.

Lemma retryErroredRender_other fuel root l status s :
  status <> RootErrored -> retryErroredRender fuel root l status s = ret (l, status) s.
Proof. intros Hne. unfold retryErroredRender. now destruct status. Qed.

Lemma exit_completed fuel root cb l status s :
  completed status ->
  performConcurrentWorkOnRoot_exit fuel root cb l status s =
  bind (finishCompletedRender fuel root l status)
    (fun _ : unit => performConcurrentWorkOnRoot_return root cb) s.
Proof.
  intros [-> | [-> | ->]]; unfold performConcurrentWorkOnRoot_exit, retryErroredRender;
    cbn [RootExitStatus_eqb negb]; now rewrite bind_bind, bind_ret.
Qed.

(** Lines 1093-1097: the finished tree and its lanes are stored on the root
    and handed, with the exit status, to [finishConcurrentRender]. *)
Definition handOver (fuel : nat) (root : RootId) (cb : option CallbackNode)
    (finished : FiberId) (status : RootExitStatus) (l : Lanes) : M (option ScheduledFn) :=
  modify (wrRoot root (fun rt =>
    set_finishedLanes l (set_finishedWork (Some finished) rt))) ;;
  finishConcurrentRender fuel root status l ;;
  performConcurrentWorkOnRoot_return root cb.

(** What follows the check of the stores, by its result. *)
Lemma finishCompletedRender_checked fuel root cb l status finished s :
  includesBlockingLane E root l = false ->
  alternate (fibers s (current (roots s root))) = Some finished ->
  bind (finishCompletedRender fuel root l status)
    (fun _ : unit => performConcurrentWorkOnRoot_return root cb) s =
  bind (isRenderConsistentWithExternalStores fuel finished)
    (fun consistent =>
       if consistent then handOver fuel root cb finished status l
       else
         status' <- renderRootSync fuel root l ;;
         r <- retryErroredRender fuel root l status' ;;
         r <- (if RootExitStatus_eqb (snd r) RootFatalErrored
               then throwFatalError fuel root (fst r) else ret r) ;;
         handOver fuel root cb finished (snd r) (fst r)) s.
Proof.
  intros Hblocking Halt. unfold finishCompletedRender.
  rewrite Hblocking. cbn [negb]. rewrite bind_bind, bind_get. cbv zeta.
  rewrite Halt. rewrite !bind_bind. rewrite !run_bind.
  destruct (res (isRenderConsistentWithExternalStores fuel finished s)) as [[|]| |];
    try reflexivity; f_equal; cbn [negb].
  rewrite !bind_bind. unfold handOver.
  rewrite !run_bind.
  destruct (res (renderRootSync fuel root l _)) as [status'| |]; try reflexivity.
  f_equal. rewrite !bind_bind, !run_bind.
  destruct (res (retryErroredRender fuel root l status' _)) as [r| |]; try reflexivity.
Qed.


(** *** The retry of an errored render *)

Lemma bind_trace_quiet {A B : Type} (m : M A) (k : A -> M B) (s : State) :
  (forall a, Quiet (k a)) ->
  exists rest, trace (bind m k s) = trace (m s) ++ rest /\ Forall isCall rest.
Proof.
  intros Hk. rewrite run_bind. destruct (res (m s)) as [a| |]; cbn.
  - eexists. split; [reflexivity|apply Hk].
  - exists []. split; [now rewrite app_nil_r|constructor].
  - exists []. split; [now rewrite app_nil_r|constructor].
Qed.

Lemma bind_cong_l {A B : Type} (m m' : M A) (k : A -> M B) (s : State) :
  m s = m' s -> bind m k s = bind m' k s.
Proof. intros H. now rewrite !run_bind, H. Qed.

Lemma Quiet_queueRecoverableErrors errors : Quiet (queueRecoverableErrors errors).
Proof. unfold queueRecoverableErrors. quiet. Qed.
#[local] Hint Resolve Quiet_queueRecoverableErrors : quiet.

(** Lines 1120-1131 of [recoverFromConcurrentError]: the second attempt. *)
Definition secondAttempt (fuel : nat) (root : RootId) (errorRetryLanes : Lanes)
  : M RootExitStatus :=
  s <- get ;;
  when (isRootDehydrated E root s)
    (rootWorkInProgress <- prepareFreshStack fuel root errorRetryLanes ;;
     modify (wrFiber rootWorkInProgress
               (fun f => set_flags (Z.lor (flags f) (ForceClientRender E)) f)) ;;
     when (DEV cfg) (call (ErrorHydratingContainer root))) ;;
  renderRootSync fuel root errorRetryLanes.

(** The recoverable errors after a retry that did not error: those of the
    first attempt, then those of the second. *)
Definition mergeErrors (first second : option (list CapturedValue))
  : option (list CapturedValue) :=
  match second with
  | None => first
  | Some errors =>
      match first with
      | None => Some errors
      | Some queued => Some (queued ++ errors)
      end
  end.

Lemma recoverFromConcurrentError_run fuel root L s :
  recoverFromConcurrentError fuel root L s =
  bind (secondAttempt fuel root L)
    (fun exitStatus =>
       (if negb (RootExitStatus_eqb exitStatus RootErrored) then
          s2 <- get ;;
          setVar workInProgressRootRecoverableErrors
            (rd workInProgressRootConcurrentErrors s) ;;
          match rd workInProgressRootRecoverableErrors s2 with
          | Some errors => queueRecoverableErrors errors
          | None => ret tt
          end
        else ret tt) ;;
       ret exitStatus) s.
Proof.
  unfold recoverFromConcurrentError, secondAttempt.
  now rewrite bind_get, !bind_bind, bind_get, !bind_bind.
Qed.

Lemma secondAttempt_trace fuel root L s :
  exists before after,
    Forall isCall before /\ Forall isCall after /\
    (trace (secondAttempt fuel root L s) = before ++ EnterRenderRootSync root L :: after \/
     trace (secondAttempt fuel root L s) = before /\
     forall r, res (secondAttempt fuel root L s) <> Ret r).
Proof.
  unfold secondAttempt. rewrite bind_get.
  match goal with
  | |- context [bind ?m ?k s] =>
      assert (Hq : Quiet m) by quiet; specialize (Hq s); rewrite (run_bind m k s)
  end.
  match type of Hq with Forall isCall (trace ?o) => set (o0 := o) in * end.
  destruct (res o0) as [[]| |].
  - destruct (renderRootSync_trace fuel root L (final o0)) as (calls & Hcalls & Hq2).
    exists (trace o0), calls. split; [exact Hq|split; [exact Hq2|]].
    left. cbn [trace prepend]. now rewrite Hcalls.
  - exists (trace o0), []. split; [exact Hq|split; [constructor|]].
    right. split; [reflexivity|]. intros r. discriminate.
  - exists (trace o0), []. split; [exact Hq|split; [constructor|]].
    right. split; [reflexivity|]. intros r. discriminate.
Qed.

Lemma recoverFromConcurrentError_returned fuel root L s status :
  res (secondAttempt fuel root L s) = Ret status ->
  res (recoverFromConcurrentError fuel root L s) = Ret status /\
  trace (recoverFromConcurrentError fuel root L s) = trace (secondAttempt fuel root L s) /\
  if RootExitStatus_eqb status RootErrored
  then final (recoverFromConcurrentError fuel root L s)
       = final (secondAttempt fuel root L s)
  else rd workInProgressRootRecoverableErrors
         (final (recoverFromConcurrentError fuel root L s))
       = mergeErrors (rd workInProgressRootConcurrentErrors s)
           (rd workInProgressRootRecoverableErrors (final (secondAttempt fuel root L s))).
Proof.
  intros Hres. rewrite recoverFromConcurrentError_run.
  rewrite (bind_run_returned _ _ s status Hres).
  set (s2 := final (secondAttempt fuel root L s)).
  destruct (RootExitStatus_eqb status RootErrored); cbn [negb].
  - rewrite !bind_ret. cbn. now rewrite app_nil_r.
  - rewrite bind_bind, bind_get, bind_bind, bind_setVar.
    unfold mergeErrors.
    destruct (rd workInProgressRootRecoverableErrors s2) as [errors|].
    + unfold queueRecoverableErrors. rewrite bind_bind, bind_get, rd_wr_same.
      destruct (rd workInProgressRootConcurrentErrors s) as [queued|];
        rewrite bind_setVar; cbn [ret res final trace prepend];
        rewrite rd_wr_same, app_nil_r; auto.
    + rewrite !bind_ret. cbn [ret res final trace prepend].
      rewrite rd_wr_same, app_nil_r. auto.
Qed.

Lemma retryErroredRender_retry fuel root l s :
  getLanesToRetrySynchronouslyOnError E root s <> NoLanes ->
  retryErroredRender fuel root l RootErrored s =
  bind (recoverFromConcurrentError fuel root (getLanesToRetrySynchronouslyOnError E root s))
    (fun exitStatus => ret (getLanesToRetrySynchronouslyOnError E root s, exitStatus)) s.
Proof.
  intros HL. unfold retryErroredRender. cbn [RootExitStatus_eqb]. rewrite bind_get.
  apply Z.eqb_neq in HL. now rewrite HL.
Qed.

(** In a run that returns, what the second half has among its events is
    among the events of the whole. *)
Lemma bind_returns_reports {A B : Type} (m : M A) (k : A -> M B) (s : State) (b : B)
    (t : list Event) :
  res (bind m k s) = Ret b ->
  (forall a s', res (k a s') = Ret b ->
     exists before after, trace (k a s') = before ++ t ++ after) ->
  exists before after, trace (bind m k s) = before ++ t ++ after.
Proof.
  intros Hres Hk. destruct (bind_returns _ _ _ _ Hres) as (a & _ & Hr & _ & ->).
  destruct (Hk a _ Hr) as (before & after & ->).
  exists (trace (m s) ++ before), after. now rewrite app_assoc.
Qed.

(** What [onRecoverableError] is called with for one error. *)
Definition reported (root : RootId) (e : CapturedValue) : Event :=
  Called (OnRecoverableError root (value e) (stack e) (digest e)).

Lemma reportRecoverableErrors_trace root errors :
  forall s,
    exists n,
      trace (reportRecoverableErrors root errors s) = map (reported root) (firstn n errors) /\
      (res (reportRecoverableErrors root errors s) = Ret tt -> n = List.length errors).
Proof.
  induction errors as [|e rest IH]; intros s.
  - exists O. split; reflexivity.
  - cbn [reportRecoverableErrors]. rewrite bind_call.
    destruct (world E _ (OnRecoverableError root (value e) (stack e) (digest e)) s)
      as [[[]|v|] s1]; cbn [fst snd].
    + destruct (IH s1) as (n & Ht & Hn). exists (S n). cbn [firstn map].
      split; [cbn; now rewrite Ht|]. intros Hr. cbn in Hr. cbn. now rewrite (Hn Hr).
    + exists 1%nat. split; [reflexivity|discriminate].
    + exists 1%nat. split; [reflexivity|discriminate].
Qed.

Lemma reportRecoverableErrors_returns root errors :
  (forall e s, In e errors ->
     fst (world E _ (OnRecoverableError root (value e) (stack e) (digest e)) s) = Ret tt) ->
  forall s, res (reportRecoverableErrors root errors s) = Ret tt.
Proof.
  induction errors as [|e rest IH]; intros Hcb s; [reflexivity|].
  cbn [reportRecoverableErrors]. rewrite bind_call, (Hcb e s (or_introl eq_refl)).
  cbn [res prepend]. apply IH. intros e' s' Hin. apply Hcb. now right.
Qed.

(** Lines 1057-1097 when the store check is skipped or passes: the tree is
    handed to the commit. *)
Lemma errored_tree_is_committed fuel root cb L s :
  includesBlockingLane E root L = true ->
  exists rest,
    trace (bind (finishCompletedRender fuel root L RootErrored)
             (fun _ : unit => performConcurrentWorkOnRoot_return root cb) s) =
    EnterCommitRoot root (rd workInProgressRootRecoverableErrors s) :: rest.
Proof.
  intros Hblocking. unfold finishCompletedRender. rewrite Hblocking. cbn [negb].
  steps. cbv zeta. steps. cbn [negb]. steps. cbn [fst snd finishConcurrentRender].
  steps. unfold commitRoot. steps. cbn [trace prepend app].
  eexists. reflexivity.
Qed.


(** *** Postconditions

    [wp m Q s]: the run of [m] from [s] ends in a result and a state that
    satisfy [Q].  The rules below compute it along the structure of [m]; a
    call that leaves the module may answer anything and leave any state. *)
Definition wp {A : Type} (m : M A) (Q : Res A -> State -> Prop) (s : State) : Prop :=
  Q (res (m s)) (final (m s)).

(** What [bind m k] asks of [m]. *)
Definition andThen {A B : Type} (k : A -> M B) (Q : Res B -> State -> Prop)
  : Res A -> State -> Prop :=
  fun r s =>
    match r with
    | Ret a => wp (k a) Q s
    | Thrown e => Q (Thrown e) s
    | NoFuel => Q NoFuel s
    end.

Lemma wp_bind {A B : Type} (m : M A) (k : A -> M B) Q s :
  wp m (andThen k Q) s -> wp (bind m k) Q s.
Proof.
  unfold wp, andThen. rewrite run_bind.
  destruct (res (m s)) as [a| |]; cbn; auto.
Qed.

Lemma wp_bind_inv {A B : Type} (m : M A) (k : A -> M B) Q s :
  wp (bind m k) Q s -> wp m (andThen k Q) s.
Proof.
  unfold wp, andThen. rewrite run_bind.
  destruct (res (m s)) as [a| |]; cbn; auto.
Qed.

Lemma wp_ret {A : Type} (a : A) (Q : Res A -> State -> Prop) s : Q (Ret a) s -> wp (ret a) Q s.
Proof. exact (fun H => H). Qed.

Lemma wp_get (Q : Res State -> State -> Prop) s : Q (Ret s) s -> wp get Q s.
Proof. exact (fun H => H). Qed.

Lemma wp_modify f (Q : Res unit -> State -> Prop) s : Q (Ret tt) (f s) -> wp (modify f) Q s.
Proof. exact (fun H => H). Qed.

Lemma wp_setVar x v (Q : Res unit -> State -> Prop) s :
  Q (Ret tt) (wr x v s) -> wp (setVar x v) Q s.
Proof. exact (fun H => H). Qed.

Lemma wp_mark e (Q : Res unit -> State -> Prop) s : Q (Ret tt) s -> wp (mark e) Q s.
Proof. exact (fun H => H). Qed.

Lemma wp_throw {A : Type} e (Q : Res A -> State -> Prop) s : Q (Thrown e) s -> wp (throw e) Q s.
Proof. exact (fun H => H). Qed.

Lemma wp_noFuel {A : Type} (Q : Res A -> State -> Prop) s : Q NoFuel s -> wp noFuel Q s.
Proof. exact (fun H => H). Qed.

Lemma wp_call {A : Type} (c : Ext A) (Q : Res A -> State -> Prop) s :
  (forall r s', world E A c s = (r, s') -> Q r s') -> wp (call c) Q s.
Proof.
  intros H. unfold wp. rewrite run_call. cbn.
  apply H. now destruct (world E A c s).
Qed.

Lemma wp_tryCatch {A : Type} (m : M A) (h : JsValue -> M A) Q s :
  wp m (fun r s' => match r with Thrown e => wp (h e) Q s' | _ => Q r s' end) s ->
  wp (tryCatch m h) Q s.
Proof.
  unfold wp, tryCatch. destruct (res (m s)) as [a|e|] eqn:Hr; cbn; rewrite ?Hr; auto.
Qed.

(** What [try { m } finally { fin }] asks of [fin], [r] being the outcome of
    [m]. *)
Definition afterFinally {A : Type} (r : Res A) (Q : Res A -> State -> Prop)
  : Res unit -> State -> Prop :=
  fun r' s =>
    match r' with
    | Ret _ => Q r s
    | Thrown e => Q (Thrown e) s
    | NoFuel => Q NoFuel s
    end.

Lemma wp_tryFinally {A : Type} (m : M A) (fin : M unit) Q s :
  wp m (fun r s' =>
          match r with
          | NoFuel => Q NoFuel s'
          | _ => wp fin (afterFinally r Q) s'
          end) s ->
  wp (tryFinally m fin) Q s.
Proof.
  unfold wp, tryFinally, afterFinally.
  destruct (res (m s)) as [a|e|] eqn:Hr; cbn; rewrite ?Hr;
    try (destruct (res (fin (final (m s)))); cbn; auto); auto.
Qed.

Lemma wp_conseq {A : Type} (m : M A) (Q Q' : Res A -> State -> Prop) s :
  wp m Q s -> (forall r s', Q r s' -> Q' r s') -> wp m Q' s.
Proof. unfold wp. auto. Qed.

Lemma wp_True {A : Type} (m : M A) s : wp m (fun _ _ => True) s.
Proof. exact I. Qed.

(** One step of the computation of a postcondition. *)
Ltac wp_step :=
  lazymatch goal with
  | |- wp (bind _ _) _ _ => apply wp_bind
  | |- wp (ret _) _ _ => apply wp_ret
  | |- wp get _ _ => apply wp_get
  | |- wp (modify _) _ _ => apply wp_modify
  | |- wp (setVar _ _) _ _ => apply wp_setVar
  | |- wp (mark _) _ _ => apply wp_mark
  | |- wp (throw _) _ _ => apply wp_throw
  | |- wp noFuel _ _ => apply wp_noFuel
  | |- wp (tryCatch _ _) _ _ => apply wp_tryCatch
  | |- wp (tryFinally _ _) _ _ => apply wp_tryFinally
  | |- wp (call _) _ _ =>
      let r := fresh "r" in
      let s' := fresh "s" in
      let Hw := fresh "Hw" in
      apply wp_call; intros [r|r|] s' Hw
  | |- wp (when ?b _) _ _ => unfold when
  | |- andThen _ _ _ _ => unfold andThen
  | |- afterFinally _ _ _ _ => unfold afterFinally
  end; cbv beta iota.

Ltac wp_steps := repeat wp_step.

Lemma rd_wrRoot x root f s : rd x (wrRoot root f s) = rd x s.
Proof. reflexivity. Qed.

Lemma rd_wrFiber x fiber f s : rd x (wrFiber fiber f s) = rd x s.
Proof. reflexivity. Qed.

(** Reads after writes. *)
Ltac rdwr :=
  repeat first
    [ rewrite rd_wr_same
    | rewrite rd_wr_other by discriminate
    | rewrite rd_wrRoot
    | rewrite rd_wrFiber ].

Ltac rdwr_in H :=
  repeat first
    [ rewrite rd_wr_same in H
    | rewrite rd_wr_other in H by discriminate
    | rewrite rd_wrRoot in H
    | rewrite rd_wrFiber in H ].

Ltac rdwr_all :=
  rdwr; repeat match goal with H : context [rd ?x (wr ?y ?v ?s)] |- _ => progress (rdwr_in H) end.

Lemma RootExitStatus_eqb_eq a b : RootExitStatus_eqb a b = true <-> a = b.
Proof. destruct a, b; cbn; split; intros H; try reflexivity; discriminate H. Qed.

Lemma RootExitStatus_eqb_neq a b : RootExitStatus_eqb a b = false <-> a <> b.
Proof.
  destruct a, b; cbn; split; intros H; try reflexivity; try discriminate H;
    try (intros H'; discriminate H'); now destruct H.
Qed.

Ltac wp_case :=
  lazymatch goal with
  | |- wp (if ?b then _ else _) _ _ => destruct b eqn:?
  | |- wp (match ?x with _ => _ end) _ _ => destruct x eqn:?
  end.

Ltac wp_run := repeat first [wp_step | wp_case].

Lemma roots_wrRoot_same root f s : roots (wrRoot root f s) root = f (roots s root).
Proof. unfold wrRoot. cbn. apply upd_at. Qed.

Lemma roots_wr x v s : roots (wr x v s) = roots s.
Proof. reflexivity. Qed.

(** Boolean tests in the context, as propositions. *)
Ltac tests :=
  repeat match goal with
         | H : (_ =? _) = true |- _ => apply Z.eqb_eq in H
         | H : (_ =? _) = false |- _ => apply Z.eqb_neq in H
         | H : _ && _ = true |- _ => apply andb_true_iff in H; destruct H
         | H : _ || _ = false |- _ => apply orb_false_iff in H; destruct H
         | H : negb _ = true |- _ => apply negb_true_iff in H
         | H : negb _ = false |- _ => apply negb_false_iff in H
         | H : _ && _ = false |- _ => apply andb_false_iff in H; destruct H
         | H : _ || _ = true |- _ => apply orb_true_iff in H; destruct H
         end.

(** *** The guards of the entry points *)

Definition isWorking (s : State) : bool :=
  negb (Z.land (rd executionContext s) (Z.lor RenderContext CommitContext) =? NoContext).

(** *** The exit status of a render *)

(** Nothing is in progress only when the exit status has been set. *)
Definition settled (s : State) : Prop :=
  rd workInProgress s = None -> rd workInProgressRootExitStatus s <> RootInProgress.

Definition returnsSettled {A : Type} : Res A -> State -> Prop :=
  fun r s' => match r with Ret _ => settled s' | _ => True end.

Ltac settle :=
  try exact I; unfold returnsSettled, settled; rdwr_all; try discriminate;
  try (intros _;
       repeat match goal with
              | H : RootExitStatus_eqb _ _ = false |- _ => apply RootExitStatus_eqb_neq in H
              | H : RootExitStatus_eqb _ _ = true |- _ => apply RootExitStatus_eqb_eq in H
              end;
       congruence).

Lemma completeUnitOfWork_loop_settles fuel :
  forall completedWork s, wp (completeUnitOfWork_loop fuel completedWork) returnsSettled s.
Proof.
  induction fuel as [|fuel IH]; intros completedWork s; cbn [completeUnitOfWork_loop];
    [exact I|].
  wp_run; try apply IH; settle.
Qed.

Lemma performUnitOfWork_settles fuel unitOfWork s :
  wp (performUnitOfWork fuel unitOfWork) returnsSettled s.
Proof.
  unfold performUnitOfWork. wp_run; settle.
  unfold completeUnitOfWork.
  eapply wp_conseq; [apply completeUnitOfWork_loop_settles|].
  intros [[]| |] s1 Hs; cbn; auto.
Qed.

Lemma handleError_settles bound fuel root :
  forall thrownValue s, wp (handleError bound fuel root thrownValue) returnsSettled s.
Proof.
  induction fuel as [|fuel IH]; intros thrownValue s; cbn [handleError]; [exact I|].
  wp_run; try apply IH; settle;
    try (unfold completeUnitOfWork;
         eapply wp_conseq; [apply completeUnitOfWork_loop_settles|];
         intros [[]| |] s9 Hs; cbn; auto; wp_run; try apply IH; settle).
Qed.

Definition staysSettled {A : Type} (s : State) : Res A -> State -> Prop :=
  fun r s' => match r with Ret _ => settled s -> settled s' | _ => True end.

Lemma workLoopSync_loop_settled bound fuel :
  forall s, wp (workLoopSync_loop bound fuel) (staysSettled s) s.
Proof.
  induction fuel as [|fuel IH]; intros s; cbn [workLoopSync_loop];
    wp_run; unfold staysSettled; auto.
  eapply wp_conseq; [apply performUnitOfWork_settles|].
  intros [[]| |] s1 Hs; cbn; auto.
  eapply wp_conseq; [apply IH|]. intros [[]| |] s2; cbn; auto.
Qed.

Lemma workLoopConcurrent_loop_settled bound fuel :
  forall s, wp (workLoopConcurrent_loop bound fuel) (staysSettled s) s.
Proof.
  induction fuel as [|fuel IH]; intros s; cbn [workLoopConcurrent_loop];
    wp_run; unfold staysSettled; auto.
  eapply wp_conseq; [apply performUnitOfWork_settles|].
  intros [[]| |] s1 Hs; cbn; auto.
  eapply wp_conseq; [apply IH|]. intros [[]| |] s2; cbn; auto.
Qed.

Lemma renderLoop_settled (workLoop : M unit) bound fuel root :
  (forall s, wp workLoop (staysSettled s) s) ->
  forall s, wp (renderLoop workLoop bound fuel root) (staysSettled s) s.
Proof.
  intros Hloop. induction fuel as [|fuel IH]; intros s; cbn [renderLoop]; [exact I|].
  wp_step. eapply wp_conseq; [apply Hloop|].
  intros [[]| |] s1 Hs; cbn; auto.
  wp_step. eapply wp_conseq; [apply handleError_settles|].
  intros [[]| |] s2 Hs2; cbn; auto.
  eapply wp_conseq; [apply IH|]. intros [[]| |] s3; cbn; auto.
Qed.

(** The calls a render makes outside its work loop. *)
Definition outsideLoop {A : Type} (c : Ext A) : bool :=
  match c with
  | PushDispatcher | PopDispatcher | ResetContextDependencies
  | GetTransitionsForLanes _ _ | CancelTimeout _ | UnwindInterruptedWork _ _ _
  | CreateWorkInProgress _ | FinishQueueingConcurrentUpdates | DiscardPendingWarnings => true
  | _ => false
  end.

(** Those calls leave the variables of the render in progress alone. *)
Definition keepsProgress : Prop :=
  forall A (c : Ext A) s,
    outsideLoop c = true ->
    rd workInProgress (snd (world E A c s)) = rd workInProgress s /\
    rd workInProgressRoot (snd (world E A c s)) = rd workInProgressRoot s /\
    rd workInProgressRootRenderLanes (snd (world E A c s))
    = rd workInProgressRootRenderLanes s /\
    rd workInProgressRootExitStatus (snd (world E A c s))
    = rd workInProgressRootExitStatus s.

Lemma kept_after {A : Type} (c : Ext A) s r s' :
  keepsProgress -> world E A c s = (r, s') -> outsideLoop c = true ->
  rd workInProgress s' = rd workInProgress s /\
  rd workInProgressRoot s' = rd workInProgressRoot s /\
  rd workInProgressRootRenderLanes s' = rd workInProgressRootRenderLanes s /\
  rd workInProgressRootExitStatus s' = rd workInProgressRootExitStatus s.
Proof. intros Hk Hw Hc. specialize (Hk A c s Hc). now rewrite Hw in Hk. Qed.

(** Reads of the variables of the render after such calls are reads before
    them. *)
Ltac kept Hk :=
  rdwr;
  repeat match goal with
         | Hw : world E _ _ _ = (_, ?s1) |- context [rd ?x ?s1] =>
             let H1 := fresh in let H2 := fresh in let H3 := fresh in let H4 := fresh in
             destruct (kept_after _ _ _ _ Hk Hw eq_refl) as (H1 & H2 & H3 & H4);
             rewrite ?H1, ?H2, ?H3, ?H4; clear H1 H2 H3 H4 Hw; rdwr
         end.

Ltac kept_in Hk H :=
  rdwr_in H;
  repeat match type of H with
         | context [rd ?x ?s1] =>
             match goal with
             | Hw : world E _ _ _ = (_, s1) |- _ =>
                 let H1 := fresh in let H2 := fresh in let H3 := fresh in let H4 := fresh in
                 destruct (kept_after _ _ _ _ Hk Hw eq_refl) as (H1 & H2 & H3 & H4);
                 progress (rewrite ?H1, ?H2, ?H3, ?H4 in H); clear H1 H2 H3 H4; rdwr_in H
             end
         end.

Ltac wp_skip :=
  eapply wp_conseq; [apply wp_True|];
  let r := fresh "r" in let s := fresh "s" in intros [r|r|] s _; cbv beta iota.

Lemma prepareFreshStack_progress fuel root l s :
  keepsProgress ->
  wp (prepareFreshStack fuel root l)
     (fun r s' => match r with Ret _ => rd workInProgress s' <> None | _ => True end) s.
Proof.
  intros Hk. unfold prepareFreshStack.
  wp_run; try exact I; try (wp_skip; wp_run); try exact I; kept Hk; try discriminate.
Qed.

Lemma needsFreshStack_idle root l s s0 :
  (rd workInProgress s = None -> rd workInProgressRoot s = None) ->
  rd workInProgress s0 = rd workInProgress s ->
  rd workInProgressRoot s0 = rd workInProgressRoot s ->
  needsFreshStack root l s0 = false -> rd workInProgress s0 <> None.
Proof.
  intros Hidle Hw Hr Hfresh Hnone. unfold needsFreshStack in Hfresh.
  rewrite Hw in Hnone. rewrite Hr, (Hidle Hnone) in Hfresh. discriminate Hfresh.
Qed.

Lemma progress_settled s : rd workInProgress s <> None -> settled s.
Proof. intros H H'. contradiction. Qed.

(** X12.  A render exits with a status.  Let the calls a render makes outside its
    work loop leave the variables of the render in progress alone, and let no
    root be in progress when no fiber is.  Then [renderRootSync], when it
    returns, returns a status other than [RootInProgress], with no fiber and
    no root left in progress; and [renderRootConcurrent], when it returns,
    returns [RootInProgress] exactly when a fiber is left in progress (the
    loop has yielded), and otherwise leaves no root in progress.
    [renderRootConcurrent] always returns in the execution context it was
    called in. *)
Theorem render_exits_with_a_status :
  forall (fuel : nat) (root : RootId) (l : Lanes) (s : State),
    keepsProgress ->
    (rd workInProgress s = None -> rd workInProgressRoot s = None) ->
    (forall status,
       res (renderRootSync fuel root l s) = Ret status ->
       status <> RootInProgress /\
       rd workInProgress (final (renderRootSync fuel root l s)) = None /\
       rd workInProgressRoot (final (renderRootSync fuel root l s)) = None) /\
    (forall status,
       res (renderRootConcurrent fuel root l s) = Ret status ->
       (status = RootInProgress <->
        rd workInProgress (final (renderRootConcurrent fuel root l s)) <> None) /\
       (status <> RootInProgress ->
        rd workInProgressRoot (final (renderRootConcurrent fuel root l s)) = None) /\
       rd executionContext (final (renderRootConcurrent fuel root l s))
       = rd executionContext s).
Proof.
  intros fuel root l s Hk Hidle. split.
  - assert (H : wp (renderRootSync fuel root l)
                  (fun r s' =>
                     match r with
                     | Ret status =>
                         status <> RootInProgress /\ rd workInProgress s' = None /\
                         rd workInProgressRoot s' = None
                     | _ => True
                     end) s).
    { unfold renderRootSync. wp_run; try exact I.
      - eapply wp_conseq; [apply (prepareFreshStack_progress _ _ _ _ Hk)|].
        intros [rootWorkInProgress| |] s9 Hp; cbv beta iota; try exact I.
        wp_run.
        eapply wp_conseq;
          [apply renderLoop_settled; intros; apply workLoopSync_loop_settled|].
        intros [[]| |] s10 Hs; cbv beta iota; try exact I.
        specialize (Hs (progress_settled _ Hp)).
        wp_run; try exact I.
        match goal with Hn : rd workInProgress _ = None |- _ => kept_in Hk Hn end.
        kept Hk. auto.
      - assert (Hp : rd workInProgress s0 <> None).
        { apply (needsFreshStack_idle root l s s0 Hidle); [kept Hk; reflexivity..|assumption]. }
        eapply wp_conseq;
          [apply renderLoop_settled; intros; apply workLoopSync_loop_settled|].
        intros [[]| |] s10 Hs; cbv beta iota; try exact I.
        specialize (Hs (progress_settled _ Hp)).
        wp_run; try exact I.
        match goal with Hn : rd workInProgress _ = None |- _ => kept_in Hk Hn end.
        kept Hk. auto. }
    intros status Hres. unfold wp in H. rewrite Hres in H. exact H.
  - assert (H : wp (renderRootConcurrent fuel root l)
                  (fun r s' =>
                     match r with
                     | Ret status =>
                         (status = RootInProgress <-> rd workInProgress s' <> None) /\
                         (status <> RootInProgress -> rd workInProgressRoot s' = None) /\
                         rd executionContext s' = rd executionContext s
                     | _ => True
                     end) s).
    { unfold renderRootConcurrent, resetRenderTimer. wp_run; try exact I.
      - eapply wp_conseq; [apply (prepareFreshStack_progress _ _ _ _ Hk)|].
        intros [rootWorkInProgress| |] s9 Hp; cbv beta iota; try exact I.
        wp_run.
        eapply wp_conseq;
          [apply renderLoop_settled; intros; apply workLoopConcurrent_loop_settled|].
        intros [[]| |] s10 Hs; cbv beta iota; try exact I.
        specialize (Hs (progress_settled _ Hp)).
        wp_run; try exact I.
        + rdwr_all. repeat split; intros; try congruence; try contradiction.
        + rdwr_all.
          match goal with
          | Hn : rd workInProgress _ = None |- _ =>
              kept_in Hk Hn; pose proof (Hs Hn) as Hdone;
              repeat split; try reflexivity;
                [intros Hst; exfalso; revert Hst; kept Hk; exact Hdone
                |intros Hne; exfalso; apply Hne; kept Hk; exact Hn]
          end.
      - assert (Hp : rd workInProgress s0 <> None).
        { apply (needsFreshStack_idle root l s s0 Hidle); [kept Hk; reflexivity..|assumption]. }
        eapply wp_conseq;
          [apply renderLoop_settled; intros; apply workLoopConcurrent_loop_settled|].
        intros [[]| |] s10 Hs; cbv beta iota; try exact I.
        specialize (Hs (progress_settled _ Hp)).
        wp_run; try exact I.
        + rdwr_all. repeat split; intros; try congruence; try contradiction.
        + rdwr_all.
          match goal with
          | Hn : rd workInProgress _ = None |- _ =>
              kept_in Hk Hn; pose proof (Hs Hn) as Hdone;
              repeat split; try reflexivity;
                [intros Hst; exfalso; revert Hst; kept Hk; exact Hdone
                |intros Hne; exfalso; apply Hne; kept Hk; exact Hn]
          end. }
    intros status Hres. unfold wp in H. rewrite Hres in H. exact H.
Qed.

(** *** The work loops *)

Lemma workLoopSync_loop_done bound fuel :
  forall s, wp (workLoopSync_loop bound fuel)
              (fun r s' => match r with Ret _ => rd workInProgress s' = None | _ => True end) s.
Proof.
  induction fuel as [|fuel IH]; intros s; cbn [workLoopSync_loop]; wp_run; auto.
  wp_skip; try exact I. apply IH.
Qed.

Lemma workLoopConcurrent_loop_done bound fuel :
  forall s, wp (workLoopConcurrent_loop bound fuel)
              (fun r s' =>
                 match r with
                 | Ret _ => rd workInProgress s' = None \/ shouldYield E s' = true
                 | _ => True
                 end) s.
Proof.
  induction fuel as [|fuel IH]; intros s; cbn [workLoopConcurrent_loop]; wp_run; auto.
  wp_skip; try exact I. apply IH.
Qed.

(** X13.  The work loops stop only when they are done or told to yield, and they
    begin each fiber that is in progress.  When [workLoopSync] returns, no
    fiber is in progress; when [workLoopConcurrent] returns, no fiber is in
    progress or the Scheduler asks to yield.  A loop that starts with a fiber
    in progress, and (for the concurrent loop) is not asked to yield, calls
    [beginWork] on that fiber first, with its alternate and the render lanes;
    a loop that starts with no fiber in progress does nothing. *)
Theorem work_loops_stop_when_done :
  forall (fuel : nat) (s : State),
    (res (workLoopSync (S fuel) s) = Ret tt ->
       rd workInProgress (final (workLoopSync (S fuel) s)) = None) /\
    (res (workLoopConcurrent (S fuel) s) = Ret tt ->
       rd workInProgress (final (workLoopConcurrent (S fuel) s)) = None \/
       shouldYield E (final (workLoopConcurrent (S fuel) s)) = true) /\
    (forall unitOfWork,
       rd workInProgress s = Some unitOfWork ->
       let begun :=
         Called (BeginWork (alternate (fibers s unitOfWork)) unitOfWork (rd renderLanes s)) in
       (exists rest, trace (workLoopSync (S fuel) s) = begun :: rest) /\
       (if shouldYield E s then workLoopConcurrent (S fuel) s = ret tt s
        else exists rest, trace (workLoopConcurrent (S fuel) s) = begun :: rest)) /\
    (rd workInProgress s = None ->
       workLoopSync (S fuel) s = ret tt s /\ workLoopConcurrent (S fuel) s = ret tt s).
Proof.
  intros fuel s. split; [|split; [|split]].
  - intros Hres. pose proof (workLoopSync_loop_done (S fuel) (S fuel) s) as H.
    unfold wp in H. fold (workLoopSync (S fuel)) in H. now rewrite Hres in H.
  - intros Hres. pose proof (workLoopConcurrent_loop_done (S fuel) (S fuel) s) as H.
    unfold wp in H. fold (workLoopConcurrent (S fuel)) in H. now rewrite Hres in H.
  - intros unitOfWork Hwip. cbv zeta. split.
    + unfold workLoopSync. cbn [workLoopSync_loop]. rewrite bind_get, Hwip.
      unfold performUnitOfWork. rewrite !bind_bind, bind_get. cbv zeta.
      rewrite !bind_bind.
      destruct (bind_trace_prefix
                  (call (BeginWork (alternate (fibers s unitOfWork)) unitOfWork
                           (rd renderLanes s)))
                  (fun next =>
                     bind (bind (match next with
                                 | Some n => setVar workInProgress (Some n)
                                 | None => completeUnitOfWork (S fuel) unitOfWork
                                 end) (fun _ => setVar currentOwner None))
                          (fun _ => workLoopSync_loop (S fuel) fuel)) s) as (rest & Hrest).
      rewrite run_call in Hrest. cbn [trace app] in Hrest.
      exists rest. rewrite <- Hrest. f_equal.
    + unfold workLoopConcurrent. cbn [workLoopConcurrent_loop]. rewrite bind_get, Hwip.
      destruct (shouldYield E s); [reflexivity|].
      unfold performUnitOfWork. rewrite !bind_bind, bind_get. cbv zeta.
      rewrite !bind_bind.
      destruct (bind_trace_prefix
                  (call (BeginWork (alternate (fibers s unitOfWork)) unitOfWork
                           (rd renderLanes s)))
                  (fun next =>
                     bind (bind (match next with
                                 | Some n => setVar workInProgress (Some n)
                                 | None => completeUnitOfWork (S fuel) unitOfWork
                                 end) (fun _ => setVar currentOwner None))
                          (fun _ => workLoopConcurrent_loop (S fuel) fuel)) s)
        as (rest & Hrest).
      rewrite run_call in Hrest. cbn [trace app] in Hrest.
      exists rest. rewrite <- Hrest. f_equal.
  - intros Hwip. unfold workLoopSync, workLoopConcurrent.
    cbn [workLoopSync_loop workLoopConcurrent_loop]. now rewrite !bind_get, Hwip.
Qed.

(** *** The synchronous queue *)

Definition rescheduled : Event :=
  Called (Scheduler_scheduleCallback ImmediateSchedulerPriority FlushSyncCallbacksFn).

Lemma flushSyncCallbacks_loop_thrown fuel :
  forall i s e,
    res (flushSyncCallbacks_loop fuel i s) = Thrown e ->
    exists before, trace (flushSyncCallbacks_loop fuel i s) = before ++ [rescheduled].
Proof.
  induction fuel as [|fuel IH]; intros i s e.
  - destruct i; cbn [flushSyncCallbacks_loop]; rewrite bind_get;
      destruct (rd syncQueue s) as [queue|]; try discriminate;
      destruct (nth_error queue _) as [[root]|]; discriminate.
  - assert (Hunfold : flushSyncCallbacks_loop (S fuel) i s =
                      match rd syncQueue s with
                      | None => ret tt s
                      | Some queue =>
                          match nth_error queue i with
                          | None => ret tt s
                          | Some (PerformSyncWorkOnRoot root) =>
                              bind
                                (tryCatch (performSyncWorkOnRoot_rec root)
                                   (fun error =>
                                      s <- get ;;
                                      match rd syncQueue s with
                                      | Some q => setVar syncQueue (Some (skipn (i + 1) q))
                                      | None => ret tt
                                      end ;;
                                      call (Scheduler_scheduleCallback
                                              ImmediateSchedulerPriority
                                              FlushSyncCallbacksFn) ;;
                                      throw error))
                                (fun _ => flushSyncCallbacks_loop fuel (S i)) s
                          end
                      end).
    { destruct i; cbn [flushSyncCallbacks_loop]; rewrite bind_get;
        destruct (rd syncQueue s) as [queue|]; try reflexivity;
        destruct (nth_error queue _) as [[root]|]; reflexivity. }
    rewrite Hunfold. clear Hunfold.
    destruct (rd syncQueue s) as [queue|]; [|discriminate].
    destruct (nth_error queue i) as [[root]|]; [|discriminate].
    rewrite run_bind.
    match goal with |- context [tryCatch ?m ?h s] => set (attempt := tryCatch m h s) end.
    destruct (res attempt) as [[]|e'|] eqn:Hattempt; cbn [res trace prepend].
    + intros Hres. destruct (IH _ _ _ Hres) as (before & Hbefore).
      exists (trace attempt ++ before). now rewrite Hbefore, app_assoc.
    + intros _. clear IH. subst attempt. unfold tryCatch in *.
      destruct (res (performSyncWorkOnRoot_rec root s)) as [[]|error|] eqn:Hrec;
        try (rewrite Hrec in Hattempt; discriminate Hattempt).
      cbn [trace]. rewrite bind_get.
      exists (trace (performSyncWorkOnRoot_rec root s)). f_equal.
      destruct (rd syncQueue (final (performSyncWorkOnRoot_rec root s)));
        [rewrite bind_setVar|rewrite bind_ret]; rewrite bind_call;
        match goal with
        | |- context [world E ?A ?c ?st] => destruct (world E A c st) as [[?|?|] ?]
        end;
        reflexivity.
    + discriminate.
Qed.

(** X14.  [flushSyncCallbacks] does nothing while it is already flushing or when
    the queue is null.  Otherwise, when it returns the queue is null again
    and holds no legacy callbacks; when it throws, the last thing it did
    outside was to ask the Scheduler for an immediate-priority call of
    [flushSyncCallbacks], for the callbacks that are left.  Whenever it ends,
    by a return or by an exception, the update priority is the one it was
    called with, and [isFlushingSyncQueue] is as it was. *)
Theorem flushSyncCallbacks_restores_and_reschedules :
  forall (fuel : nat) (s : State),
    let o := flushSyncCallbacks fuel s in
    (rd isFlushingSyncQueue s = true \/ rd syncQueue s = None -> o = ret tt s) /\
    (res o <> NoFuel ->
       rd currentUpdatePriority (final o) = rd currentUpdatePriority s /\
       rd isFlushingSyncQueue (final o) = rd isFlushingSyncQueue s) /\
    (res o = Ret tt -> rd isFlushingSyncQueue s = false -> rd syncQueue s <> None ->
       rd syncQueue (final o) = None /\ rd includesLegacySyncCallbacks (final o) = false) /\
    (forall e, res o = Thrown e -> exists before, trace o = before ++ [rescheduled]).
Proof.
  intros fuel s o. split; [|split; [|split]].
  - unfold o, flushSyncCallbacks. rewrite bind_get.
    intros [H|H]; rewrite H; [reflexivity|]. now rewrite andb_false_r.
  - assert (H : wp (flushSyncCallbacks fuel)
                  (fun r s' =>
                     r <> NoFuel ->
                     rd currentUpdatePriority s' = rd currentUpdatePriority s /\
                     rd isFlushingSyncQueue s' = rd isFlushingSyncQueue s) s).
    { unfold flushSyncCallbacks. wp_run; auto.
      apply andb_true_iff in Heqb. destruct Heqb as [Hflag _].
      apply negb_true_iff in Hflag.
      wp_skip; wp_run; rdwr; intros Hne; try (now destruct Hne);
        rewrite Hflag; split; reflexivity. }
    exact H.
  - assert (H : wp (flushSyncCallbacks fuel)
                  (fun r s' =>
                     r = Ret tt -> rd isFlushingSyncQueue s = false ->
                     rd syncQueue s <> None ->
                     rd syncQueue s' = None /\ rd includesLegacySyncCallbacks s' = false) s).
    { unfold flushSyncCallbacks. wp_run.
      - wp_skip; wp_run; rdwr; try discriminate; auto.
      - intros _ Hflag Hq. rewrite Hflag in *. cbn [negb andb] in *.
        destruct (rd syncQueue s); [discriminate|]. now destruct Hq. }
    exact H.
  - intros e Hres. unfold o, flushSyncCallbacks in *. rewrite bind_get in *.
    destruct (negb (rd isFlushingSyncQueue s) && isSome (rd syncQueue s));
      [|discriminate Hres].
    rewrite bind_setVar, bind_get in *. unfold tryFinally in *.
    rewrite bind_setVar in *.
    match goal with
    | |- context [bind (flushSyncCallbacks_loop fuel 0) ?k ?st] =>
        set (body := bind (flushSyncCallbacks_loop fuel 0) k st) in *;
        assert (Hbody : forall e', res body = Thrown e' ->
                                   exists before, trace body = before ++ [rescheduled])
    end.
    { intros e' He'. unfold body in *. rewrite run_bind in *.
      match goal with
      | |- context [flushSyncCallbacks_loop fuel 0 ?st] =>
          destruct (res (flushSyncCallbacks_loop fuel 0 st)) as [[]|e''|] eqn:Hloop
      end; cbn [res trace] in *.
      - rewrite !bind_setVar in He'. discriminate He'.
      - eapply flushSyncCallbacks_loop_thrown. exact Hloop.
      - discriminate He'. }
    clearbody body.
    destruct (res body) as [[]|e'|] eqn:Hb; cbn [res trace] in *.
    + rewrite bind_setVar in *. cbn in Hres. discriminate Hres.
    + rewrite bind_setVar in *. cbn [res trace setVar modify] in *.
      destruct (Hbody e' eq_refl) as (before & Hbefore).
      exists before. now rewrite Hbefore, app_nil_r.
    + rewrite Hb in Hres. discriminate Hres.
Qed.

(** *** Passive effects *)

Definition alreadyRendering : JsValue :=
  "Cannot flush passive effects while already rendering."%string.

Lemma run_tryFinally {A : Type} (m : M A) (fin : M unit) (s : State) :
  tryFinally m fin s =
  match res (m s) with
  | NoFuel => m s
  | r =>
      match res (fin (final (m s))) with
      | Ret _ => mkOutcome r (final (fin (final (m s)))) (trace (m s) ++ trace (fin (final (m s))))
      | Thrown e =>
          mkOutcome (Thrown e) (final (fin (final (m s))))
            (trace (m s) ++ trace (fin (final (m s))))
      | NoFuel =>
          mkOutcome NoFuel (final (fin (final (m s))))
            (trace (m s) ++ trace (fin (final (m s))))
      end
  end.
Proof. reflexivity. Qed.

(** X15.  [flushPassiveEffects] with a root whose passive effects are pending ends
    by releasing the pooled cache of that root, with the remaining lanes that
    were pending, also when flushing the effects throws.  Called while
    rendering or committing, it runs no effect and never returns: the pending
    root, lanes and transitions are cleared, the release of the cache is the
    only call made, and unless that call fails the exception is
    "Cannot flush passive effects while already rendering.". *)
Theorem flushPassiveEffects_releases_the_cache :
  forall (fuel : nat) (root : RootId) (s : State),
    rd rootWithPendingPassiveEffects s = Some root ->
    let o := flushPassiveEffects fuel s in
    let release := ReleaseRootPooledCache root (rd pendingPassiveEffectsRemainingLanes s) in
    (res o <> NoFuel -> exists before, trace o = before ++ [Called release]) /\
    (isWorking s = true ->
       trace o = [Called release] /\
       (forall b, res o <> Ret b) /\
       exists s1,
         final o = snd (world E _ release s1) /\
         rd rootWithPendingPassiveEffects s1 = None /\
         rd pendingPassiveEffectsLanes s1 = NoLanes /\
         rd pendingPassiveTransitions s1 = None /\
         rd pendingPassiveEffectsRemainingLanes s1 = NoLanes /\
         rd currentUpdatePriority s1 = rd currentUpdatePriority s /\
         (fst (world E _ release s1) = Ret tt -> res o = Thrown alreadyRendering)).
Proof.
  intros fuel root s Hpending o release. split.
  - unfold o, flushPassiveEffects. rewrite bind_get, Hpending, bind_setVar.
    rewrite run_tryFinally.
    match goal with |- context [res (?m ?st)] => set (body := m st) end.
    intros Hres.
    assert (Hfin : forall st,
               trace ((setVar currentUpdatePriority (rd currentUpdatePriority s) ;;
                       setVar batchConfigTransition (rd batchConfigTransition s) ;;
                       call release) st) = [Called release]).
    { intros st. rewrite !bind_setVar, run_call. reflexivity. }
    destruct (res body) as [b|e|] eqn:Hb.
    + exists (trace body).
      match goal with
      | |- context [res (?fin (final body))] => destruct (res (fin (final body)))
      end; cbn [trace]; now rewrite Hfin.
    + exists (trace body).
      match goal with
      | |- context [res (?fin (final body))] => destruct (res (fin (final body)))
      end; cbn [trace]; now rewrite Hfin.
    + rewrite Hb in Hres. now destruct Hres.
  - intros Hworking. unfold isWorking in Hworking.
    unfold o, flushPassiveEffects. rewrite bind_get, Hpending, bind_setVar.
    rewrite run_tryFinally.
    rewrite !bind_setVar. unfold flushPassiveEffectsImpl.
    rewrite bind_get. rdwr. rewrite Hpending. rewrite !bind_setVar, bind_get.
    rdwr. rewrite Hworking. cbn [throw res final trace].
    rewrite ?bind_setVar, !run_call. cbn [res final trace app].
    match goal with
    | |- context [world E unit _ ?st] => set (s1 := st)
    end. fold release.
    destruct (world E unit release s1) as [[[]|e|] s2] eqn:Hw; cbn [fst snd res final trace].
    + split; [reflexivity|]. split; [discriminate|].
      exists s1. rewrite Hw. cbn [fst snd]. unfold s1. rdwr. repeat split.
    + split; [reflexivity|]. split; [discriminate|].
      exists s1. rewrite Hw. cbn [fst snd]. unfold s1. rdwr. repeat split. discriminate.
    + split; [reflexivity|]. split; [discriminate|].
      exists s1. rewrite Hw. cbn [fst snd]. unfold s1. rdwr. repeat split. discriminate.
Qed.

(** *** Scheduling a root *)

(** The lanes [ensureRootIsScheduled] finds to work on, in the state [s1]
    that [markStarvedLanesAsExpired] has left. *)
Definition nextLanesOf (root : RootId) (s1 : State) : Lanes :=
  getNextLanes E root
    (if same_id (Some root) (rd workInProgressRoot s1)
     then rd workInProgressRootRenderLanes s1 else NoLanes) s1.

(** X16.  [ensureRootIsScheduled] first marks the starved lanes as expired.  Let
    [nextLanes] be the next lanes of the root after that, and [newPriority]
    their highest priority lane.  When the function returns:
    - with no next lanes, the root has no callback node and no callback
      priority;
    - otherwise the callback priority of the root is [newPriority], unless
      in development the root had that priority (other than the synchronous
      lane) and no callback node, which is logged as an error;
    - when the priority of the root was not [newPriority], the callback node
      of the root is null for the synchronous lane and a node otherwise.
    A task of the Scheduler that is the callback node of the root on entry is
    cancelled right after the lanes are marked, when there are no next lanes
    or the priority changes. *)
Theorem ensureRootIsScheduled_records_the_task :
  forall (root : RootId) (currentTime : Z) (s : State),
    let o := ensureRootIsScheduled root currentTime s in
    let marked := MarkStarvedLanesAsExpired root currentTime in
    let s1 := snd (world E _ marked s) in
    let nextLanes := nextLanesOf root s1 in
    let newPriority := getHighestPriorityLane E nextLanes in
    (exists rest, trace o = Called marked :: rest) /\
    (res o = Ret tt ->
       (nextLanes = NoLanes ->
          callbackNode (roots (final o) root) = None /\
          callbackPriority (roots (final o) root) = NoLane) /\
       (nextLanes <> NoLanes ->
          DEV cfg = false \/ callbackNode (roots s root) <> None \/
          newPriority = SyncLane E \/ callbackPriority (roots s1 root) <> newPriority ->
          callbackPriority (roots (final o) root) = newPriority) /\
       (nextLanes <> NoLanes -> callbackPriority (roots s1 root) <> newPriority ->
          if newPriority =? SyncLane E
          then callbackNode (roots (final o) root) = None
          else exists node, callbackNode (roots (final o) root) = Some node)) /\
    (forall task,
       callbackNode (roots s root) = Some (SchedulerTask task) ->
       fst (world E _ marked s) = Ret tt ->
       nextLanes = NoLanes \/ callbackPriority (roots s1 root) <> newPriority ->
       exists rest,
         trace o = Called marked :: Called (Scheduler_cancelCallback (SchedulerTask task))
                     :: rest).
Proof.
  intros root currentTime s o marked s1 nextLanes newPriority.
  split; [|split].
  - unfold o, ensureRootIsScheduled. rewrite bind_get. cbv zeta.
    match goal with
    | |- context [bind (call ?c) ?k s] =>
        destruct (bind_trace_prefix (call c) k s) as (rest & Hrest)
    end.
    rewrite run_call in Hrest. cbn [trace app] in Hrest. eauto.
  - assert (H : wp (ensureRootIsScheduled root currentTime)
                  (fun r s' =>
                     r = Ret tt ->
                     (nextLanes = NoLanes ->
                        callbackNode (roots s' root) = None /\
                        callbackPriority (roots s' root) = NoLane) /\
                     (nextLanes <> NoLanes ->
                        DEV cfg = false \/ callbackNode (roots s root) <> None \/
                        newPriority = SyncLane E \/
                        callbackPriority (roots s1 root) <> newPriority ->
                        callbackPriority (roots s' root) = newPriority) /\
                     (nextLanes <> NoLanes ->
                        callbackPriority (roots s1 root) <> newPriority ->
                        if newPriority =? SyncLane E
                        then callbackNode (roots s' root) = None
                        else exists node, callbackNode (roots s' root) = Some node)) s).
    { unfold ensureRootIsScheduled.
      wp_step. wp_step. wp_step. wp_step. wp_step; try discriminate.
      assert (Hs1 : s1 = s0) by (unfold s1, marked; now rewrite Hw).
      clearbody s1. subst s0. clear Hw.
      wp_step. wp_step. wp_step. wp_step. fold (nextLanesOf root s1). fold nextLanes.
      fold newPriority.
      repeat (wp_run; try wp_skip); try discriminate; intros _;
        rewrite ?roots_wrRoot_same, ?roots_wr; cbn [callbackNode callbackPriority
          set_callbackNode set_callbackPriority];
        tests; repeat split; intros; try congruence; try contradiction; eauto;
        try (intuition congruence);
        destruct (callbackNode (roots s root)); cbn in *; try discriminate;
        exfalso; intuition congruence. }
    exact H.
  - intros task Hnode Hmarked Hstale.
    unfold o, ensureRootIsScheduled. rewrite bind_get. cbv zeta.
    rewrite bind_call. fold marked.
    assert (Hw : world E unit marked s = (Ret tt, s1)).
    { unfold s1. destruct (world E unit marked s) as [[[]| |] s0]; try discriminate Hmarked.
      reflexivity. }
    rewrite Hw. cbn [fst snd]. rewrite bind_get.
    fold (nextLanesOf root s1). fold nextLanes. fold newPriority.
    rewrite Hnode.
    assert (Hcancel : forall (k : unit -> M unit) st,
               exists rest,
                 trace (bind (cancelCallback (SchedulerTask task)) k st)
                 = Called (Scheduler_cancelCallback (SchedulerTask task)) :: rest).
    { intros k st. unfold cancelCallback. cbn [CallbackNode_eqb]. rewrite andb_false_r.
      destruct (bind_trace_prefix (call (Scheduler_cancelCallback (SchedulerTask task))) k st)
        as (rest & Hrest).
      rewrite run_call in Hrest. cbn [trace app] in Hrest. eauto. }
    destruct (nextLanes =? NoLanes) eqn:Hnext.
    + destruct (Hcancel (fun _ => modify (wrRoot root (fun r =>
                   set_callbackPriority NoLane (set_callbackNode None r)))) s1)
        as (rest & Hrest).
      exists rest. cbn [trace prepend app]. now rewrite Hrest.
    + apply Z.eqb_neq in Hnext.
      destruct Hstale as [Hstale|Hstale]; [contradiction|].
      rewrite bind_get.
      apply Z.eqb_neq in Hstale. rewrite Hstale. cbn [andb].
      match goal with
      | |- context [bind (cancelCallback (SchedulerTask task)) ?k s1] =>
          destruct (Hcancel k s1) as (rest & Hrest)
      end.
      exists rest. cbn [trace prepend app]. now rewrite Hrest.
Qed.

(** *** Event times *)

(** X17.  [requestEventTime] makes no call.  While rendering or committing it
    returns the current time and stores nothing.  Otherwise the first call
    stores the time it returns, and as long as [currentEventTime] is left
    alone every later call outside a render or commit returns that same time,
    however the clock has moved, provided the time is not the reserved value
    [NoTimestamp]. *)
Theorem requestEventTime_is_stable :
  forall (s : State),
    let o := requestEventTime s in
    trace o = [] /\
    (isWorking s = true -> o = ret (now E s) s) /\
    (isWorking s = false ->
       exists t,
         res o = Ret t /\
         rd currentEventTime (final o) = t /\
         (rd currentEventTime s <> NoTimestamp -> t = rd currentEventTime s /\ final o = s) /\
         (rd currentEventTime s = NoTimestamp -> t = now E s) /\
         (t <> NoTimestamp ->
            forall later,
              isWorking later = false -> rd currentEventTime later = t ->
              requestEventTime later = ret t later)).
Proof.
  intros s o. unfold o, requestEventTime, isWorking. rewrite bind_get.
  destruct (negb (Z.land (rd executionContext s) (Z.lor RenderContext CommitContext)
                  =? NoContext)) eqn:Hctx.
  - split; [reflexivity|]. split; [reflexivity|discriminate].
  - assert (Hlater : forall t later,
               t <> NoTimestamp ->
               negb (Z.land (rd executionContext later) (Z.lor RenderContext CommitContext)
                     =? NoContext) = false ->
               rd currentEventTime later = t ->
               requestEventTime later = ret t later).
    { intros t later Ht Hl Hc. unfold requestEventTime. rewrite bind_get, Hl, Hc.
      apply Z.eqb_neq in Ht. now rewrite Ht. }
    destruct (negb (rd currentEventTime s =? NoTimestamp)) eqn:Hset.
    + split; [reflexivity|]. split; [discriminate|]. intros _.
      exists (rd currentEventTime s). cbn [ret res final].
      apply negb_true_iff, Z.eqb_neq in Hset.
      repeat split; auto; intros; contradiction.
    + rewrite bind_setVar. split; [reflexivity|]. split; [discriminate|]. intros _.
      exists (now E s). cbn [ret res final]. rdwr.
      apply negb_false_iff, Z.eqb_eq in Hset.
      repeat split; auto; intros; contradiction.
Qed.

(** *** Delayed commits *)

Lemma jnd_ceiling t : 4320 <= t -> t <= - ((- t) / 1960) * 1960 < t + 1960.
Proof.
  intros Ht.
  pose proof (Z.div_mod (- t) 1960 ltac:(lia)) as Hdm.
  pose proof (Z.mod_pos_bound (- t) 1960 ltac:(lia)) as Hm.
  lia.
Qed.

Lemma jnd_bounds t : t <= jnd t /\ (0 <= t -> jnd t - t < 1960).
Proof.
  unfold jnd.
  repeat match goal with
         | |- context [?a <? ?b] => destruct (Z.ltb_spec a b)
         end; try lia.
  pose proof (jnd_ceiling t ltac:(lia)). lia.
Qed.

Lemma jnd_monotone t t' : t <= t' -> jnd t <= jnd t'.
Proof.
  intros Hle. unfold jnd.
  repeat match goal with
         | |- context [?a <? ?b] => destruct (Z.ltb_spec a b)
         end; try lia;
    try (pose proof (jnd_ceiling t' ltac:(lia)); lia).
  assert (- t' <= - t) by lia.
  pose proof (Z.div_le_mono (- t') (- t) 1960 ltac:(lia) ltac:(lia)). lia.
Qed.

(** X18.  A render that suspended with a delay.  [jnd] rounds the elapsed time up:
    it is never below its argument, is monotone, and for an elapsed time that
    is not negative less than 1960ms above it.  So, when
    [finishConcurrentRender] is given the status [RootSuspendedWithDelay]:
    lanes that include only transitions are marked suspended and nothing
    else is done; for other lanes, outside an [act] scope of DEV, either the
    commit is handed to [scheduleTimeout] with a delay of more than 10ms and
    less than 1960ms, and the handle is kept in [root.timeoutHandle], or at
    most 10ms are left and the root is committed at once. *)
Theorem delayed_commit_waits_a_just_noticeable_time :
  forall (fuel : nat) (root : RootId) (l : Lanes) (s : State),
    let o := finishConcurrentRender fuel root RootSuspendedWithDelay l s in
    let marking := markRootSuspended root l s in
    let s1 := final marking in
    let timeElapsedMs := now E s1 - getMostRecentEventTime E root l s1 in
    let errors := rd workInProgressRootRecoverableErrors s1 in
    let transitions := rd workInProgressTransitions s1 in
    (forall t t', t <= jnd t /\ (0 <= t -> jnd t - t < 1960) /\ (t <= t' -> jnd t <= jnd t')) /\
    (includesOnlyTransitions E l = true -> o = marking) /\
    (res marking = Ret tt -> includesOnlyTransitions E l = false ->
     shouldForceFlushFallbacksInDEV s1 = false -> 0 <= timeElapsedMs ->
       (exists ms,
          10 < ms < 1960 /\ ms = jnd timeElapsedMs - timeElapsedMs /\
          trace o
          = trace marking
            ++ [Called (ScheduleTimeout (CommitRootFn root errors transitions) ms)] /\
          forall handle,
            fst (world E _ (ScheduleTimeout (CommitRootFn root errors transitions) ms) s1)
            = Ret handle ->
            res o = Ret tt /\ timeoutHandle (roots (final o) root) = Some handle) \/
       (jnd timeElapsedMs - timeElapsedMs <= 10 /\
        o = prepend (trace marking) (commitRoot fuel root errors transitions s1))).
Proof.
  intros fuel root l s o marking s1 timeElapsedMs errors transitions.
  split; [|split].
  - intros t t'. destruct (jnd_bounds t) as [H1 H2]. split; [exact H1|].
    split; [exact H2|apply jnd_monotone].
  - intros Honly. unfold o, finishConcurrentRender. rewrite Honly, run_bind.
    fold marking. destruct marking as [[[]| |] st tr]; cbn; unfold prepend; cbn;
      now rewrite ?app_nil_r.
  - intros Hmarked Honly Hact Helapsed.
    unfold o, finishConcurrentRender. rewrite Honly, run_bind. fold marking.
    rewrite Hmarked. fold s1. rewrite bind_get. cbv zeta.
    fold timeElapsedMs. rewrite Hact. cbn [negb andb].
    destruct (10 <? jnd timeElapsedMs - timeElapsedMs) eqn:Hleft.
    + left. apply Z.ltb_lt in Hleft.
      exists (jnd timeElapsedMs - timeElapsedMs).
      destruct (jnd_bounds timeElapsedMs) as [_ Hup].
      split; [split; [exact Hleft|exact (Hup Helapsed)]|]. split; [reflexivity|].
      fold errors transitions. rewrite bind_call.
      destruct (world E TimeoutHandle
                  (ScheduleTimeout (CommitRootFn root errors transitions)
                     (jnd timeElapsedMs - timeElapsedMs)) s1) as [[h|e|] s2];
        cbn [fst snd trace prepend res final modify app]; (split; [reflexivity|]);
        intros handle Hh; try discriminate Hh.
      injection Hh as ->. split; [reflexivity|].
      now rewrite roots_wrRoot_same.
    + right. apply Z.ltb_ge in Hleft. split; [exact Hleft|reflexivity].
Qed.

(** *** What a render reports *)

(** What the fibers of a render report to the work loop. *)
Inductive Report : Type :=
| DidError (error : CapturedValue)
| DidSuspend.

Definition report (r : Report) : M unit :=
  match r with
  | DidError error => renderDidError error
  | DidSuspend => renderDidSuspend
  end.

Fixpoint reportAll (rs : list Report) : M unit :=
  match rs with
  | [] => ret tt
  | r :: rest => report r ;; reportAll rest
  end.

Definition errorsOf (rs : list Report) : list CapturedValue :=
  flat_map (fun r => match r with DidError error => [error] | DidSuspend => [] end) rs.

Definition hasSuspended (rs : list Report) : bool :=
  existsb (fun r => match r with DidSuspend => true | DidError _ => false end) rs.

(** The exit status after the reports [rs], from the status [status]. *)
Definition statusAfter (status : RootExitStatus) (rs : list Report) : RootExitStatus :=
  match status with
  | RootSuspendedWithDelay => RootSuspendedWithDelay
  | _ =>
      match errorsOf rs with
      | _ :: _ => RootErrored
      | [] =>
          match status with
          | RootInProgress => if hasSuspended rs then RootSuspended else RootInProgress
          | _ => status
          end
      end
  end.

Definition errorsAfter (errors : option (list CapturedValue)) (rs : list Report)
  : option (list CapturedValue) :=
  match errorsOf rs, errors with
  | [], _ => errors
  | new, None => Some new
  | new, Some old => Some (old ++ new)
  end.

Lemma statusAfter_cons status r rs :
  statusAfter status (r :: rs) = statusAfter (statusAfter status [r]) rs.
Proof.
  unfold statusAfter, hasSuspended.
  destruct r as [error|]; cbn [errorsOf flat_map app existsb orb];
    fold (errorsOf rs); destruct status; try reflexivity;
    destruct (errorsOf rs); try reflexivity;
    destruct (existsb _ rs); reflexivity.
Qed.

Lemma errorsAfter_cons errors r rs :
  errorsAfter errors (r :: rs) = errorsAfter (errorsAfter errors [r]) rs.
Proof.
  unfold errorsAfter. destruct r as [error|]; cbn [errorsOf flat_map app].
  - fold (errorsOf rs).
    destruct (errorsOf rs) as [|e' rest]; destruct errors as [old|]; try reflexivity.
    now rewrite <- app_assoc.
  - reflexivity.
Qed.

Lemma statusAfter_swap status a b :
  statusAfter (statusAfter status [a]) [b] = statusAfter (statusAfter status [b]) [a].
Proof. destruct a, b, status; reflexivity. Qed.

Lemma statusAfter_Permutation rs rs' :
  Permutation rs rs' -> forall status, statusAfter status rs = statusAfter status rs'.
Proof.
  induction 1 as [|x l l' Hp IH|x y l|l l' l'' Hp1 IH1 Hp2 IH2]; intros status.
  - reflexivity.
  - rewrite (statusAfter_cons status x l), (statusAfter_cons status x l'). apply IH.
  - rewrite (statusAfter_cons status y (x :: l)),
      (statusAfter_cons (statusAfter status [y]) x l),
      (statusAfter_cons status x (y :: l)),
      (statusAfter_cons (statusAfter status [x]) y l).
    now rewrite statusAfter_swap.
  - now rewrite IH1.
Qed.

(** The state [s'] differs from [s] in the exit status and the concurrent
    errors at most. *)
Definition reportedFrom (s s' : State) : Prop :=
  (forall x, x <> workInProgressRootExitStatus -> x <> workInProgressRootConcurrentErrors ->
             rd x s' = rd x s) /\
  roots s' = roots s /\ fibers s' = fibers s /\ env s' = env s.

Lemma report_run r s :
  res (report r s) = Ret tt /\ trace (report r s) = [] /\
  rd workInProgressRootExitStatus (final (report r s))
  = statusAfter (rd workInProgressRootExitStatus s) [r] /\
  rd workInProgressRootConcurrentErrors (final (report r s))
  = errorsAfter (rd workInProgressRootConcurrentErrors s) [r] /\
  reportedFrom s (final (report r s)).
Proof.
  destruct r as [error|]; cbn [report].
  - unfold renderDidError. rewrite bind_get.
    destruct (rd workInProgressRootExitStatus s) eqn:Hst;
      cbn [RootExitStatus_eqb negb]; rewrite ?bind_when_true, ?bind_when_false,
        ?bind_setVar, bind_get; rdwr;
      destruct (rd workInProgressRootConcurrentErrors s) eqn:Herr;
      cbn [setVar modify res trace final]; rdwr; rewrite ?Hst;
      (repeat split; try reflexivity; intros x H1 H2; rdwr;
       rewrite ?rd_wr_other by congruence; reflexivity).
  - unfold renderDidSuspend. rewrite bind_get.
    destruct (rd workInProgressRootExitStatus s) eqn:Hst;
      cbn [RootExitStatus_eqb when ret setVar modify res trace final]; rdwr;
      rewrite ?Hst;
      (repeat split; try reflexivity; intros x H1 H2; rdwr;
       rewrite ?rd_wr_other by congruence; reflexivity).
Qed.

Lemma reportAll_run rs :
  forall s,
    res (reportAll rs s) = Ret tt /\ trace (reportAll rs s) = [] /\
    rd workInProgressRootExitStatus (final (reportAll rs s))
    = statusAfter (rd workInProgressRootExitStatus s) rs /\
    rd workInProgressRootConcurrentErrors (final (reportAll rs s))
    = errorsAfter (rd workInProgressRootConcurrentErrors s) rs /\
    reportedFrom s (final (reportAll rs s)).
Proof.
  induction rs as [|r rs IH]; intros s.
  - cbn [reportAll ret res trace final]. repeat split.
    now destruct (rd workInProgressRootExitStatus s).
  - cbn [reportAll]. rewrite run_bind.
    destruct (report_run r s) as (Hres & Htrace & Hst & Herr & Hsame & Hr & Hf & He).
    rewrite Hres, Htrace. rewrite prepend_nil.
    destruct (IH (final (report r s))) as (Ires & Itrace & Ist & Ierr & Isame & Ir & If & Ie).
    split; [exact Ires|]. split; [exact Itrace|].
    split; [now rewrite Ist, Hst, <- statusAfter_cons|].
    split; [now rewrite Ierr, Herr, <- errorsAfter_cons|].
    split; [|repeat split; congruence].
    intros x H1 H2. rewrite (Isame x H1 H2). now apply Hsame.
Qed.

(** X19.  The exit status of a render does not depend on the order in which its
    fibers report errors and suspensions through [renderDidError] and
    [renderDidSuspend]: a status [RootSuspendedWithDelay] stays; otherwise
    any error makes the status [RootErrored]; otherwise a suspension turns
    [RootInProgress] into [RootSuspended] and leaves any other status.  The
    errors are appended to the concurrent errors in the order reported;
    nothing else changes and no call is made. *)
Theorem exit_status_ignores_report_order :
  forall (rs : list Report) (s : State),
    let o := reportAll rs s in
    res o = Ret tt /\ trace o = [] /\
    rd workInProgressRootExitStatus (final o)
    = statusAfter (rd workInProgressRootExitStatus s) rs /\
    rd workInProgressRootConcurrentErrors (final o)
    = errorsAfter (rd workInProgressRootConcurrentErrors s) rs /\
    reportedFrom s (final o) /\
    (forall rs', Permutation rs rs' ->
       rd workInProgressRootExitStatus (final (reportAll rs' s))
       = rd workInProgressRootExitStatus (final o)).
Proof.
  intros rs s o.
  destruct (reportAll_run rs s) as (Hres & Htrace & Hst & Herr & Hsame).
  repeat split; try assumption; try apply Hsame.
  intros rs' Hperm. destruct (reportAll_run rs' s) as (_ & _ & Hst' & _).
  unfold o. rewrite Hst, Hst'. symmetry. now apply statusAfter_Permutation.
Qed.

(** *** The update priority around code of the caller *)

Lemma flushSyncCallbacks_priority fuel s :
  wp (flushSyncCallbacks fuel)
     (fun r s' => r <> NoFuel -> rd currentUpdatePriority s' = rd currentUpdatePriority s) s.
Proof.
  unfold flushSyncCallbacks. wp_run; auto.
  wp_skip; wp_run; rdwr; intros Hne; try reflexivity. now destruct Hne.
Qed.

(** X20.  Whatever sets the update priority puts it back.  [commitRoot],
    [deferredUpdates] and [discreteUpdates] leave [currentUpdatePriority] and
    the transition of the batch configuration as they found them whenever
    they end, by a return or by an exception; [flushControlled] leaves the
    update priority as it found it, and [flushSync] as it was once the
    pending passive effects of a legacy root were flushed, whatever the
    synchronous callbacks they flush do.  [deferredUpdates] and
    [discreteUpdates] run [fn] once, with no transition and at the default
    and the discrete event priority; what [fn] returns or throws is what
    they return or throw. *)
Theorem update_priority_is_restored :
  forall (A : Type) (fuel : nat) (fn : M A) (root : RootId)
         (recoverableErrors : option (list CapturedValue)) (transitions : Transitions)
         (s : State),
    let restored (s' : State) :=
      rd currentUpdatePriority s' = rd currentUpdatePriority s /\
      rd batchConfigTransition s' = rd batchConfigTransition s in
    let at_ (priority : Lane) :=
      fn (wr currentUpdatePriority priority (wr batchConfigTransition None s)) in
    (let o := commitRoot fuel root recoverableErrors transitions s in
     res o <> NoFuel -> restored (final o)) /\
    (let o := deferredUpdates fn s in
     res o = res (at_ (DefaultEventPriority E)) /\
     trace o = trace (at_ (DefaultEventPriority E)) /\
     (res o <> NoFuel -> restored (final o))) /\
    (let o := discreteUpdates fn s in
     res o = res (at_ (DiscreteEventPriority E)) /\
     trace o = trace (at_ (DiscreteEventPriority E)) /\
     (res o <> NoFuel -> restored (final o))) /\
    (let o := flushControlled fuel fn s in
     res o <> NoFuel -> rd currentUpdatePriority (final o) = rd currentUpdatePriority s) /\
    (forall maybeFn : option (M A),
       let o := flushSync fuel maybeFn s in
       exists s0,
         (s0 = s \/ s0 = final (flushPassiveEffects fuel s)) /\
         (res o <> NoFuel ->
          rd currentUpdatePriority (final o) = rd currentUpdatePriority s0)).
Proof.
  intros A fuel fn root recoverableErrors transitions s restored at_.
  split; [|split; [|split; [|split]]].
  - cbv zeta.
    assert (H : wp (commitRoot fuel root recoverableErrors transitions)
                  (fun r s' => r <> NoFuel -> restored s') s).
    { unfold commitRoot, restored. wp_run.
      wp_skip; wp_run; rdwr; intros Hne; try (now destruct Hne); split; reflexivity. }
    exact H.
  - cbv zeta. split; [|split].
    + unfold deferredUpdates, at_. rewrite bind_get. cbv zeta.
      rewrite run_tryFinally, !bind_setVar.
      destruct (res (fn _)) eqn:Hr; rewrite ?Hr; reflexivity.
    + unfold deferredUpdates, at_. rewrite bind_get. cbv zeta.
      rewrite run_tryFinally, !bind_setVar.
      destruct (res (fn _)) eqn:Hr; cbn [trace setVar modify res]; now rewrite ?app_nil_r.
    + assert (H : wp (deferredUpdates fn) (fun r s' => r <> NoFuel -> restored s') s).
      { unfold deferredUpdates, restored. wp_run.
        wp_skip; wp_run; rdwr; intros Hne; try (now destruct Hne); split; reflexivity. }
      exact H.
  - cbv zeta. split; [|split].
    + unfold discreteUpdates, at_, resetRenderTimer. rewrite bind_get. cbv zeta.
      rewrite run_tryFinally, !bind_setVar.
      destruct (res (fn _)) eqn:Hr; rewrite ?Hr; try reflexivity;
        rewrite ?bind_setVar, ?bind_get;
        match goal with |- context [when ?b _] => destruct b end;
        cbn [when]; rewrite ?bind_get; reflexivity.
    + unfold discreteUpdates, at_, resetRenderTimer. rewrite bind_get. cbv zeta.
      rewrite run_tryFinally, !bind_setVar.
      destruct (res (fn _)) eqn:Hr; try reflexivity;
        rewrite ?bind_setVar, ?bind_get;
        match goal with |- context [when ?b _] => destruct b end;
        cbn [when]; rewrite ?bind_get; cbn [trace setVar modify res ret];
        now rewrite ?app_nil_r.
    + assert (H : wp (discreteUpdates fn) (fun r s' => r <> NoFuel -> restored s') s).
      { unfold discreteUpdates, restored, resetRenderTimer. wp_run;
        wp_skip; wp_run; rdwr; intros Hne; try (now destruct Hne); split; reflexivity. }
      exact H.
  - cbv zeta.
    assert (H : wp (flushControlled fuel fn)
                  (fun r s' => r <> NoFuel ->
                               rd currentUpdatePriority s' = rd currentUpdatePriority s) s).
    { unfold flushControlled, resetRenderTimer. wp_run.
      wp_skip; wp_run;
        try (eapply wp_conseq; [apply flushSyncCallbacks_priority|];
             intros [[]|e'|] s'; unfold afterFinally; cbv beta iota; rdwr;
             intros Hp Hne; try (now destruct Hne); apply Hp; discriminate);
        rdwr; intros Hne; try (now destruct Hne); reflexivity. }
    exact H.
  - intros maybeFn. cbv zeta.
    assert (Hrest : forall s0,
               (s0 = s \/ s0 = final (flushPassiveEffects fuel s)) ->
               forall Q : Res (option A) -> State -> Prop,
                 (forall r s', (r <> NoFuel ->
                                rd currentUpdatePriority s' = rd currentUpdatePriority s0) ->
                               Q r s') ->
                 wp (s1 <- get ;;
                     setVar executionContext (Z.lor (rd executionContext s1) BatchedContext) ;;
                     s2 <- get ;;
                     tryFinally
                       (setVar batchConfigTransition None ;;
                        setVar currentUpdatePriority (DiscreteEventPriority E) ;;
                        match maybeFn with
                        | Some f => a <- f ;; ret (Some a)
                        | None => ret None
                        end)
                       (setVar currentUpdatePriority (rd currentUpdatePriority s2) ;;
                        setVar batchConfigTransition (rd batchConfigTransition s2) ;;
                        setVar executionContext (rd executionContext s1) ;;
                        s3 <- get ;;
                        when (Z.land (rd executionContext s3)
                                (Z.lor RenderContext CommitContext) =? NoContext)
                          (flushSyncCallbacks fuel))) Q s0).
    { intros s0 _ Q HQ. wp_run;
        repeat match goal with
               | |- wp (flushSyncCallbacks _) _ _ =>
                   eapply wp_conseq; [apply flushSyncCallbacks_priority|];
                   intros [[]|e'|] s'; unfold afterFinally; cbv beta iota; rdwr;
                   intros Hp; apply HQ; intros Hne; try (now destruct Hne);
                   apply Hp; discriminate
               | |- wp _ _ _ => wp_skip; wp_run
               end;
        apply HQ; rdwr; intros Hne; try (now destruct Hne); reflexivity. }
    set (Q := fun (r : Res (option A)) (s' : State) =>
                exists s0,
                  (s0 = s \/ s0 = final (flushPassiveEffects fuel s)) /\
                  (r <> NoFuel ->
                   rd currentUpdatePriority s' = rd currentUpdatePriority s0)).
    assert (H : wp (flushSync fuel maybeFn) Q s).
    { unfold flushSync. wp_step. wp_step. wp_step. wp_step.
      match goal with |- wp (when ?b _) _ _ => destruct b end; cbn [when].
      - apply wp_bind. unfold wp at 1.
        destruct (res (flushPassiveEffects fuel s)) as [b|e|] eqn:Hflush;
          unfold andThen at 1; cbv beta iota.
        + wp_step. wp_step.
          apply (Hrest (final (flushPassiveEffects fuel s)) (or_intror eq_refl)).
          intros r s' Hp. exists (final (flushPassiveEffects fuel s)). auto.
        + unfold andThen. exists (final (flushPassiveEffects fuel s)). split; auto.
        + unfold andThen. exists s. split; auto. intros Hne. now destruct Hne.
      - wp_step. wp_step.
        apply (Hrest s (or_introl eq_refl)).
        intros r s' Hp. exists s. auto. }
    exact H.
Qed.

(** *** The entry points *)

Definition alreadyWorking : JsValue := "Should not already be working."%string.

(** X21.  The entry points do not nest.  Called while a render or a commit is
    running, [performSyncWorkOnRoot] and [performConcurrentWorkOnRoot] throw
    "Should not already be working." before they call anything;
    [performSyncWorkOnRoot] has then changed nothing, and
    [performConcurrentWorkOnRoot] has reset the event time and the event
    transition lane and nothing else.  Called outside a render or commit with
    no passive effects pending and no lanes to work on,
    [performConcurrentWorkOnRoot] returns null and calls nothing. *)
Theorem entry_points_do_not_nest :
  forall (fuel : nat) (root : RootId) (didTimeout : bool) (s : State),
    let sync := performSyncWorkOnRoot_body fuel root s in
    let concurrent := performConcurrentWorkOnRoot fuel root didTimeout s in
    let reset :=
      wr currentEventTransitionLane NoLanes (wr currentEventTime NoTimestamp s) in
    (isWorking s = true ->
       sync = throw alreadyWorking s /\ concurrent = throw alreadyWorking reset) /\
    (isWorking s = false ->
     rd rootWithPendingPassiveEffects s = None ->
     getNextLanes E root
       (if same_id (Some root) (rd workInProgressRoot s)
        then rd workInProgressRootRenderLanes s else NoLanes) reset = NoLanes ->
       concurrent = ret None reset).
Proof.
  intros fuel root didTimeout s sync concurrent reset. unfold isWorking. split.
  - intros Hworking. split.
    + unfold sync, performSyncWorkOnRoot_body. now rewrite bind_get, Hworking.
    + unfold concurrent, performConcurrentWorkOnRoot.
      rewrite !bind_setVar, bind_get. fold reset.
      replace (rd executionContext reset) with (rd executionContext s)
        by (unfold reset; now rdwr).
      now rewrite Hworking.
  - intros Hidle Hpending Hlanes.
    unfold concurrent, performConcurrentWorkOnRoot.
    rewrite !bind_setVar, bind_get. fold reset.
    replace (rd executionContext reset) with (rd executionContext s)
      by (unfold reset; now rdwr).
    rewrite Hidle. cbv zeta.
    unfold flushPassiveEffects. rewrite bind_bind, bind_get.
    replace (rd rootWithPendingPassiveEffects reset) with (rd rootWithPendingPassiveEffects s)
      by (unfold reset; now rdwr).
    rewrite Hpending, bind_ret, bind_get. cbn [andb].
    replace (rd workInProgressRoot reset) with (rd workInProgressRoot s)
      by (unfold reset; now rdwr).
    replace (rd workInProgressRootRenderLanes reset) with (rd workInProgressRootRenderLanes s)
      by (unfold reset; now rdwr).
    rewrite Hlanes. reflexivity.
Qed.

(** *** What a computation calls *)

(** [Only P m]: every event of every run of [m] satisfies [P]. *)
Definition Only (P : Event -> bool) {A : Type} (m : M A) : Prop :=
  forall s, forallb P (trace (m s)) = true.

Lemma Only_ret P {A : Type} (a : A) : Only P (ret a).
Proof. intros s. reflexivity. Qed.

Lemma Only_get P : Only P get.
Proof. intros s. reflexivity. Qed.

Lemma Only_modify P f : Only P (modify f).
Proof. intros s. reflexivity. Qed.

Lemma Only_setVar P x v : Only P (setVar x v).
Proof. intros s. reflexivity. Qed.

Lemma Only_throw P {A : Type} e : Only P (@throw A e).
Proof. intros s. reflexivity. Qed.

Lemma Only_noFuel P {A : Type} : Only P (@noFuel A).
Proof. intros s. reflexivity. Qed.

Lemma Only_mark P e : P e = true -> Only P (mark e).
Proof. intros H s. cbn. now rewrite H. Qed.

Lemma Only_call P {A : Type} (c : Ext A) : P (Called c) = true -> Only P (call c).
Proof. intros H s. rewrite run_call. cbn. now rewrite H. Qed.

Lemma Only_bind P {A B : Type} (m : M A) (k : A -> M B) :
  Only P m -> (forall a, Only P (k a)) -> Only P (bind m k).
Proof.
  intros Hm Hk s. rewrite run_bind.
  destruct (res (m s)) as [a| |]; cbn; [|apply Hm..].
  rewrite forallb_app, Hm. apply Hk.
Qed.

Lemma Only_tryCatch P {A : Type} (m : M A) (h : JsValue -> M A) :
  Only P m -> (forall e, Only P (h e)) -> Only P (tryCatch m h).
Proof.
  intros Hm Hh s. unfold tryCatch.
  destruct (res (m s)) as [a|e|]; cbn; [apply Hm| |apply Hm].
  rewrite forallb_app, Hm. apply Hh.
Qed.

Lemma Only_when P b m : Only P m -> Only P (when b m).
Proof. intros Hm. destruct b; [exact Hm|apply Only_ret]. Qed.

Ltac calls_only :=
  repeat
    first
      [ assumption
      | match goal with H : forall x, Only _ _ |- _ => apply H end
      | apply Only_ret
      | apply Only_get
      | apply Only_setVar
      | apply Only_modify
      | apply Only_throw
      | apply Only_noFuel
      | apply Only_call; reflexivity
      | apply Only_mark; reflexivity
      | apply Only_when
      | apply Only_bind; [|intros ?]
      | apply Only_tryCatch; [|intros ?]
      | match goal with
        | |- Only _ (if ?b then _ else _) => destruct b
        | |- Only _ (match ?x with _ => _ end) => destruct x
        | |- Only _ (let _ := _ in _) => cbv zeta
        end ].

(** The events of the render phase: the calls to the functions that begin,
    complete and unwind fibers, to the bookkeeping of the stack, the
    contexts and the dispatcher, and the entry of a render. *)
Definition ofRender (e : Event) : bool :=
  match e with
  | Called c =>
      match c with
      | BeginWork _ _ _ | CompleteWork _ _ _ | UnwindWork _ _ _
      | UnwindInterruptedWork _ _ _ | ThrowException _ _ _ _ _
      | CreateWorkInProgress _ | FinishQueueingConcurrentUpdates
      | ResetContextDependencies | ResetHooksAfterThrow | PushDispatcher | PopDispatcher
      | DiscardPendingWarnings | GetTransitionsForLanes _ _ | CancelTimeout _ => true
      | _ => false
      end
  | EnterRenderRootSync _ _ | EnterRenderRootConcurrent _ _ => true
  | EnterCommitRoot _ _ | AssignCurrent _ _ => false
  end.

(** What is true of every event but the cancellation of a timeout. *)
Definition notCancel (e : Event) : bool :=
  match e with
  | Called c => match c with CancelTimeout _ => false | _ => true end
  | _ => true
  end.

Section CalledBy.

Variable P : Event -> bool.
Hypothesis P_render : forall e, ofRender e = true -> notCancel e = true -> P e = true.

Ltac mine := calls_only; try (apply Only_call; apply P_render; reflexivity).

Lemma Only_unwindInterrupted fuel w : Only P (unwindInterrupted fuel w).
Proof. revert w. induction fuel as [|fuel IH]; intros [w|]; cbn; mine. Qed.

Lemma Only_completeUnitOfWork fuel w : Only P (completeUnitOfWork fuel w).
Proof.
  unfold completeUnitOfWork. revert w.
  induction fuel as [|fuel IH]; intros w; cbn; mine.
Qed.

Lemma Only_performUnitOfWork fuel w : Only P (performUnitOfWork fuel w).
Proof. unfold performUnitOfWork. pose proof (Only_completeUnitOfWork fuel w). mine. Qed.

Lemma Only_handleError bound fuel root v : Only P (handleError bound fuel root v).
Proof.
  revert v. induction fuel as [|fuel IH]; intros v; cbn; [mine|].
  apply Only_bind; [mine|intros s0]. cbv zeta.
  apply Only_tryCatch; [|intros e; mine].
  mine; apply Only_completeUnitOfWork.
Qed.

Lemma Only_workLoopSync fuel : Only P (workLoopSync fuel).
Proof.
  unfold workLoopSync. generalize fuel at 1. intros bound.
  induction fuel as [|fuel IH]; cbn; mine;
    first [apply Only_performUnitOfWork|apply Only_completeUnitOfWork].
Qed.

Lemma Only_workLoopConcurrent fuel : Only P (workLoopConcurrent fuel).
Proof.
  unfold workLoopConcurrent. generalize fuel at 1. intros bound.
  induction fuel as [|fuel IH]; cbn; mine;
    first [apply Only_performUnitOfWork|apply Only_completeUnitOfWork].
Qed.

Lemma Only_renderLoop workLoop bound fuel root :
  Only P workLoop -> Only P (renderLoop workLoop bound fuel root).
Proof.
  intros Hw. induction fuel as [|fuel IH]; cbn; mine. apply Only_handleError.
Qed.

End CalledBy.

Lemma ofRender_itself e : ofRender e = true -> notCancel e = true -> ofRender e = true.
Proof. auto. Qed.

Lemma notCancel_itself e : ofRender e = true -> notCancel e = true -> notCancel e = true.
Proof. auto. Qed.

Lemma Only_prepareFreshStack fuel root l : Only ofRender (prepareFreshStack fuel root l).
Proof.
  unfold prepareFreshStack.
  pose proof (Only_unwindInterrupted ofRender ofRender_itself fuel) as Hunwind.
  calls_only.
Qed.


(** The handles of the timeouts a run has cancelled. *)
Definition cancelled (t : list Event) : list TimeoutHandle :=
  flat_map
    (fun e =>
       match e with
       | Called c => match c with CancelTimeout handle => [handle] | _ => [] end
       | _ => []
       end) t.

Lemma cancelled_none t : forallb notCancel t = true -> cancelled t = [].
Proof.
  induction t as [|e t IH]; [reflexivity|]. cbn [forallb]. intros H.
  apply andb_true_iff in H. destruct H as [He Ht]. cbn [cancelled flat_map].
  fold (cancelled t). rewrite (IH Ht), app_nil_r.
  destruct e as [A c| | | |]; try reflexivity. destruct c; try reflexivity. discriminate He.
Qed.

(** X23.  [prepareFreshStack] throws away what is left of the previous attempt.
    The timeout of a commit that is pending on the root is cancelled, once,
    and no other timeout is.  If the calls a render makes outside its work
    loop leave the variables of the render in progress alone, then when
    [prepareFreshStack] returns a fiber, that fiber is in progress on the
    root, at the lanes given, with the exit status [RootInProgress]. *)
Theorem fresh_stack_cancels_the_pending_commit :
  forall (fuel : nat) (root : RootId) (l : Lanes) (s : State),
    let o := prepareFreshStack fuel root l s in
    cancelled (trace o)
    = match timeoutHandle (roots s root) with Some handle => [handle] | None => [] end /\
    (keepsProgress ->
     forall rootWorkInProgress,
       res o = Ret rootWorkInProgress ->
       rd workInProgress (final o) = Some rootWorkInProgress /\
       rd workInProgressRoot (final o) = Some root /\
       rd workInProgressRootRenderLanes (final o) = l /\
       rd workInProgressRootExitStatus (final o) = RootInProgress).
Proof.
  intros fuel root l s o. split.
  - pose proof (Only_unwindInterrupted notCancel notCancel_itself fuel) as Hunwind.
    unfold o, prepareFreshStack. rewrite bind_modify, bind_get.
    rewrite roots_wrRoot_same. cbn [timeoutHandle set_finishedLanes set_finishedWork].
    destruct (timeoutHandle (roots s root)) as [handle|].
    + rewrite bind_bind, bind_modify, bind_call.
      match goal with
      | |- context [world E ?A ?c ?st] => destruct (world E A c st) as [[[]|e|] s1]
      end; cbn [fst snd trace prepend app]; try reflexivity.
      cbn [cancelled flat_map app]. f_equal. apply cancelled_none.
      match goal with |- forallb _ (trace (?m _)) = true => assert (H : Only notCancel m) end.
      { calls_only. }
      apply H.
    + rewrite bind_ret. apply cancelled_none.
      match goal with |- forallb _ (trace (?m _)) = true => assert (H : Only notCancel m) end.
      { calls_only. }
      apply H.
  - intros Hk rootWorkInProgress.
    assert (H : wp (prepareFreshStack fuel root l)
                  (fun r s' =>
                     match r with
                     | Ret wip =>
                         rd workInProgress s' = Some wip /\
                         rd workInProgressRoot s' = Some root /\
                         rd workInProgressRootRenderLanes s' = l /\
                         rd workInProgressRootExitStatus s' = RootInProgress
                     | _ => True
                     end) s).
    { unfold prepareFreshStack.
      wp_run; try exact I; try (wp_skip; wp_run); try exact I;
        repeat split; kept Hk; reflexivity. }
    intros Hres. unfold wp in H. fold o in H. now rewrite Hres in H.
Qed.

End Reentrant.

(** The knot: a call of [performSyncWorkOnRoot] may nest [fuel] further
    calls of itself. *)
Fixpoint performSyncWorkOnRoot (fuel : nat) (root : RootId) : M unit :=
  match fuel with
  | O => noFuel
  | S fuel' => performSyncWorkOnRoot_body (performSyncWorkOnRoot fuel') fuel root
  end.
End WithEnvironment.

Arguments mkState {W}.
Arguments vars {W}.
Arguments roots {W}.
Arguments fibers {W}.
Arguments env {W}.
Arguments rd {W}.
Arguments wr {W}.
Arguments wrRoot {W}.
Arguments wrFiber {W}.
Arguments set_env {W}.
Arguments mkOutcome {W A}.
Arguments res {W A}.
Arguments final {W A}.
Arguments trace {W A}.

(** *** What a run has entered *)

(** The synchronous renders, the commits and the timeouts of a trace. *)
Definition syncRenders (t : list Event) : list (RootId * Lanes) :=
  flat_map (fun e => match e with EnterRenderRootSync r l => [(r, l)] | _ => [] end) t.

Definition concurrentRenders (t : list Event) : list (RootId * Lanes) :=
  flat_map (fun e => match e with EnterRenderRootConcurrent r l => [(r, l)] | _ => [] end) t.

Definition commits (t : list Event) : list RootId :=
  flat_map (fun e => match e with EnterCommitRoot r _ => [r] | _ => [] end) t.

Definition timeouts (t : list Event) : list (ScheduledFn * Z) :=
  flat_map
    (fun e =>
       match e with
       | Called c =>
           match c with
           | ScheduleTimeout fn ms => [(fn, ms)]
           | _ => []
           end
       | _ => []
       end) t.

Definition pings (t : list Event) : list (RootId * Lanes) :=
  flat_map
    (fun e =>
       match e with
       | Called c =>
           match c with
           | MarkRootPinged r l _ => [(r, l)]
           | _ => []
           end
       | _ => []
       end) t.

Definition reports (t : list Event) : list JsValue :=
  flat_map
    (fun e =>
       match e with
       | Called c =>
           match c with
           | OnRecoverableError _ v _ _ => [v]
           | _ => []
           end
       | _ => []
       end) t.

(** *** A host *)

(** What [beginWork] does with a fiber: it has no child, it has the child
    [c], it throws, it has captured an error and rendered its error state
    ([renderDidError]), or it has rendered a fallback ([renderDidSuspend]). *)
Inductive Behaviour : Type :=
| Leaf
| Parent (c : FiberId)
| Throwing (v : JsValue)
| Capturing (error : CapturedValue)
| Suspending.

(** The host of the examples: a clock, the values of the external stores,
    what the calls of [beginWork] do, in order, and a counter for the
    handles it gives out.  No fiber of it handles a thrown value:
    [unwindWork] returns null. *)
Record Host : Type := mkHost {
  clock : Z;
  snapshots : StoreId -> JsValue;
  script : list Behaviour;
  handles : nat
}.

Definition set_script (v : list Behaviour) (h : Host) : Host :=
  mkHost (clock h) (snapshots h) v (handles h).
Definition set_handles (v : nat) (h : Host) : Host :=
  mkHost (clock h) (snapshots h) (script h) v.

Definition SyncLaneBit : Lane := 1.
Definition DefaultLane : Lane := 16.
Definition TransitionLane1 : Lane := 64.
Definition TransitionLanes : Lanes := 4194240.
Definition RetryLane1 : Lane := 4194304.
Definition RetryLane2 : Lane := 8388608.
Definition RetryLane3 : Lane := 16777216.
Definition RetryLanes : Lanes := 130023424.
Definition NonIdleLanes : Lanes := 268435455.
Definition OffscreenLane : Lane := 1073741824.

Definition IncompleteFlag : Flags := 32768.
Definition StoreConsistencyFlag : Flags := 16384.
Definition UpdateFlag : Flags := 4.

Definition beginWorkOf (b : Behaviour) (unitOfWork : FiberId) (s : State Host)
  : Res (option FiberId) * State Host :=
  match b with
  | Leaf => (Ret None, s)
  | Parent c => (Ret (Some c), wrFiber c (set_return_ (Some unitOfWork)) s)
  | Throwing v => (Thrown v, s)
  | Capturing error => (Ret None, final (renderDidError Host error s))
  | Suspending => (Ret None, final (renderDidSuspend Host s))
  end.

Definition hostWorld (A : Type) (c : Ext A) (s : State Host) : Res A * State Host :=
  match c in Ext T return Res T * State Host with
  | BeginWork _ unitOfWork _ =>
      match script (env s) with
      | [] => (Ret None, s)
      | b :: rest => beginWorkOf b unitOfWork (set_env (set_script rest (env s)) s)
      end
  | CompleteWork _ _ _ => (Ret None, s)
  | UnwindWork _ _ _ => (Ret None, s)
  | ThrowException _ _ sourceFiber _ _ =>
      (Ret tt, wrFiber sourceFiber (fun f => set_flags (Z.lor (flags f) IncompleteFlag) f) s)
  | CreateWorkInProgress cur =>
      match alternate (fibers s cur) with
      | Some a => (Ret a, s)
      | None => (Thrown "no alternate"%string, s)
      end
  | GetTransitionsForLanes _ _ => (Ret None, s)
  | MarkRootSuspended_dontCallThisOneDirectly root suspended =>
      (Ret tt,
       wrRoot root
         (fun r =>
            mkFiberRoot (tag r) (current r) (finishedWork r) (finishedLanes r)
              (callbackNode r) (callbackPriority r) (timeoutHandle r) (pendingLanes r)
              (Z.lor (suspendedLanes r) suspended)) s)
  | MarkRootFinished root remainingLanes =>
      (Ret tt,
       wrRoot root
         (fun r =>
            mkFiberRoot (tag r) (current r) (finishedWork r) (finishedLanes r)
              (callbackNode r) (callbackPriority r) (timeoutHandle r) remainingLanes
              NoLanes) s)
  | ScheduleTimeout _ _ =>
      (Ret (handles (env s)), set_env (set_handles (S (handles (env s))) (env s)) s)
  | Scheduler_scheduleCallback _ _ =>
      (Ret (SchedulerTask (handles (env s))),
       set_env (set_handles (S (handles (env s))) (env s)) s)
  | CommitBeforeMutationEffects _ _ => (Ret false, s)
  | CallGetSnapshot store => (Ret (snapshots (env s) store), s)
  | _ => (Ret tt, s)
  end.

Definition hostEnv : Environment Host :=
  {| world := hostWorld;
     SyncLane := SyncLaneBit;
     getNextLanes := fun root _ s =>
       Z.ldiff (pendingLanes (roots s root)) (suspendedLanes (roots s root));
     getHighestPriorityLane := fun l => Z.land l (- l);
     includesNonIdleWork := fun l => negb (Z.land l NonIdleLanes =? NoLanes);
     includesOnlyRetries := fun l => Z.land l RetryLanes =? l;
     includesOnlyTransitions := fun l => Z.land l TransitionLanes =? l;
     includesBlockingLane := fun _ l => negb (Z.land l 30 =? NoLanes);
     includesExpiredLane := fun _ _ _ => false;
     getLanesToRetrySynchronouslyOnError := fun root s =>
       Z.ldiff (pendingLanes (roots s root)) OffscreenLane;
     getMostRecentEventTime := fun _ _ _ => 0;
     DiscreteEventPriority := SyncLaneBit;
     ContinuousEventPriority := 4;
     DefaultEventPriority := DefaultLane;
     IdleEventPriority := 536870912;
     lowerEventPriority := fun a b => if (a =? 0) || (b <? a) then a else b;
     lanesToEventPriority := fun l => if l =? NoLanes then 536870912 else Z.land l (- l);
     Incomplete := IncompleteFlag;
     StoreConsistency := StoreConsistencyFlag;
     HostEffectMask := 32767;
     ForceClientRender := 65536;
     BeforeMutationMask := 1028;
     MutationMask := 12854;
     LayoutMask := 8772;
     PassiveMask := 2064;
     isRootDehydrated := fun _ _ => false;
     getConcurrentlyUpdatedLanes := fun _ => NoLanes;
     now := fun s => clock (env s);
     shouldYield := fun _ => false;
     actQueueIsNull := fun _ => true |}.

Definition hostCfg : Config :=
  {| DEV := true;
     enableCreateEventHandleAPI := false;
     disableSchedulerTimeoutInWorkLoop := false;
     enableTransitionTracing := false;
     enableStrictEffects := false;
     supportsMicrotasks := false |}.

Definition hostRec : RootId -> M Host unit := performSyncWorkOnRoot Host hostCfg hostEnv 2.

(** One root, 0, whose current tree is the fiber 1; the fiber 2 is the
    alternate of 1, and the fiber 3 has no alternate. *)
Definition plainFiber (alt : option FiberId) : Fiber :=
  mkFiber alt None None None NoFlags NoFlags NoLanes NoLanes None None.

Definition hostFibers (f : FiberId) : Fiber :=
  match f with
  | 1%nat => plainFiber (Some 2%nat)
  | 2%nat => plainFiber (Some 1%nat)
  | _ => plainFiber None
  end.

Definition hostRoot (pending suspended : Lanes) : FiberRoot :=
  mkFiberRoot ConcurrentRoot 1%nat None NoLanes None NoLane None pending suspended.

Definition hostState (pending suspended : Lanes) (time : Z) (behaviours : list Behaviour)
  : State Host :=
  mkState initialVars (fun _ => hostRoot pending suspended) hostFibers
    (mkHost time (fun _ => "a"%string) behaviours 0).

(** *** Runs on the host *)

Definition oops : CapturedValue :=
  {| value := "oops"%string; stack := "at App"%string; digest := "d1"%string |}.

(** A transition is rendered concurrently; the only fiber captures an error
    on the first attempt and renders on the second.  The render is retried
    once, synchronously; the commit reports the error of the first attempt. *)
Example recovered_error_run :
  let o := performConcurrentWorkOnRoot Host hostCfg hostEnv hostRec 4 0%nat false
             (hostState TransitionLane1 0 0 [Capturing oops; Leaf]) in
  res o = Ret (Some (PerformConcurrentWorkOnRootFn 0%nat)) /\
  concurrentRenders (trace o) = [(0%nat, TransitionLane1)] /\
  syncRenders (trace o) = [(0%nat, TransitionLane1)] /\
  commits (trace o) = [0%nat] /\
  reports (trace o) = ["oops"%string] /\
  current (roots (final o) 0%nat) = 2%nat.
Proof. vm_compute. repeat split. Qed.

(** The retry errors again: the tree is committed all the same, and nothing
    is reported. *)
Example failed_retry_run :
  let o := performConcurrentWorkOnRoot Host hostCfg hostEnv hostRec 4 0%nat false
             (hostState TransitionLane1 0 0 [Capturing oops; Capturing oops]) in
  res o = Ret (Some (PerformConcurrentWorkOnRootFn 0%nat)) /\
  syncRenders (trace o) = [(0%nat, TransitionLane1)] /\
  commits (trace o) = [0%nat] /\
  reports (trace o) = [] /\
  current (roots (final o) 0%nat) = 2%nat.
Proof. vm_compute. repeat split. Qed.

(** [beginWork] of the root fiber throws: the exit status is
    [RootFatalErrored] and the value is thrown to the caller. *)
Example fatal_error_run :
  let s := hostState TransitionLane1 0 0 [Throwing "boom"%string] in
  let r := renderRootConcurrent Host hostCfg hostEnv 4 0%nat TransitionLane1 s in
  let o := performConcurrentWorkOnRoot Host hostCfg hostEnv hostRec 4 0%nat false s in
  res r = Ret RootFatalErrored /\
  res o = Thrown "boom"%string /\
  commits (trace o) = [] /\
  rd workInProgressRootRenderLanes (final o) = NoLanes.
Proof. vm_compute. repeat split. Qed.

(** The finished fiber has an update to commit. *)
Definition withEffects : State Host :=
  wrFiber 2%nat (set_flags UpdateFlag) (hostState DefaultLane 0 0 []).

Example commit_passes_run :
  trace (commitRootImpl_passes Host hostCfg hostEnv 0%nat 2%nat DefaultLane withEffects)
  = passesTrace 0%nat 2%nat DefaultLane false.
Proof. reflexivity. Qed.


(** The current tree is handed to the commit as the finished tree. *)
Definition sameTree : State Host :=
  wrRoot 0%nat (fun r => set_finishedLanes DefaultLane (set_finishedWork (Some 1%nat) r))
    (hostState DefaultLane 0 0 []).




(** A retry lane has suspended 100ms after the last fallback was committed,
    and it is the only lane that is pending. *)
Definition throttled : State Host := hostState RetryLane1 0 100 [].


(** Two retry lanes were rendered, one of which was pinged during the
    render; a third retry lane is suspended on the root. *)
Definition pingedDuringRender : State Host :=
  wr workInProgressRootPingedLanes RetryLane2
    (hostState (Z.lor RetryLane1 RetryLane3) RetryLane3 100 []).


Example pinged_run :
  let o := finishConcurrentRender Host hostCfg hostEnv hostRec 2 0%nat RootSuspended
             (Z.lor RetryLane1 RetryLane2) pingedDuringRender in
  res o = Ret tt /\ timeouts (trace o) = [] /\ commits (trace o) = [] /\
  pings (trace o) = [(0%nat, Z.lor RetryLane1 RetryLane3)].
Proof. vm_compute. repeat split. Qed.

(** The finished fiber has read the store 0 when its value was "b"; the
    store now holds "a". *)
Definition staleStore : State Host :=
  wrFiber 2%nat
    (fun f =>
       mkFiber (alternate f) (return_ f) (child f) (sibling f) StoreConsistencyFlag
         (subtreeFlags f) (lanes f) (childLanes f) (deletions f)
         (Some [{| getSnapshot := 0%nat; renderedValue := "b"%string |}]))
    (hostState TransitionLane1 0 0 []).


(** The store still holds the value that was rendered: no second render. *)
Example consistent_store_run :
  let s :=
    wrFiber 2%nat
      (fun f =>
         mkFiber (alternate f) (return_ f) (child f) (sibling f) StoreConsistencyFlag
           (subtreeFlags f) (lanes f) (childLanes f) (deletions f)
           (Some [{| getSnapshot := 0%nat; renderedValue := "a"%string |}]))
      (hostState TransitionLane1 0 0 []) in
  let o := performConcurrentWorkOnRoot_exit Host hostCfg hostEnv hostRec 4 0%nat None
             TransitionLane1 RootCompleted s in
  syncRenders (trace o) = [] /\ commits (trace o) = [0%nat] /\
  current (roots (final o) 0%nat) = 2%nat.
Proof. vm_compute. repeat split. Qed.


Example errored_render_without_retry_run :
  let o := performConcurrentWorkOnRoot Host hostCfg hostEnv hostRec 4 0%nat false
             (hostState OffscreenLane 0 0 [Capturing oops]) in
  concurrentRenders (trace o) = [(0%nat, OffscreenLane)] /\
  syncRenders (trace o) = [] /\
  commits (trace o) = [0%nat] /\
  current (roots (final o) 0%nat) = 2%nat.
Proof. vm_compute. repeat split. Qed.


Example unhandled_error_run :
  let s := hostState TransitionLane1 0 0 [Parent 3%nat; Throwing "boom"%string] in
  let r := renderRootConcurrent Host hostCfg hostEnv 4 0%nat TransitionLane1 s in
  let o := performConcurrentWorkOnRoot Host hostCfg hostEnv hostRec 4 0%nat false s in
  res r = Ret RootDidNotComplete /\
  res o = Ret (Some (PerformConcurrentWorkOnRootFn 0%nat)) /\
  commits (trace o) = [] /\
  current (roots (final o) 0%nat) = 1%nat.
Proof. vm_compute. repeat split. Qed.



(** *** More runs on the host *)

(** The host leaves the variables of the render in progress alone in the
    calls a render makes outside its work loop. *)
Lemma hostKeepsProgress : keepsProgress Host hostEnv.
Proof.
  intros A c s Hc. destruct c; try discriminate Hc; cbn [world hostEnv hostWorld snd];
    try (repeat split; reflexivity).
  destruct (alternate (fibers s cur)); repeat split; reflexivity.
Qed.

Lemma render_exits_with_a_status_witness :
  let o := renderRootSync Host hostCfg hostEnv 4 0%nat DefaultLane
             (hostState DefaultLane 0 0 [Leaf]) in
  res o = Ret RootCompleted /\
  rd workInProgress (final o) = None /\ rd workInProgressRoot (final o) = None.
Proof.
  cbv zeta.
  destruct (render_exits_with_a_status Host hostCfg hostEnv 4 0%nat DefaultLane
              (hostState DefaultLane 0 0 [Leaf]) hostKeepsProgress (fun _ => eq_refl))
    as [Hsync _].
  destruct (Hsync RootCompleted eq_refl) as (_ & Hfiber & Hroot).
  split; [reflexivity|]. split; assumption.
Defined.

(** The passive effects of the root are pending and a render is running. *)
Definition pendingWhileRendering : State Host :=
  wr executionContext RenderContext
    (wr rootWithPendingPassiveEffects (Some 0%nat) (hostState DefaultLane 0 0 [])).

Lemma flushPassiveEffects_releases_the_cache_witness :
  let o := flushPassiveEffects Host hostCfg hostEnv hostRec 2 pendingWhileRendering in
  res o = Thrown alreadyRendering /\
  trace o = [Called (ReleaseRootPooledCache 0%nat NoLanes)] /\
  rd rootWithPendingPassiveEffects (final o) = None.
Proof.
  cbv zeta.
  destruct (flushPassiveEffects_releases_the_cache Host hostCfg hostEnv hostRec 2 0%nat
              pendingWhileRendering eq_refl) as [_ Hworking].
  destruct (Hworking eq_refl) as (Htrace & _ & s1 & Hfinal & Hroot & _ & _ & _ & _ & Hres).
  split; [exact (Hres eq_refl)|]. split; [exact Htrace|].
  rewrite Hfinal. exact Hroot.
Defined.

(** A commit is pending on the root, with the timeout 7. *)
Example fresh_stack_run :
  let s := wrRoot 0%nat (set_timeoutHandle (Some 7%nat)) (hostState DefaultLane 0 0 []) in
  let o := prepareFreshStack Host hostCfg hostEnv 2 0%nat DefaultLane s in
  res o = Ret 2%nat /\ cancelled (trace o) = [7%nat] /\
  timeoutHandle (roots (final o) 0%nat) = None /\
  rd workInProgress (final o) = Some 2%nat.
Proof. vm_compute. repeat split. Qed.

(** A fiber suspends and another captures an error, in either order. *)
Example reports_run :
  let s := hostState DefaultLane 0 0 [] in
  rd workInProgressRootExitStatus (final (reportAll Host [DidSuspend; DidError oops] s))
  = RootErrored /\
  rd workInProgressRootExitStatus (final (reportAll Host [DidError oops; DidSuspend] s))
  = RootErrored /\
  rd workInProgressRootConcurrentErrors
    (final (reportAll Host [DidError oops; DidSuspend; DidError oops] s))
  = Some [oops; oops].
Proof. vm_compute. repeat split. Qed.

(** A render is entered from inside a render. *)
Example nested_entry_run :
  let s := wr executionContext RenderContext (hostState DefaultLane 0 0 [Leaf]) in
  res (performSyncWorkOnRoot Host hostCfg hostEnv 3 0%nat s) = Thrown alreadyWorking /\
  trace (performSyncWorkOnRoot Host hostCfg hostEnv 3 0%nat s) = [] /\
  res (performConcurrentWorkOnRoot Host hostCfg hostEnv hostRec 3 0%nat false s)
  = Thrown alreadyWorking.
Proof. vm_compute. repeat split. Qed.

(** [flushSync] around code that schedules a synchronous render of the
    root: the render and the commit have run when [flushSync] returns. *)
Example flushSync_run :
  let s := hostState SyncLaneBit 0 0 [Leaf] in
  let o := flushSync Host hostCfg hostEnv hostRec 3
             (Some (scheduleSyncCallback Host (PerformSyncWorkOnRoot 0%nat))) s in
  res o = Ret (Some tt) /\ syncRenders (trace o) = [(0%nat, SyncLaneBit)] /\
  commits (trace o) = [0%nat] /\ current (roots (final o) 0%nat) = 2%nat /\
  rd currentUpdatePriority (final o) = NoLane /\ rd syncQueue (final o) = None.
Proof. vm_compute. repeat split. Qed.

End WorkLoop.

(** ** ReactFiberStack.new.js *)

Module FiberStack.

(** *** Data *)

(** A JavaScript value that may be undefined or null. *)
Inductive Js (A : Type) : Type :=
| Undefined
| Null
| Val (a : A).

Arguments Undefined {A}.
Arguments Null {A}.
Arguments Val {A} a.

(** Arrays: reading a hole or past the end gives undefined; an assignment at
    or past the end extends the array, leaving holes. *)
Definition aget {A : Type} (l : list (Js A)) (i : nat) : Js A := nth i l Undefined.

Definition aset {A : Type} (l : list (Js A)) (i : nat) (v : Js A) : list (Js A) :=
  if (i <? List.length l)%nat then firstn i l ++ v :: skipn (S i) l
  else l ++ repeat Undefined (i - List.length l) ++ [v].

Definition FiberId : Type := nat.
Definition CursorId : Type := nat.

Section WithValues.

(** The values the cursors hold, and [__DEV__]. *)
Variable V : Type.
Variable DEV : bool.

(** The module variables [valueStack], [fiberStack] (assigned an array only in
    DEV) and [index]; the cursor objects, which are shared by reference; the
    messages logged with [console.error]. *)
Record State : Type := mkState {
  valueStack : list (Js V);
  fiberStack : list (Js FiberId);
  index : Z;
  cursors : CursorId -> Js V;
  nextCursor : CursorId;
  consoleErrors : list string
}.

Definition initialState : State := mkState [] [] (-1) (fun _ => Undefined) 0%nat [].

Definition upd (c : CursorId) (v : Js V) (m : CursorId -> Js V) : CursorId -> Js V :=
  fun k => if Nat.eqb k c then v else m k.

Definition createCursor (defaultValue : Js V) (s : State) : CursorId * State :=
  (nextCursor s,
   mkState (valueStack s) (fiberStack s) (index s)
     (upd (nextCursor s) defaultValue (cursors s)) (S (nextCursor s)) (consoleErrors s)).

Definition isEmpty (s : State) : bool := index s =? -1.

Definition log (message : string) (s : State) : State :=
  mkState (valueStack s) (fiberStack s) (index s) (cursors s) (nextCursor s)
    (consoleErrors s ++ [message]).

Definition same_fiber (fiber : FiberId) (entry : Js FiberId) : bool :=
  match entry with
  | Val f => Nat.eqb fiber f
  | _ => false
  end.

Definition pop (cursor : CursorId) (fiber : FiberId) (s : State) : State :=
  if index s <? 0 then
    if DEV then log "Unexpected pop." s else s
  else
    let i := Z.to_nat (index s) in
    let s :=
      if DEV && negb (same_fiber fiber (aget (fiberStack s) i))
      then log "Unexpected Fiber popped." s else s in
    mkState
      (aset (valueStack s) i Null)
      (if DEV then aset (fiberStack s) i Null else fiberStack s)
      (index s - 1)
      (upd cursor (aget (valueStack s) i) (cursors s))
      (nextCursor s) (consoleErrors s).

Definition push (cursor : CursorId) (value : Js V) (fiber : FiberId) (s : State) : State :=
  let i := Z.to_nat (index s + 1) in
  mkState
    (aset (valueStack s) i (cursors s cursor))
    (if DEV then aset (fiberStack s) i (Val fiber) else fiberStack s)
    (index s + 1)
    (upd cursor value (cursors s))
    (nextCursor s) (consoleErrors s).

Definition checkThatStackIsEmpty (s : State) : State :=
  if DEV && negb (index s =? -1)
  then log "Expected an empty stack. Something was not reset properly." s
  else s.

Definition resetStackAfterFatalErrorInDev (s : State) : State :=
  if DEV then mkState [] [] (-1) (cursors s) (nextCursor s) (consoleErrors s) else s.

(** The calls a renderer makes, and their effect in order. *)
Inductive Op : Type :=
| Push (cursor : CursorId) (value : Js V) (fiber : FiberId)
| Pop (cursor : CursorId) (fiber : FiberId).

Definition runOp (o : Op) (s : State) : State :=
  match o with
  | Push c v f => push c v f s
  | Pop c f => pop c f s
  end.

Definition run (ops : list Op) (s : State) : State :=
  fold_left (fun acc o => runOp o acc) ops s.

(** Calls that are nested as the fibers of a tree are: each [push] is
    answered by the [pop] of the same cursor and fiber, after the calls made
    for the subtree. *)
Inductive Nested : list Op -> Prop :=
| nested_nil : Nested []
| nested_wrap (c : CursorId) (v : Js V) (f : FiberId) (ops : list Op) :
    Nested ops -> Nested (Push c v f :: ops ++ [Pop c f])
| nested_app (a b : list Op) : Nested a -> Nested b -> Nested (a ++ b).

(** *** Properties *)

Lemma aget_aset_same {A : Type} (l : list (Js A)) (i : nat) (v : Js A) :
  aget (aset l i v) i = v.
Proof.
  unfold aget, aset. destruct (i <? List.length l)%nat eqn:Hlt.
  - apply Nat.ltb_lt in Hlt.
    rewrite app_nth2; rewrite length_firstn, Nat.min_l by lia; [|lia].
    now rewrite Nat.sub_diag.
  - apply Nat.ltb_ge in Hlt.
    rewrite app_nth2 by lia. rewrite app_nth2; rewrite repeat_length; [|lia].
    replace (i - List.length l - (i - List.length l))%nat with O by lia. reflexivity.
Qed.

Lemma aget_aset_other {A : Type} (l : list (Js A)) (i j : nat) (v : Js A) :
  j <> i -> aget (aset l i v) j = aget l j.
Proof.
  intros Hne. unfold aget, aset. destruct (i <? List.length l)%nat eqn:Hlt.
  - apply Nat.ltb_lt in Hlt.
    destruct (Nat.lt_ge_cases j i) as [Hj|Hj].
    + rewrite app_nth1 by (rewrite length_firstn; lia).
      rewrite <- (firstn_skipn i l) at 2. rewrite app_nth1 by (rewrite length_firstn; lia).
      reflexivity.
    + rewrite app_nth2; rewrite length_firstn, Nat.min_l by lia; [|lia].
      destruct (j - i)%nat as [|d] eqn:Hd; [lia|]. cbn [nth].
      rewrite <- (firstn_skipn (S i) l) at 2.
      rewrite app_nth2; rewrite length_firstn, Nat.min_l by lia; [|lia].
      f_equal. lia.
  - apply Nat.ltb_ge in Hlt.
    destruct (Nat.lt_ge_cases j (List.length l)) as [Hj|Hj].
    + now rewrite app_nth1 by lia.
    + rewrite app_nth2 by lia. rewrite (nth_overflow l) by lia.
      destruct (Nat.lt_ge_cases (j - List.length l) (i - List.length l)) as [Hk|Hk].
      * rewrite app_nth1 by (rewrite repeat_length; lia).
        apply nth_repeat_lt. lia.
      * rewrite app_nth2; rewrite repeat_length; [|lia].
        destruct (j - List.length l - (i - List.length l))%nat as [|d] eqn:Hd; [lia|].
        cbn [nth]. now destruct d.
Qed.

Lemma upd_hit (c : CursorId) (v : Js V) (m : CursorId -> Js V) : upd c v m c = v.
Proof. unfold upd. now rewrite Nat.eqb_refl. Qed.

Lemma upd_miss (c k : CursorId) (v : Js V) (m : CursorId -> Js V) :
  k <> c -> upd c v m k = m k.
Proof. intros Hne. unfold upd. now apply Nat.eqb_neq in Hne as ->. Qed.

(** Two states that agree on what is live: the cursors, the index, the
    entries of both stacks up to the index, and what has been logged. *)
Definition agree (s s' : State) : Prop :=
  index s' = index s /\
  (forall k, cursors s' k = cursors s k) /\
  (forall i, (Z.of_nat i <= index s) ->
     aget (valueStack s') i = aget (valueStack s) i /\
     aget (fiberStack s') i = aget (fiberStack s) i) /\
  consoleErrors s' = consoleErrors s.

Lemma agree_refl s : agree s s.
Proof. repeat split. Qed.

Lemma agree_trans s1 s2 s3 : agree s1 s2 -> agree s2 s3 -> agree s1 s3.
Proof.
  intros (Hi & Hc & He & Hl) (Hi' & Hc' & He' & Hl'). split; [congruence|].
  split; [intros k; now rewrite Hc'|]. split; [|congruence].
  intros i Hle. destruct (He i Hle) as [Hv Hf].
  destruct (He' i) as [Hv' Hf']; [lia|]. split; congruence.
Qed.

Lemma run_app (a b : list Op) (s : State) : run (a ++ b) s = run b (run a s).
Proof. apply fold_left_app. Qed.

Lemma push_index c v f s : index (push c v f s) = index s + 1.
Proof. reflexivity. Qed.

(** A [push] answered by the [pop] of the same cursor and fiber, with calls
    in between that leave the live part as they found it. *)
Lemma push_pop_agree c v f s s' :
  -1 <= index s ->
  agree (push c v f s) s' ->
  agree s (pop c f s').
Proof.
  intros Hidx (Hi & Hc & He & Hl).
  rewrite push_index in Hi, He.
  assert (Hneg : (index s' <? 0) = false) by (apply Z.ltb_ge; lia).
  destruct (He (Z.to_nat (index s + 1))) as [Hv Hf]; [lia|].
  cbn [valueStack fiberStack push] in Hv, Hf. rewrite aget_aset_same in Hv.
  assert (Hsame : DEV && negb (same_fiber f (aget (fiberStack s') (Z.to_nat (index s + 1))))
                  = false).
  { destruct DEV; [|reflexivity]. rewrite Hf, aget_aset_same. cbn.
    now rewrite Nat.eqb_refl. }
  unfold pop. rewrite Hneg, Hi, Hsame.
  split; [cbn [index]; lia|]. split; [|split].
  - intros k. cbn [cursors]. unfold upd at 1. destruct (Nat.eqb k c) eqn:Hk.
    + apply Nat.eqb_eq in Hk. subst k. exact Hv.
    + rewrite Hc. cbn [cursors push]. unfold upd. now rewrite Hk.
  - intros i Hle. cbn [valueStack fiberStack].
    assert (Hne : i <> Z.to_nat (index s + 1)) by lia.
    destruct (He i) as [Hv' Hf']; [lia|].
    cbn [valueStack fiberStack push] in Hv', Hf'.
    rewrite aget_aset_other in Hv' by exact Hne.
    split; [now rewrite aget_aset_other by exact Hne|].
    destruct DEV; [|exact Hf'].
    rewrite aget_aset_other in Hf' by exact Hne.
    now rewrite aget_aset_other by exact Hne.
  - cbn [consoleErrors]. exact Hl.
Qed.

Lemma nested_agree ops :
  Nested ops -> forall s, -1 <= index s -> agree s (run ops s).
Proof.
  induction 1 as [|c v f ops Hn IH|a b Ha IHa Hb IHb]; intros s Hidx.
  - apply agree_refl.
  - change (run (Push c v f :: ops ++ [Pop c f]) s)
      with (run (ops ++ [Pop c f]) (push c v f s)).
    rewrite run_app. cbn [run fold_left runOp].
    apply (push_pop_agree c v f); [exact Hidx|].
    apply IH. rewrite push_index. lia.
  - rewrite run_app. eapply agree_trans; [apply IHa; exact Hidx|].
    apply IHb. destruct (IHa s Hidx) as (Hi & _). lia.
Qed.

Lemma length_aset {A : Type} (l : list (Js A)) (i : nat) (v : Js A) :
  List.length (aset l i v) = Nat.max (List.length l) (S i).
Proof.
  unfold aset. destruct (i <? List.length l)%nat eqn:Hlt.
  - apply Nat.ltb_lt in Hlt.
    rewrite length_app, length_firstn. cbn [List.length]. rewrite length_skipn. lia.
  - apply Nat.ltb_ge in Hlt.
    rewrite !length_app, repeat_length. cbn [List.length]. lia.
Qed.

(** The index stays between -1 and the last entry of [valueStack]. *)
Definition inBounds (s : State) : Prop :=
  -1 <= index s < Z.of_nat (List.length (valueStack s)).

Lemma runOp_inBounds (o : Op) (s : State) : inBounds s -> inBounds (runOp o s).
Proof.
  unfold inBounds. intros [Hlo Hhi]. destruct o as [c v f|c f]; cbn [runOp].
  - unfold push. cbn [index valueStack]. rewrite length_aset. lia.
  - unfold pop. destruct (index s <? 0) eqn:Hneg.
    + destruct DEV; cbn; lia.
    + apply Z.ltb_ge in Hneg.
      destruct (DEV && negb (same_fiber f (aget (fiberStack s) (Z.to_nat (index s)))))%bool;
        cbn [index valueStack log]; rewrite length_aset; lia.
Qed.

(** X1.  Whatever the calls are, the index never goes below -1 and never points
    past the entries of [valueStack]: a [pop] never reads a hole.  On an
    empty stack [pop] touches no cursor; it only logs, in DEV. *)
Theorem stack_never_underflows :
  forall (ops : list Op) (s : State),
    inBounds s ->
    inBounds (run ops s) /\
    (forall c f,
       isEmpty (run ops s) = true ->
       pop c f (run ops s) =
       if DEV then log "Unexpected pop." (run ops s) else run ops s).
Proof.
  intros ops s Hin.
  assert (Hrun : inBounds (run ops s)).
  { revert s Hin. induction ops as [|o ops IH]; intros s Hin; [exact Hin|].
    cbn [run fold_left]. apply IH. now apply runOp_inBounds. }
  split; [exact Hrun|].
  intros c f Hempty. unfold isEmpty in Hempty. apply Z.eqb_eq in Hempty.
  unfold pop. rewrite Hempty. reflexivity.
Qed.

(** X2.  Calls nested as the fibers of a tree are leave every cursor with the
    value it had, the index where it was, and log nothing. *)
Theorem nested_calls_restore_cursors :
  forall (ops : list Op) (s : State),
    Nested ops ->
    -1 <= index s ->
    let s' := run ops s in
    (forall k, cursors s' k = cursors s k) /\
    index s' = index s /\
    isEmpty s' = isEmpty s /\
    consoleErrors s' = consoleErrors s.
Proof.
  intros ops s Hn Hidx s'.
  destruct (nested_agree ops Hn s Hidx) as (Hi & Hc & _ & Hl).
  fold s' in Hi, Hc, Hl. unfold isEmpty. rewrite Hi. auto.
Qed.

Lemma pop_consoleErrors c f s :
  0 <= index s ->
  consoleErrors (pop c f s) =
  if DEV && negb (same_fiber f (aget (fiberStack s) (Z.to_nat (index s))))
  then consoleErrors s ++ ["Unexpected Fiber popped."%string]
  else consoleErrors s.
Proof.
  intros Hidx. unfold pop. apply Z.ltb_ge in Hidx. rewrite Hidx.
  now destruct (DEV && negb (same_fiber f (aget (fiberStack s) (Z.to_nat (index s)))))%bool.
Qed.

Lemma pop_fiberStack c f s :
  0 <= index s ->
  fiberStack (pop c f s) =
  if DEV then aset (fiberStack s) (Z.to_nat (index s)) Null else fiberStack s.
Proof.
  intros Hidx. unfold pop. apply Z.ltb_ge in Hidx. rewrite Hidx.
  now destruct (DEV && negb (same_fiber f (aget (fiberStack s) (Z.to_nat (index s)))))%bool.
Qed.

(** X3.  Two pushes answered by their pops in the wrong order: each cursor ends
    with the value the other one had. *)
Theorem crossed_pops_swap_cursors :
  forall (c1 c2 : CursorId) (v1 v2 : Js V) (f1 f2 : FiberId) (s : State),
    c1 <> c2 ->
    -1 <= index s ->
    let s' := run [Push c1 v1 f1; Push c2 v2 f2; Pop c1 f1; Pop c2 f2] s in
    cursors s' c1 = cursors s c2 /\
    cursors s' c2 = cursors s c1 /\
    (forall k, k <> c1 -> k <> c2 -> cursors s' k = cursors s k) /\
    index s' = index s /\
    (f1 <> f2 ->
     consoleErrors s' =
     if DEV
     then consoleErrors s ++ ["Unexpected Fiber popped."; "Unexpected Fiber popped."]%string
     else consoleErrors s).
Proof.
  intros c1 c2 v1 v2 f1 f2 s Hne Hidx. cbv zeta.
  cbn [run fold_left runOp].
  set (i1 := Z.to_nat (index s + 1)). set (i2 := Z.to_nat (index s + 1 + 1)).
  assert (Hi : i2 <> i1) by (unfold i1, i2; lia).
  assert (Hi' : i1 <> i2) by (unfold i1, i2; lia).
  assert (H12 : Nat.eqb c2 c1 = false) by (apply Nat.eqb_neq; congruence).
  assert (H21 : Nat.eqb c1 c2 = false) by (apply Nat.eqb_neq; congruence).
  set (s1 := push c1 v1 f1 s). set (s2 := push c2 v2 f2 s1).
  assert (Hv2 : aget (valueStack s2) i2 = cursors s c2).
  { unfold s2, push. cbn [valueStack index cursors]. fold i1 i2.
    rewrite aget_aset_same. unfold s1, push. cbn [cursors].
    apply upd_miss. congruence. }
  assert (Hv1 : aget (valueStack s2) i1 = cursors s c1).
  { unfold s2, push. cbn [valueStack index cursors]. fold i1 i2.
    rewrite aget_aset_other by exact Hi'. unfold s1, push. cbn [valueStack].
    fold i1. apply aget_aset_same. }
  assert (Hidx2 : index s2 = index s + 1 + 1) by reflexivity.
  set (s3 := pop c1 f1 s2).
  assert (Hs3 : index s3 = index s + 1 /\
                cursors s3 c1 = cursors s c2 /\
                (forall k, k <> c1 -> cursors s3 k = cursors s2 k) /\
                aget (valueStack s3) i1 = cursors s c1).
  { unfold s3, pop. assert (Hneg : (index s2 <? 0) = false) by (apply Z.ltb_ge; lia).
    rewrite Hneg, Hidx2. fold i2.
    destruct (DEV && negb (same_fiber f1 (aget (fiberStack s2) i2)))%bool;
      cbn [index cursors valueStack log]; rewrite Hv2, upd_hit;
      (split; [lia|split; [reflexivity|split; [intros k Hk; now apply upd_miss|]]]);
      rewrite aget_aset_other by exact Hi'; exact Hv1. }
  destruct Hs3 as (Hidx3 & Hc3 & Hk3 & Hv3).
  set (s4 := pop c2 f2 s3).
  assert (Hneg3 : (index s3 <? 0) = false) by (apply Z.ltb_ge; lia).
  assert (Hs4 : index s4 = index s /\ cursors s4 c2 = cursors s c1 /\
                (forall k, k <> c2 -> cursors s4 k = cursors s3 k)).
  { unfold s4, pop. rewrite Hneg3, Hidx3. fold i1.
    destruct (DEV && negb (same_fiber f2 (aget (fiberStack s3) i1)))%bool;
      cbn [index cursors valueStack log]; rewrite Hv3, upd_hit;
      (split; [lia|split; [reflexivity|intros k Hk; now apply upd_miss]]). }
  destruct Hs4 as (Hidx4 & Hc4 & Hk4).
  split; [rewrite Hk4 by congruence; exact Hc3|].
  split; [exact Hc4|]. split; [|split; [exact Hidx4|]].
  - intros k Hk1 Hk2. rewrite Hk4, Hk3 by assumption.
    unfold s2, s1, push. cbn [cursors]. now rewrite !upd_miss by assumption.
  - intros Hf.
    assert (Hf12 : Nat.eqb f1 f2 = false) by (apply Nat.eqb_neq; congruence).
    assert (Hf21 : Nat.eqb f2 f1 = false) by (apply Nat.eqb_neq; congruence).
    unfold s4. rewrite pop_consoleErrors by lia. rewrite Hidx3. fold i1.
    unfold s3. rewrite pop_consoleErrors, pop_fiberStack by lia. rewrite Hidx2. fold i2.
    unfold s2, s1, push. cbn [fiberStack consoleErrors index]. fold i1 i2.
    destruct DEV; cbn [andb]; [|reflexivity].
    rewrite aget_aset_same. cbn [same_fiber]. rewrite Hf12. cbn [negb].
    rewrite aget_aset_other by exact Hi'. rewrite aget_aset_other by exact Hi'.
    rewrite aget_aset_same. cbn [same_fiber]. rewrite Hf21. cbn [negb].
    now rewrite <- app_assoc.
Qed.

End WithValues.

(** *** Runs *)

(** Two cursors holding 1 and 2, in DEV. *)
Definition twoCursors : State nat :=
  snd (createCursor nat (Val 2%nat) (snd (createCursor nat (Val 1%nat) (initialState nat)))).

Example push_pop_run :
  let s := run nat true
             [Push nat 0%nat (Val 10%nat) 7%nat; Push nat 1%nat Null 8%nat;
              Pop nat 1%nat 8%nat]
             twoCursors in
  cursors nat s 0%nat = Val 10%nat /\ cursors nat s 1%nat = Val 2%nat /\
  index nat s = 0 /\ valueStack nat s = [Val 1%nat; Null] /\
  consoleErrors nat s = [].
Proof. repeat split. Qed.

Lemma nested_calls_restore_cursors_witness :
  let s := run nat true
             [Push nat 0%nat (Val 10%nat) 7%nat; Push nat 1%nat Null 8%nat;
              Pop nat 1%nat 8%nat; Pop nat 0%nat 7%nat]
             twoCursors in
  (forall k, cursors nat s k = cursors nat twoCursors k) /\
  index nat s = -1 /\ isEmpty nat s = true /\ consoleErrors nat s = [].
Proof.
  apply (nested_calls_restore_cursors nat true
           [Push nat 0%nat (Val 10%nat) 7%nat; Push nat 1%nat Null 8%nat;
            Pop nat 1%nat 8%nat; Pop nat 0%nat 7%nat] twoCursors).
  - apply (nested_wrap nat 0%nat (Val 10%nat) 7%nat
             [Push nat 1%nat Null 8%nat; Pop nat 1%nat 8%nat]).
    apply (nested_wrap nat 1%nat Null 8%nat []). constructor.
  - cbn. lia.
Defined.

Lemma stack_never_underflows_witness :
  let s := run nat true [Pop nat 0%nat 7%nat; Push nat 0%nat (Val 10%nat) 7%nat;
                         Pop nat 0%nat 7%nat; Pop nat 1%nat 8%nat] twoCursors in
  inBounds nat s /\
  pop nat true 1%nat 8%nat s = log nat "Unexpected pop." s.
Proof.
  cbv zeta.
  destruct (stack_never_underflows nat true
              [Pop nat 0%nat 7%nat; Push nat 0%nat (Val 10%nat) 7%nat;
               Pop nat 0%nat 7%nat; Pop nat 1%nat 8%nat] twoCursors) as [Hin Hpop].
  - split; cbn; lia.
  - split; [exact Hin|]. apply Hpop. reflexivity.
Defined.

Lemma crossed_pops_swap_cursors_witness :
  let s := run nat true
             [Push nat 0%nat (Val 10%nat) 7%nat; Push nat 1%nat (Val 20%nat) 8%nat;
              Pop nat 0%nat 7%nat; Pop nat 1%nat 8%nat]
             twoCursors in
  cursors nat s 0%nat = Val 2%nat /\ cursors nat s 1%nat = Val 1%nat /\
  consoleErrors nat s = ["Unexpected Fiber popped."; "Unexpected Fiber popped."]%string.
Proof.
  cbv zeta.
  destruct (crossed_pops_swap_cursors nat true 0%nat 1%nat (Val 10%nat) (Val 20%nat)
              7%nat 8%nat twoCursors) as (H1 & H2 & _ & _ & Hlog).
  - discriminate.
  - cbn. lia.
  - split; [exact H1|split; [exact H2|]]. apply Hlog. discriminate.
Defined.

End FiberStack.
